(** * MonitoRSS user-feeds: the articles service

    A shallow embedding of [ArticlesService] (articles.service.ts): parsing a
    feed into articles, the two-tier deduplication of
    [getArticlesToDeliverFromXml], its staged persistence through
    [storeArticles], and the date filter.

    Asynchronous methods that only read the database are functions of the
    database; methods that write thread it explicitly ([Async]); the body of
    [em.transactional] runs in [Tx] over the transaction's entity manager. *)

From Stdlib Require Import ZArith String List Bool Lia.
From stdpp Require Import base option list gmap strings.

Local Open Scope string_scope.
Local Open Scope Z_scope.
Local Open Scope list_scope.

(** ** Exceptions and results *)

Inductive Exception : Type :=
| FeedParseTimeoutException
| InvalidFeedException (message : string)
| Error (message : string)
| UniqueConstraintViolationException (code : string).

Inductive Result (A : Type) : Type :=
| Ok (value : A)
| Throw (err : Exception).

Arguments Ok {A} value.
Arguments Throw {A} err.

(** ** Data model *)

(** [Article["flattened"]]: [{ id: string; idHash: string; [key: string]: string }]. *)
Record FlattenedArticle : Type := mkFlattened {
  id : string;
  idHash : string;
  props : gmap string string
}.

(** [Article["raw"]]: ISO-8601 strings, absent when the source had no valid date. *)
Record RawDates : Type := mkRaw {
  date : option string;
  pubdate : option string
}.

Record Article : Type := mkArticle {
  flattened : FlattenedArticle;
  raw : RawDates
}.

(** A row of the partitioned field store. *)
Record PartitionedFeedArticleFieldInsert : Type := mkFieldInsert {
  feedId : string;
  fieldName : string;
  fieldHashedValue : string;
  createdAt : Z
}.

(** A row of the comparison registry. *)
Record FeedArticleCustomComparison : Type := mkComparison {
  feed_id : string;
  field_name : string
}.

Record Database : Type := mkDatabase {
  article_fields : list PartitionedFeedArticleFieldInsert;
  custom_comparisons : list FeedArticleCustomComparison
}.

(** The entity manager handed to the callback of [em.transactional]: the
    database as the transaction sees it, and the unit of work, i.e. the
    entities given to [em.persist] that wait for the flush at commit. *)
Record EntityManager : Type := mkEntityManager {
  em_db : Database;
  em_unitOfWork : list FeedArticleCustomComparison
}.

(** ** A small monad for writes *)

Definition Async (A : Type) : Type := Database -> Result A * Database.
Definition Tx (A : Type) : Type := EntityManager -> Result (A * EntityManager).

Definition async_ret {A} (a : A) : Async A := fun db => (Ok a, db).

Definition async_bind {A B} (m : Async A) (k : A -> Async B) : Async B :=
  fun db =>
    match m db with
    | (Ok a, db') => k a db'
    | (Throw e, db') => (Throw e, db')
    end.

Definition tx_ret {A} (a : A) : Tx A := fun em => Ok (a, em).

Definition tx_bind {A B} (m : Tx A) (k : A -> Tx B) : Tx B :=
  fun em =>
    match m em with
    | Ok (a, em') => k a em'
    | Throw e => Throw e
    end.

Declare Scope async_scope.
Delimit Scope async_scope with async.
Declare Scope tx_scope.
Delimit Scope tx_scope with tx.

Notation "'let!' x ':=' m 'in' k" := (async_bind m (fun x => k))
  (at level 10, x name, m at level 100, k at level 200) : async_scope.
Notation "'run!' m 'in' k" := (async_bind m (fun _ => k))
  (at level 10, m at level 100, k at level 200) : async_scope.
Notation "'let!' x ':=' m 'in' k" := (tx_bind m (fun x => k))
  (at level 10, x name, m at level 100, k at level 200) : tx_scope.
Notation "'run!' m 'in' k" := (tx_bind m (fun _ => k))
  (at level 10, m at level 100, k at level 200) : tx_scope.

(** A conditional statement without [else]. *)
Definition when (b : bool) (m : Async unit) : Async unit :=
  if b then m else async_ret tt.

(** ** The stores *)

Module FieldStore.

(** The uniqueness key of a row: [(feedId, fieldName, fieldHashedValue)]. *)
Definition same_key (r1 r2 : PartitionedFeedArticleFieldInsert) : bool :=
  (feedId r1 =? feedId r2)%string
  && (fieldName r1 =? fieldName r2)%string
  && (fieldHashedValue r1 =? fieldHashedValue r2)%string.

(** Modelled from the spec: [PartitionedFeedArticleFieldStoreService.persist]
    is missing. The tuple [(feedId, fieldName, fieldHashedValue)] is unique;
    an insert of a tuple that is already there, also one made earlier in the
    same batch, collides on the unique constraint, and the violation surfaces
    to the caller (Postgres SQLSTATE 23505). *)
Fixpoint insert_rows (rows table : list PartitionedFeedArticleFieldInsert)
  : Result (list PartitionedFeedArticleFieldInsert) :=
  match rows with
  | [] => Ok table
  | r :: rest =>
      if existsb (same_key r) table
      then Throw (UniqueConstraintViolationException "23505")
      else insert_rows rest (table ++ [r])
  end.

Definition persist (rows : list PartitionedFeedArticleFieldInsert) : Tx unit :=
  fun em =>
    match insert_rows rows (article_fields (em_db em)) with
    | Ok table =>
        Ok (tt, mkEntityManager
                  (mkDatabase table (custom_comparisons (em_db em)))
                  (em_unitOfWork em))
    | Throw e => Throw e
    end.

Definition has_row (db : Database) (feed name value : string) : bool :=
  existsb (fun r => (feedId r =? feed)%string
                    && (fieldName r =? name)%string
                    && (fieldHashedValue r =? value)%string)
          (article_fields db).

(** Modelled from the spec: [findIdFieldsForFeed] is missing. It returns the
    stored id rows of the feed whose hash is among the candidates; the
    caller reads their [field_hashed_value]. *)
Definition findIdFieldsForFeed (db : Database) (feed : string)
    (candidateHashes : list string) : list PartitionedFeedArticleFieldInsert :=
  List.filter
    (fun r => (feedId r =? feed)%string
              && (fieldName r =? "id")%string
              && existsb (String.eqb (fieldHashedValue r)) candidateHashes)
    (article_fields db).

(** Modelled from the spec: [someFieldsExist] is missing. True iff any of
    the [(feedId, name, value)] triples exists. *)
Definition someFieldsExist (db : Database) (feed : string)
    (queries : list (string * string)) : bool :=
  existsb (fun q => has_row db feed (fst q) (snd q)) queries.

(** Modelled from the spec: [hasArticlesStoredForFeed] is missing. True iff
    an article (an id row) is stored for the feed. *)
Definition hasArticlesStoredForFeed (db : Database) (feed : string) : bool :=
  existsb (fun r => (feedId r =? feed)%string && (fieldName r =? "id")%string)
          (article_fields db).

End FieldStore.

Module ComparisonRepo.

Definition same_key (c1 c2 : FeedArticleCustomComparison) : bool :=
  (feed_id c1 =? feed_id c2)%string && (field_name c1 =? field_name c2)%string.

(** [find({ feed_id, field_name: { $in: names } })]. *)
Definition find (db : Database) (feed : string) (names : list string)
  : list FeedArticleCustomComparison :=
  List.filter
    (fun c => (feed_id c =? feed)%string
              && existsb (String.eqb (field_name c)) names)
    (custom_comparisons db).

(** Modelled from the spec: the registry table is unique on
    [(feedId, fieldName)]; the inserts of a flush collide like those of the
    field store. *)
Fixpoint insert_rows (rows table : list FeedArticleCustomComparison)
  : Result (list FeedArticleCustomComparison) :=
  match rows with
  | [] => Ok table
  | c :: rest =>
      if existsb (same_key c) table
      then Throw (UniqueConstraintViolationException "23505")
      else insert_rows rest (table ++ [c])
  end.

End ComparisonRepo.

(** [em.persist(entities)]: schedules the entities, nothing is written yet. *)
Definition em_persist (entities : list FeedArticleCustomComparison) : Tx unit :=
  fun em => Ok (tt, mkEntityManager (em_db em) (em_unitOfWork em ++ entities)).

(** The flush at commit writes the unit of work. *)
Definition em_flush (em : EntityManager) : Result Database :=
  match ComparisonRepo.insert_rows (em_unitOfWork em) (custom_comparisons (em_db em)) with
  | Ok table => Ok (mkDatabase (article_fields (em_db em)) table)
  | Throw e => Throw e
  end.

(** [orm.em.transactional(cb)]: runs [cb] in a transaction, flushes and
    commits when it returns; when [cb] or the flush throws, the transaction
    is rolled back and the exception is thrown again. *)
Definition transactional (cb : Tx unit) : Async unit :=
  fun db =>
    match cb (mkEntityManager db []) with
    | Ok (_, em) =>
        match em_flush em with
        | Ok db' => (Ok tt, db')
        | Throw e => (Throw e, db)
        end
    | Throw e => (Throw e, db)
    end.

(** ** External collaborators *)

(** A JavaScript [Date] object. *)
Inductive JsDate : Type :=
| ValidDate (ms : Z)
| InvalidDate.

(** A [FeedParser.Item]: its properties in string form, and the two [Date]
    objects the service reads. *)
Record Item : Type := mkItem {
  item_props : gmap string string;
  item_date : option JsDate;
  item_pubdate : option JsDate
}.

(** What [ArticleParserService.flatten] returns. The closure
    [injectArticleContent] mutates the flattened article it is given; here it
    returns the mutated object. *)
Record FlattenResult : Type := mkFlattenResult {
  fr_flattened : gmap string string;
  injectArticleContent : FlattenedArticle -> FlattenedArticle;
  hasArticleContentInjection : bool
}.

(** What the streaming parser does with the input, as the events the service
    subscribes to; [OnTimeout] is the service's own timer firing. *)
Inductive ParserEvent : Type :=
| OnError (message : string)
| OnReadable (items : list Item)
| OnEnd
| OnTimeout.

Class Collaborators : Type := {
  (** [sha1.copy().update(s).digest("hex")] *)
  sha1_hex : string -> string;
  (** [feedparser.write(xml); feedparser.end()] *)
  feedparser : string -> list ParserEvent;
  (** [articleParserService.flatten(item, options)], at the options of the call *)
  flatten : Item -> FlattenResult;
  (** [dayjs(s)]: [None] when [isValid()] is false, else the instant in ms *)
  dayjs : string -> option Z;
  (** [Date.prototype.toISOString] *)
  toISOString : Z -> string;
  MAX_ARTICLE_INJECTION_ARTICLE_COUNT : nat
}.

(** JavaScript truthiness of a string. *)
Definition truthy (s : string) : bool := negb (s =? "")%string.

(** Modelled from the spec: [getNestedPrimitiveValue] is missing. The
    flattened article maps string keys to primitives; the value of a key that
    is absent is [null]. *)
Definition getNestedPrimitiveValue (fl : FlattenedArticle) (key : string) : option string :=
  if (key =? "id")%string then Some (id fl)
  else if (key =? "idHash")%string then Some (idHash fl)
  else props fl !! key.

Module ArticleIDResolver.

(** Modelled from the spec: the class [ArticleIDResolver] is missing. The
    candidate keys in priority order are guid, pubdate, title and link; a
    candidate survives while it is present and non-empty on every item
    recorded so far; the id type is the surviving candidate of highest
    priority, and the id value is the item's field as a string. *)
Definition t : Type := list string.

Definition create : t := ["guid"; "pubdate"; "title"; "link"]%string.

Definition usable (item : Item) (idType : string) : bool :=
  match item_props item !! idType with
  | Some v => truthy v
  | None => false
  end.

Definition recordArticle (resolver : t) (item : Item) : t :=
  List.filter (usable item) resolver.

Definition getIDType (resolver : t) : option string := head resolver.

Definition getIDTypeValue (item : Item) (idType : string) : string :=
  default ""%string (item_props item !! idType).

End ArticleIDResolver.

(** A JavaScript [Map] with string keys: [set] keeps the position of a key
    that is already there and replaces its value. *)
Module JsMap.

Fixpoint set {V} (m : list (string * V)) (k : string) (v : V) : list (string * V) :=
  match m with
  | [] => [(k, v)]
  | (k', v') :: rest =>
      if (k' =? k)%string then (k', v) :: rest else (k', v') :: set rest k v
  end.

Fixpoint get {V} (m : list (string * V)) (k : string) : option V :=
  match m with
  | [] => None
  | (k', v') :: rest => if (k' =? k)%string then Some v' else get rest k
  end.

Definition of_entries {V} (entries : list (string * V)) : list (string * V) :=
  fold_left (fun m kv => set m (fst kv) (snd kv)) entries [].

Definition keys {V} (m : list (string * V)) : list string := map fst m.

End JsMap.

(** [new Set(xs).has(x)] *)
Definition set_has (xs : list string) (x : string) : bool := existsb (String.eqb x) xs.

(** ** Options *)

Record StoreArticlesOptions : Type := mkStoreOptions {
  comparisonFields : option (list string);
  skipIdStorage : option bool
}.

Record UserFeedDateCheckOptions : Type := mkDateChecks {
  oldArticleDateDiffMsThreshold : option Z;
  datePlaceholderReferences : option (list string)
}.

(** The second argument of [getArticlesToDeliverFromXml]; [formatOptions],
    [useParserRules] and [externalFeedProperties] only reach the flattener,
    [debug] only the logger. *)
Record DeliveryOptions : Type := mkDeliveryOptions {
  opt_id : string;
  blockingComparisons : list string;
  passingComparisons : list string;
  dateChecks : option UserFeedDateCheckOptions
}.

Record DeliveryResult : Type := mkDeliveryResult {
  articlesToDeliver : list Article;
  allArticles : list Article
}.

Record ComparisonStatus : Type := mkComparisonStatus {
  field : string;
  isStored : bool
}.

Definition async_read {A} (f : Database -> A) : Async A := fun db => (Ok (f db), db).

Definition async_lift {A} (r : Result A) : Async A := fun db => (r, db).

(** [a || b] on an optional string. *)
Definition or_else (a : option string) (b : string) : string :=
  match a with
  | Some s => if truthy s then s else b
  | None => b
  end.

(** [raw[placeholder]] *)
Definition raw_get (r : RawDates) (placeholder : string) : option string :=
  if (placeholder =? "date")%string then date r
  else if (placeholder =? "pubdate")%string then pubdate r
  else None.

(** An article while [getArticlesFromXml] builds it. *)
Record MappedArticle : Type := mkMapped {
  ma_flattened : FlattenedArticle;
  ma_raw : RawDates;
  ma_injectArticleContent : FlattenedArticle -> FlattenedArticle;
  ma_hasArticleContentInjection : bool
}.

Section ArticlesService.

Context {env : Collaborators}.

(** *** Persistence *)

Definition comparisonFieldRows (feedId : string) (articles : list Article)
    (comparisonFields : list string) (now : Z) : list PartitionedFeedArticleFieldInsert :=
  flat_map (fun article =>
    flat_map (fun field =>
      match getNestedPrimitiveValue (flattened article) field with
      | Some fieldValue =>
          if truthy fieldValue
          then [mkFieldInsert feedId field (sha1_hex fieldValue) now]
          else []
      | None => []
      end) comparisonFields) articles.

Definition comparisonNamesToStore (db : Database) (feedId : string)
    (comparisonFields : list string) : list FeedArticleCustomComparison :=
  let foundComparisonNames := ComparisonRepo.find db feedId comparisonFields in
  map (fun name => mkComparison feedId name)
      (List.filter
         (fun name => negb (existsb (fun n => (field_name n =? name)%string)
                                    foundComparisonNames))
         comparisonFields).

Definition storeArticleComparisons (feedId : string) (articles : list Article)
    (comparisonFields : list string) (now : Z) : Tx unit :=
  if (length comparisonFields =? 0)%nat then tx_ret tt
  else fun em =>
    let fieldsToSave := comparisonFieldRows feedId articles comparisonFields now in
    (run! em_persist (comparisonNamesToStore (em_db em) feedId comparisonFields) in
     FieldStore.persist fieldsToSave)%tx em.

Definition idRows (feedId : string) (articles : list Article) (now : Z)
  : list PartitionedFeedArticleFieldInsert :=
  map (fun article => mkFieldInsert feedId "id" (idHash (flattened article)) now) articles.

(** [options?.comparisonFields || []] *)
Definition optionComparisonFields (options : option StoreArticlesOptions) : list string :=
  default [] (options ≫= comparisonFields).

(** The callback that [storeArticles] gives to [em.transactional]. *)
Definition storeArticlesTransaction (feedId : string) (articles : list Article)
    (options : option StoreArticlesOptions) (now : Z) : Tx unit :=
  let fieldsToSave := idRows feedId articles now in
  (run! FieldStore.persist fieldsToSave in
   storeArticleComparisons feedId articles (optionComparisonFields options) now)%tx.

Definition storeArticles (feedId : string) (articles : list Article)
    (options : option StoreArticlesOptions) (now : Z) : Async unit :=
  fun db =>
    match transactional (storeArticlesTransaction feedId articles options now) db with
    | (Throw (UniqueConstraintViolationException code), db') =>
        if (code =? "23505")%string
        then (Ok tt, db')
        else (Throw (UniqueConstraintViolationException code), db')
    | outcome => outcome
    end.

(** *** Reads *)

Definition hasPriorArticlesStored (db : Database) (feedId : string) : bool :=
  FieldStore.hasArticlesStoredForFeed db feedId.

Definition filterForNewArticles (db : Database) (feedId : string)
    (articles : list Article) : list Article :=
  let mapOfArticles :=
    JsMap.of_entries (map (fun article => (idHash (flattened article), article)) articles) in
  let articleIds := JsMap.keys mapOfArticles in
  let foundIds :=
    map fieldHashedValue (FieldStore.findIdFieldsForFeed db feedId articleIds) in
  omap (fun id => JsMap.get mapOfArticles id)
       (List.filter (fun id => negb (set_has foundIds id)) articleIds).

Definition areComparisonsStored (db : Database) (feedId : string)
    (comparisonFields : list string) : list ComparisonStatus :=
  let rows := ComparisonRepo.find db feedId comparisonFields in
  let storedFields := map field_name rows in
  map (fun field => mkComparisonStatus field (set_has storedFields field)) comparisonFields.

Definition fieldQueries (article : Article) (fieldKeys : list string)
  : list (string * string) :=
  flat_map (fun key =>
    match getNestedPrimitiveValue (flattened article) key with
    | Some value => if truthy value then [(key, sha1_hex value)] else []
    | None => []
    end) fieldKeys.

Definition articleFieldsSeenBefore (db : Database) (feedId : string)
    (article : Article) (fieldKeys : list string) : bool :=
  let queries := fieldQueries article fieldKeys in
  if (length queries =? 0)%nat then false
  else FieldStore.someFieldsExist db feedId queries.

Definition checkBlockingComparisons (db : Database) (id : string)
    (blockingComparisons : list string) (newArticles : list Article)
    (currentlyStoredComparisons : list string) : list Article :=
  let currentlyStoredBlockingComparisons :=
    List.filter (fun r => set_has currentlyStoredComparisons r) blockingComparisons in
  if (length newArticles =? 0)%nat
     || (length currentlyStoredBlockingComparisons =? 0)%nat
  then newArticles
  else if (length blockingComparisons =? 0)%nat
  then newArticles
  else
    omap (fun article =>
            let shouldBlock :=
              articleFieldsSeenBefore db id article currentlyStoredBlockingComparisons in
            if shouldBlock then None else Some article)
         newArticles.

Definition checkPassingComparisons (db : Database) (id : string)
    (passingComparisons : list string) (seenArticles : list Article)
    (currentlyStoredComparisons : list string) : list Article :=
  if (length seenArticles =? 0)%nat then seenArticles
  else
    let currentlyStoredPassingComparisons :=
      List.filter (fun r => set_has currentlyStoredComparisons r) passingComparisons in
    if (length passingComparisons =? 0)%nat
       || (length currentlyStoredPassingComparisons =? 0)%nat
    then []
    else
      let storedComparisonResults := areComparisonsStored db id passingComparisons in
      let relevantComparisons :=
        map field (List.filter isStored storedComparisonResults) in
      if (length relevantComparisons =? 0)%nat then []
      else
        omap (fun article =>
                let shouldPass :=
                  articleFieldsSeenBefore db id article relevantComparisons in
                if shouldPass then None else Some article)
             seenArticles.

(** *** The date filter *)

(** The callback that [filterArticlesBasedOnDateChecks] filters with. *)
Definition passesDateCheck (datePlaceholderReferences : option (list string))
    (oldArticleDateDiffMsThreshold now : Z) (a : Article) : bool :=
  let defaultPlaceholders := ["date"; "pubdate"]%string in
  let placeholdersToUse := default defaultPlaceholders datePlaceholderReferences in
  let dateValue :=
    head (omap (fun placeholder =>
                  dayjs (or_else (raw_get (raw a) placeholder) "invalid date"))
               placeholdersToUse) in
  match dateValue with
  | None => false
  | Some d =>
      let diffMs := now - d in
      diffMs <=? oldArticleDateDiffMsThreshold
  end.

Definition filterArticlesBasedOnDateChecks (articles : list Article)
    (dateChecks : option UserFeedDateCheckOptions) (now : Z) : list Article :=
  match dateChecks with
  | None => articles
  | Some checks =>
      match oldArticleDateDiffMsThreshold checks with
      | None => articles
      | Some threshold =>
          (* [!oldArticleDateDiffMsThreshold] also holds of the number 0 *)
          if threshold =? 0 then articles
          else
            List.filter
              (passesDateCheck (datePlaceholderReferences checks) threshold now)
              articles
      end
  end.

(** *** Parsing *)

Definition isoDate (d : option JsDate) : option string :=
  match d with
  | Some (ValidDate ms) => Some (toISOString ms)
  | _ => None
  end.

Definition mapArticle (idType : string) (rawArticle : Item) : MappedArticle :=
  let id := ArticleIDResolver.getIDTypeValue rawArticle idType in
  let flat := flatten rawArticle in
  mkMapped
    (mkFlattened id (sha1_hex id) (fr_flattened flat))
    (mkRaw (isoDate (item_date rawArticle)) (isoDate (item_pubdate rawArticle)))
    (injectArticleContent flat)
    (hasArticleContentInjection flat).

(** The loop that checks for duplicate id hashes: it rejects when an
    article has no id hash, and otherwise returns the hashes it warned
    about. *)
Fixpoint checkIdHashes (mappedArticles : list MappedArticle)
    (idHashes warned : list string) : Result (list string) :=
  match mappedArticles with
  | [] => Ok warned
  | article :: rest =>
      let h := idHash (ma_flattened article) in
      if negb (truthy h)
      then Throw (Error "Some articles are missing id hash")
      else checkIdHashes rest (idHashes ++ [h])
             (if set_has idHashes h then warned ++ [h] else warned)
  end.

(** The content-injection pass; the chunks of 25 and the pause between
    them only change when each closure runs. *)
Definition injectContent (mappedArticles : list MappedArticle) : list MappedArticle :=
  if (length mappedArticles <=? MAX_ARTICLE_INJECTION_ARTICLE_COUNT)%nat
     && existsb ma_hasArticleContentInjection mappedArticles
  then
    map (fun a => mkMapped (ma_injectArticleContent a (ma_flattened a)) (ma_raw a)
                           (ma_injectArticleContent a) (ma_hasArticleContentInjection a))
        mappedArticles
  else mappedArticles.

(** The handler of the parser's [end] event. *)
Definition onEnd (rawArticles : list Item) (idResolver : ArticleIDResolver.t)
  : Result (list Article) :=
  if (length rawArticles =? 0)%nat then Ok []
  else
    match ArticleIDResolver.getIDType idResolver with
    | None => Throw (Error "No ID type found when parsing articles for feed")
    | Some idType =>
        let mappedArticles := map (mapArticle idType) rawArticles in
        match checkIdHashes mappedArticles [] [] with
        | Throw e => Throw e
        | Ok _ =>
            Ok (map (fun a => mkArticle (ma_flattened a) (ma_raw a))
                    (injectContent mappedArticles))
        end
    end.

(** The handler of the parser's [error] event. *)
Definition onError (message : string) : Exception :=
  if (message =? "Not a feed")%string || String.prefix "Unexpected end" message
  then InvalidFeedException "Invalid feed"
  else Error message.

(** The handler of [end] settles the promise before it awaits anything
    when there is no item, or no id type. *)
Definition endsAtOnce (rawArticles : list Item) (idResolver : ArticleIDResolver.t) : bool :=
  (length rawArticles =? 0)%nat
  || match ArticleIDResolver.getIDType idResolver with
     | None => true
     | Some _ => false
     end.

(** The first error among the events, as the handler of [error] rejects
    with it. *)
Fixpoint firstError (events : list ParserEvent) : option Exception :=
  match events with
  | [] => None
  | OnError message :: _ => Some (onError message)
  | _ :: rest => firstError rest
  end.

(** The promise of [getArticlesFromXml], settled by the first event that
    resolves or rejects it; when the parser never ends, the timer fires.
    The handler of [end] is asynchronous: unless it settles at once, it
    awaits the flattener and the injection before it resolves or rejects.
    The events that follow [OnEnd] are those that arrive while it awaits
    (a parser ends once, and emits no item after it has ended); the timer
    is cleared and the items to map are taken, so of these only an error
    settles the promise, and it does so first. *)
Fixpoint settle (events : list ParserEvent) (rawArticles : list Item)
    (idResolver : ArticleIDResolver.t) : Result (list Article) :=
  match events with
  | [] => Throw FeedParseTimeoutException
  | OnTimeout :: _ => Throw FeedParseTimeoutException
  | OnError message :: _ => Throw (onError message)
  | OnReadable items :: rest =>
      settle rest (rawArticles ++ items)
             (fold_left ArticleIDResolver.recordArticle items idResolver)
  | OnEnd :: rest =>
      if endsAtOnce rawArticles idResolver then onEnd rawArticles idResolver
      else
        match firstError rest with
        | Some e => Throw e
        | None => onEnd rawArticles idResolver
        end
  end.

Definition getArticlesFromXml (xml : string) : Result (list Article) :=
  settle (feedparser xml) [] ArticleIDResolver.create.

(** *** The delivery planner *)

Definition getArticlesToDeliverFromXml (feedXml : string) (options : DeliveryOptions)
    (now : Z) : Async DeliveryResult :=
  let id := opt_id options in
  let blockingComparisons := blockingComparisons options in
  let passingComparisons := passingComparisons options in
  (let! articles := async_lift (getArticlesFromXml feedXml) in
   if (length articles =? 0)%nat
   then async_ret (mkDeliveryResult [] articles)
   else
     let! priorArticlesStored := async_read (fun db => hasPriorArticlesStored db id) in
     if negb priorArticlesStored
     then
       run! storeArticles id articles
              (Some (mkStoreOptions (Some (blockingComparisons ++ passingComparisons)) None))
              now in
       async_ret (mkDeliveryResult [] articles)
     else
       let! newArticles := async_read (fun db => filterForNewArticles db id articles) in
       let seenArticles :=
         List.filter
           (fun article =>
              negb (existsb (fun a => (idHash (flattened a) =? idHash (flattened article))%string)
                            newArticles))
           articles in
       let allComparisons := blockingComparisons ++ passingComparisons in
       let! comparisonStorageResults :=
         async_read (fun db => areComparisonsStored db id allComparisons) in
       let storedComparisons := map field (List.filter isStored comparisonStorageResults) in
       let! articlesPastBlocks :=
         async_read (fun db =>
           checkBlockingComparisons db id blockingComparisons newArticles storedComparisons) in
       let! articlesPassedComparisons :=
         async_read (fun db =>
           checkPassingComparisons db id passingComparisons seenArticles storedComparisons) in
       run! when (0 <? length newArticles)%nat
              (storeArticles id newArticles
                 (Some (mkStoreOptions (Some storedComparisons) None)) now) in
       run! when (negb (length articlesPassedComparisons =? 0)%nat)
              (storeArticles id articlesPassedComparisons
                 (Some (mkStoreOptions (Some storedComparisons) (Some true))) now) in
       let unstoredComparisons :=
         map field (List.filter (fun r => negb (isStored r)) comparisonStorageResults) in
       run! when (0 <? length unstoredComparisons)%nat
              (storeArticles id articles
                 (Some (mkStoreOptions (Some unstoredComparisons) (Some true))) now) in
       let articlesPreCheck := rev (articlesPastBlocks ++ articlesPassedComparisons) in
       let articlesPostDateCheck :=
         filterArticlesBasedOnDateChecks articlesPreCheck (dateChecks options) now in
       async_ret (mkDeliveryResult articlesPostDateCheck articles))%async.

End ArticlesService.

(** ** What a call of [storeArticles] writes

    [storeArticlesCommits] tells whether the transaction of the call goes
    through, that is, whether no insert of it collides; [committed] is the
    database after a call that went through. *)

Section Committed.

Context {env : Collaborators}.

Definition storeArticlesCommits (db : Database) (feedId : string)
    (articles : list Article) (fields : list string) (now : Z) : bool :=
  match FieldStore.insert_rows
          (idRows feedId articles now ++ comparisonFieldRows feedId articles fields now)
          (article_fields db),
        ComparisonRepo.insert_rows (comparisonNamesToStore db feedId fields)
          (custom_comparisons db) with
  | Ok _, Ok _ => true
  | _, _ => false
  end.

Definition committed (db : Database) (feedId : string)
    (articles : list Article) (fields : list string) (now : Z) : Database :=
  mkDatabase
    (article_fields db ++ idRows feedId articles now ++
     comparisonFieldRows feedId articles fields now)
    (custom_comparisons db ++ comparisonNamesToStore db feedId fields).

(** The field [key] of the article has a value whose hash is stored for
    the feed. *)
Definition fieldValueSeen (db : Database) (feedId : string) (article : Article)
    (key : string) : Prop :=
  exists value,
    getNestedPrimitiveValue (flattened article) key = Some value
    /\ value <> ""%string
    /\ FieldStore.has_row db feedId key (sha1_hex value) = true.

End Committed.

(** ** The steps of a pass that is not the seed pass

    The values that [getArticlesToDeliverFromXml] computes once it has found
    prior articles for the feed, under the names of its local variables, and
    its three calls of [storeArticles]. *)

Module Pass.
Section Pass.

Context {env : Collaborators}.
Variables (db : Database) (options : DeliveryOptions) (articles : list Article).

Definition newArticles : list Article :=
  filterForNewArticles db (opt_id options) articles.

Definition seenArticles : list Article :=
  List.filter
    (fun article =>
       negb (existsb (fun a => (idHash (flattened a) =? idHash (flattened article))%string)
                     newArticles))
    articles.

Definition comparisonStorageResults : list ComparisonStatus :=
  areComparisonsStored db (opt_id options)
    (blockingComparisons options ++ passingComparisons options).

Definition storedComparisons : list string :=
  map field (List.filter isStored comparisonStorageResults).

Definition unstoredComparisons : list string :=
  map field (List.filter (fun r => negb (isStored r)) comparisonStorageResults).

Definition articlesPastBlocks : list Article :=
  checkBlockingComparisons db (opt_id options) (blockingComparisons options)
    newArticles storedComparisons.

Definition articlesPassedComparisons : list Article :=
  checkPassingComparisons db (opt_id options) (passingComparisons options)
    seenArticles storedComparisons.

Definition storeNewArticles (now : Z) : Async unit :=
  when (0 <? length newArticles)%nat
    (storeArticles (opt_id options) newArticles
       (Some (mkStoreOptions (Some storedComparisons) None)) now).

Definition storePassedArticles (now : Z) : Async unit :=
  when (negb (length articlesPassedComparisons =? 0)%nat)
    (storeArticles (opt_id options) articlesPassedComparisons
       (Some (mkStoreOptions (Some storedComparisons) (Some true))) now).

Definition storeUnstoredComparisons (now : Z) : Async unit :=
  when (0 <? length unstoredComparisons)%nat
    (storeArticles (opt_id options) articles
       (Some (mkStoreOptions (Some unstoredComparisons) (Some true))) now).

(** The database after the three calls. *)
Definition persisted (now : Z) : Database :=
  snd (storeUnstoredComparisons now
         (snd (storePassedArticles now
                 (snd (storeNewArticles now db))))).

Definition result (now : Z) : DeliveryResult :=
  mkDeliveryResult
    (filterArticlesBasedOnDateChecks
       (rev (articlesPastBlocks ++ articlesPassedComparisons)) (dateChecks options) now)
    articles.

End Pass.
End Pass.

(** ** The date filter as the design document words it

    Identity when the threshold is absent; otherwise an article is kept iff
    the first of its placeholders that is a valid date is at most the
    threshold before now. *)
Definition dateFilterAsDocumented {env : Collaborators} (articles : list Article)
    (dateChecks : option UserFeedDateCheckOptions) (now : Z) : list Article :=
  match dateChecks with
  | None => articles
  | Some checks =>
      match oldArticleDateDiffMsThreshold checks with
      | None => articles
      | Some threshold =>
          List.filter (passesDateCheck (datePlaceholderReferences checks) threshold now)
                      articles
      end
  end.

(** [first_some f xs y]: [y] is what [f] gives for the first element of [xs]
    on which it gives something. *)
Inductive first_some {A B} (f : A -> option B) : list A -> B -> Prop :=
| first_some_here x xs y : f x = Some y -> first_some f (x :: xs) y
| first_some_later x xs y : f x = None -> first_some f xs y -> first_some f (x :: xs) y.

(** The date that the placeholder gives for the article, when it gives a
    valid one. *)
Definition placeholderDate {env : Collaborators} (a : Article) (placeholder : string)
  : option Z :=
  dayjs (or_else (raw_get (raw a) placeholder) "invalid date").

(** [dateChecks?.oldArticleDateDiffMsThreshold] *)
Definition thresholdOf (dateChecks : option UserFeedDateCheckOptions) : option Z :=
  dateChecks ≫= oldArticleDateDiffMsThreshold.

(** [dateChecks?.datePlaceholderReferences], with its default. *)
Definition placeholdersOf (dateChecks : option UserFeedDateCheckOptions) : list string :=
  default ["date"; "pubdate"]%string (dateChecks ≫= datePlaceholderReferences).

(** Every candidate that the resolver still holds is present and non-empty
    on every item it has recorded. *)
Definition resolver_sound (rawArticles : list Item) (idResolver : ArticleIDResolver.t)
  : Prop :=
  forall idType item,
    In idType idResolver -> In item rawArticles ->
    ArticleIDResolver.usable item idType = true.

(** ** The injection pass and the identity of an article *)

(** The closures that the flattener returns leave the id and the id hash
    of the flattened article they are given as they are. *)
Definition injectionKeepsIdentity {env : Collaborators} : Prop :=
  forall item fl,
    id (injectArticleContent (flatten item) fl) = id fl
    /\ idHash (injectArticleContent (flatten item) fl) = idHash fl.

(** The injection pass runs on the articles of these items. *)
Definition injectionRuns {env : Collaborators} (rawArticles : list Item) : bool :=
  (length rawArticles <=? MAX_ARTICLE_INJECTION_ARTICLE_COUNT)%nat
  && existsb (fun item => hasArticleContentInjection (flatten item)) rawArticles.

(** ** Scenarios

    Test doubles for the collaborators, and the small feeds the examples
    below run the service on. *)

Module Scenario.

(** The parser double reads every XML as the given events; the hash double
    keeps its input readable; the flattener double copies the item's
    properties and offers a content injection that adds one property. *)
Definition doubles (events : list ParserEvent) : Collaborators :=
  {| sha1_hex := fun s => ("sha1:" ++ s)%string;
     feedparser := fun _ => events;
     flatten := fun item =>
       mkFlattenResult (item_props item)
         (fun fl => mkFlattened (id fl) (idHash fl)
                      (<["external::body" := "fetched"%string]> (props fl)))
         true;
     dayjs := fun s =>
       if (s =? "2024-01-01T00:00:00.000Z")%string then Some 1704067200000 else None;
     toISOString := fun _ => "2024-01-01T00:00:00.000Z"%string;
     MAX_ARTICLE_INJECTION_ARTICLE_COUNT := 50 |}.

Definition item (guid title description : string) : Item :=
  mkItem (<["guid" := guid]> (<["title" := title]> (<["description" := description]> ∅)))
         None None.

(** An item that has no description. *)
Definition bareItem (guid title : string) : Item :=
  mkItem (<["guid" := guid]> (<["title" := title]> ∅)) None None.

Definition feed (items : list Item) : list ParserEvent := [OnReadable items; OnEnd].

(** The article that [getArticlesFromXml] builds from [item guid title description]. *)
Definition article (guid title description : string) : Article :=
  mkArticle
    (mkFlattened guid ("sha1:" ++ guid)%string
       (<["external::body" := "fetched"%string]> (item_props (item guid title description))))
    (mkRaw None None).

(** The article that [getArticlesFromXml] builds from [bareItem guid title]. *)
Definition bareArticle (guid title : string) : Article :=
  mkArticle
    (mkFlattened guid ("sha1:" ++ guid)%string
       (<["external::body" := "fetched"%string]> (item_props (bareItem guid title))))
    (mkRaw None None).

Definition emptyDb : Database := mkDatabase [] [].

Definition idRow (guid : string) (createdAt : Z) : PartitionedFeedArticleFieldInsert :=
  mkFieldInsert "feed" "id" ("sha1:" ++ guid)%string createdAt.

Definition fieldRow (name value : string) (createdAt : Z)
  : PartitionedFeedArticleFieldInsert :=
  mkFieldInsert "feed" name ("sha1:" ++ value)%string createdAt.

(** The feed has delivered article a before; its description is an
    activated passing comparison. *)
Definition dbSeenA : Database :=
  mkDatabase [idRow "a" 1; fieldRow "description" "old text" 1]
             [mkComparison "feed" "description"].

Definition passingDescription : DeliveryOptions :=
  mkDeliveryOptions "feed" [] ["description"%string] None.

(** The next poll: a has a new description and c is new. *)
Definition feedAC : list ParserEvent :=
  feed [item "a" "A" "new text"; item "c" "C" "text of c"].

(** The feed has delivered an article titled Hello before; its title is an
    activated blocking comparison. *)
Definition dbTitleHello : Database :=
  mkDatabase [idRow "z" 1; fieldRow "title" "Hello" 1]
             [mkComparison "feed" "title"].

Definition blockingTitle : DeliveryOptions :=
  mkDeliveryOptions "feed" ["title"%string] [] None.

Definition blockingTitlePassingDescription : DeliveryOptions :=
  mkDeliveryOptions "feed" ["title"%string] ["description"%string] None.

(** A new article that repeats the description the store has for a. *)
Definition feedRepost : list ParserEvent :=
  feed [item "n" "N" "old text"].

(** Two new articles, the first of which repeats that description. *)
Definition feedRepostAndFresh : list ParserEvent :=
  feed [item "n1" "N1" "old text"; item "n2" "N2" "fresh text"].

(** An article dated 2024-01-01T00:00:00.000Z, which the [dayjs] double
    reads as 1704067200000 ms. *)
Definition dated (guid : string) : Article :=
  mkArticle (mkFlattened guid ("sha1:" ++ guid)%string ∅)
            (mkRaw (Some "2024-01-01T00:00:00.000Z"%string) None).

Definition undated (guid : string) : Article :=
  mkArticle (mkFlattened guid ("sha1:" ++ guid)%string ∅) (mkRaw None None).

Definition names (articles : list Article) : list string :=
  map (fun a => id (flattened a)) articles.

End Scenario.

(** ** Doubles that strain the identity of an article, and a mixed feed *)

Module IdentityScenario.

(** A flattener whose injection closure empties the id of the article it is
    given; the injection pass runs on at most [limit] articles. *)
Definition rewritingIds (limit : nat) (events : list ParserEvent) : Collaborators :=
  {| sha1_hex := fun s => ("sha1:" ++ s)%string;
     feedparser := fun _ => events;
     flatten := fun item =>
       mkFlattenResult (item_props item)
         (fun fl => mkFlattened "" (idHash fl) (props fl))
         true;
     dayjs := fun _ => None;
     toISOString := fun _ => "2024-01-01T00:00:00.000Z"%string;
     MAX_ARTICLE_INJECTION_ARTICLE_COUNT := limit |}.

(** The article that the parse builds from [Scenario.item guid title
    description] when the closure has run: its id is gone, its id hash is
    that of the guid. *)
Definition rewritten (guid title description : string) : Article :=
  mkArticle
    (mkFlattened "" ("sha1:" ++ guid)%string
       (item_props (Scenario.item guid title description)))
    (mkRaw None None).

(** The same article when the closure has not run. *)
Definition untouched (guid title description : string) : Article :=
  mkArticle
    (mkFlattened guid ("sha1:" ++ guid)%string
       (item_props (Scenario.item guid title description)))
    (mkRaw None None).

(** A hash whose digest is the empty string. *)
Definition emptyDigest (events : list ParserEvent) : Collaborators :=
  {| sha1_hex := fun _ => ""%string;
     feedparser := fun _ => events;
     flatten := flatten (Collaborators := Scenario.doubles events);
     dayjs := fun _ => None;
     toISOString := fun _ => "2024-01-01T00:00:00.000Z"%string;
     MAX_ARTICLE_INJECTION_ARTICLE_COUNT := 50 |}.

End IdentityScenario.

Module MixedFeed.

(** The feed has delivered a and b before; its description is an activated
    passing comparison. *)
Definition db : Database :=
  mkDatabase
    [Scenario.idRow "a" 1; Scenario.idRow "b" 1;
     Scenario.fieldRow "description" "old a" 1;
     Scenario.fieldRow "description" "old b" 1]
    [mkComparison "feed" "description"].

(** The next poll: a and b have new descriptions, n1 and n2 are new; the
    parser emits seen and new articles in turn. *)
Definition events : list ParserEvent :=
  Scenario.feed
    [Scenario.item "a" "A" "new a"; Scenario.item "n1" "N1" "text 1";
     Scenario.item "b" "B" "new b"; Scenario.item "n2" "N2" "text 2"].

Definition a : Article := Scenario.article "a" "A" "new a".
Definition n1 : Article := Scenario.article "n1" "N1" "text 1".
Definition b : Article := Scenario.article "b" "B" "new b".
Definition n2 : Article := Scenario.article "n2" "N2" "text 2".

End MixedFeed.

(** ** What the stores hold *)

(** The comparison registry has a row for the field of the feed. *)
Definition comparisonRegistered (db : Database) (feed key : string) : Prop :=
  exists c, In c (custom_comparisons db) /\ feed_id c = feed /\ field_name c = key.

(** The article has a non-empty value for the key. *)
Definition hasFieldValue (article : Article) (key : string) : Prop :=
  exists value,
    getNestedPrimitiveValue (flattened article) key = Some value /\ value <> ""%string.

(** The rows of the two tables that belong to other feeds. *)
Definition rowsOfOtherFeeds (db : Database) (feed : string)
  : list PartitionedFeedArticleFieldInsert * list FeedArticleCustomComparison :=
  (List.filter (fun r => negb (feedId r =? feed)%string) (article_fields db),
   List.filter (fun c => negb (feed_id c =? feed)%string) (custom_comparisons db)).

(** The rows of the two tables that belong to the feed. *)
Definition rowsOfFeed (db : Database) (feed : string)
  : list PartitionedFeedArticleFieldInsert * list FeedArticleCustomComparison :=
  (List.filter (fun r => (feedId r =? feed)%string) (article_fields db),
   List.filter (fun c => (feed_id c =? feed)%string) (custom_comparisons db)).

(** ** Forgetting a feed *)

(** Modelled from the spec: [deleteAllForFeed] of the partitioned field
    store is missing. It deletes every row of the feed. *)
Definition deleteAllForFeed (feed : string) : Async unit :=
  fun db =>
    (Ok tt,
     mkDatabase
       (List.filter (fun r => negb (feedId r =? feed)%string) (article_fields db))
       (custom_comparisons db)).

(** [articleCustomComparisonRepo.nativeDelete({ feed_id })] *)
Definition nativeDelete (feed : string) : Async unit :=
  fun db =>
    (Ok tt,
     mkDatabase
       (article_fields db)
       (List.filter (fun c => negb (feed_id c =? feed)%string) (custom_comparisons db))).

Definition deleteInfoForFeed (feedId : string) : Async unit :=
  (run! deleteAllForFeed feedId in
   nativeDelete feedId)%async.

(** ** Fetching the articles of a URL

    The cache of parsed articles, the key of an entry, and the functions
    that go through the cache to the fetcher and the parser. *)

(** An external feed property: an object of string properties that the
    service hands to the flattener and to [JSON.stringify] without looking
    into it. *)
Definition ExternalFeedPropertyDto : Type := gmap string string.

(** The format options that the service reads. An absent property is
    [undefined]. *)
Record UserFeedFormatOptions : Type := mkFormatOptions {
  dateFormat : option string;
  dateLocale : option string;
  dateTimezone : option string;
  disableImageLinkPreviews : option bool
}.

Module FeedRequestLookupDetails.

(** The two properties of the lookup details that the service reads. *)
Record t : Type := mk {
  key : string;
  url : string
}.

End FeedRequestLookupDetails.

(** [FetchFeedArticleOptions & { findRssFromHtml?, executeFetch? }] *)
Record FetchFeedArticleOptions : Type := mkFetchOptions {
  formatOptions : UserFeedFormatOptions;
  externalFeedProperties : option (list ExternalFeedPropertyDto);
  findRssFromHtml : option bool;
  executeFetch : option bool;
  requestLookupDetails : option FeedRequestLookupDetails.t
}.

Module XmlParsedArticlesOutput.

Record t : Type := mk {
  articles : list Article
}.

End XmlParsedArticlesOutput.

(** What [calculateCacheKeyForArticles] serialises next to the URL; a
    property that is [undefined] or deleted is [None], [JSON.stringify]
    leaves out both. *)
Record NormalizedOptions : Type := mkNormalizedOptions {
  norm_formatOptions : option UserFeedFormatOptions;
  norm_externalFeedProperties : option (list ExternalFeedPropertyDto);
  norm_requestLookupDetails : option string
}.

(** An entry of the key-value store: its body and its time to live in
    seconds, if it has one. *)
Record CacheEntry : Type := mkCacheEntry {
  entry_body : string;
  entry_ttl : option Z
}.

(** The arguments of one call of [feedFetcherService.fetch]. *)
Record FetchRequest : Type := mkFetchRequest {
  fetch_url : string;
  executeFetchIfNotInCache : bool;
  fetch_executeFetch : option bool;
  lookupDetails : option FeedRequestLookupDetails.t
}.

Record FetchResponse : Type := mkFetchResponse {
  response_body : option string
}.

(** What the functions of this part act on: the key-value store, and the
    requests made to the fetcher so far. *)
Record World : Type := mkWorld {
  cache : gmap string CacheEntry;
  requests : list FetchRequest
}.

(** The result of [fetchFeedArticles]; no path sets
    [attemptedToResolveFromHtml]. *)
Record FetchedArticles : Type := mkFetchedArticles {
  output : option XmlParsedArticlesOutput.t;
  fetched_url : string
}.

(** [new URL(s)]: its [origin] and [pathname]. *)
Record URL : Type := mkURL {
  origin : string;
  pathname : string
}.

Class FetchCollaborators : Type := {
  (** [JSON.stringify({ url, options })] of [calculateCacheKeyForArticles] *)
  stringifyKey : string -> NormalizedOptions -> string;
  (** [JSON.stringify(data)] of the cached value *)
  stringifyOutput : XmlParsedArticlesOutput.t -> string;
  (** [JSON.parse(jsonText) as XmlParsedArticlesOutput] *)
  parseOutput : string -> Result XmlParsedArticlesOutput.t;
  (** [(await deflatePromise(s)).toString("base64")] *)
  deflateBase64 : string -> string;
  (** [(await inflatePromise(Buffer.from(s, "base64"))).toString()] *)
  inflateBase64 : string -> Result string;
  (** [feedFetcherService.fetch(url, options)], after the requests made before *)
  fetch : list FetchRequest -> FetchRequest -> Result FetchResponse;
  (** [articleParserService.flatten] at [getParserRules({ url })], the format
      options and the external feed properties of a call *)
  flattenAt : string -> UserFeedFormatOptions -> option (list ExternalFeedPropertyDto) ->
              Item -> FlattenResult;
  (** [valid(html)] of node-html-parser *)
  valid : string -> bool;
  (** [parse(html).querySelector('link[type="application/rss+xml"]')], and
      the element's [getAttribute("href")] *)
  rssLinkHref : string -> option (option string);
  (** [new URL(s)]; [None] when the constructor throws *)
  newURL : string -> option URL
}.

(** The functions of this part return a result or throw, and act on the
    world; the recursion of [fetchFeedArticles] is bounded by fuel, [None]
    is a run that has none left. *)
Definition Fetching (A : Type) : Type := World -> option (Result A * World).

Definition fetching_ret {A} (a : A) : Fetching A := fun w => Some (Ok a, w).

Definition fetching_throw {A} (e : Exception) : Fetching A := fun w => Some (Throw e, w).

Definition fetching_bind {A B} (m : Fetching A) (k : A -> Fetching B) : Fetching B :=
  fun w =>
    match m w with
    | Some (Ok a, w') => k a w'
    | Some (Throw e, w') => Some (Throw e, w')
    | None => None
    end.

(** [try { m } catch (err) { handler }] *)
Definition try_catch {A} (m : Fetching A) (handler : Exception -> Fetching A) : Fetching A :=
  fun w =>
    match m w with
    | Some (Throw e, w') => handler e w'
    | r => r
    end.

Definition fetching_lift {A} (r : Result A) : Fetching A := fun w => Some (r, w).

Declare Scope fetching_scope.
Delimit Scope fetching_scope with fetching.

Notation "'let!' x ':=' m 'in' k" := (fetching_bind m (fun x => k))
  (at level 10, x name, m at level 100, k at level 200) : fetching_scope.
Notation "'run!' m 'in' k" := (fetching_bind m (fun _ => k))
  (at level 10, m at level 100, k at level 200) : fetching_scope.

Module CacheStorageService.

(** Modelled from the spec: the class [CacheStorageService] is missing. It
    is a key-value store whose entries have a time to live: [set] writes the
    body with [expSeconds], or keeps the time to live that the key has when
    [useOldTTL] is set; [setExpire] sets the time to live of a key that
    exists; [del] removes the key. *)
Definition exists_ (key : string) : Fetching bool :=
  fun w => Some (Ok (bool_decide (is_Some (cache w !! key))), w).

Definition get (key : string) : Fetching (option string) :=
  fun w => Some (Ok (entry_body <$> cache w !! key), w).

Definition set (key body : string) (expSeconds : Z) (useOldTTL : option bool)
  : Fetching unit :=
  fun w =>
    let ttl :=
      if default false useOldTTL then cache w !! key ≫= entry_ttl
      else Some expSeconds in
    Some (Ok tt, mkWorld (<[key := mkCacheEntry body ttl]> (cache w)) (requests w)).

Definition del (key : string) : Fetching unit :=
  fun w => Some (Ok tt, mkWorld (delete key (cache w)) (requests w)).

Definition setExpire (key : string) (seconds : Z) : Fetching unit :=
  fun w =>
    Some (Ok tt,
          mkWorld
            (alter (fun e => mkCacheEntry (entry_body e) (Some seconds)) key (cache w))
            (requests w)).

End CacheStorageService.

(** [s.endsWith(suffix)] *)
Definition endsWith (s suffix : string) : bool :=
  (String.length suffix <=? String.length s)%nat
  && (substring (String.length s - String.length suffix) (String.length suffix) s
      =? suffix)%string.

(** [s.slice(0, -1)] *)
Definition sliceOffLast (s : string) : string :=
  substring 0 (String.length s - 1) s.

(** [value || undefined] *)
Definition orUndefined (value : option string) : option string :=
  match value with
  | Some s => if truthy s then Some s else None
  | None => None
  end.

Definition orUndefinedBool (value : option bool) : option bool :=
  match value with
  | Some true => Some true
  | _ => None
  end.

Section FetchService.

Context {env : Collaborators} {fetcher : FetchCollaborators}.

Definition calculateCacheKeyForArticles (url : string) (options : FetchFeedArticleOptions)
  : string :=
  let normalizedFormatOptions :=
    mkFormatOptions
      (orUndefined (dateFormat (formatOptions options)))
      (orUndefined (dateLocale (formatOptions options)))
      (orUndefined (dateTimezone (formatOptions options)))
      (orUndefinedBool (disableImageLinkPreviews (formatOptions options))) in
  let normalizedOptions :=
    mkNormalizedOptions
      (* delete format options if every field is undefined *)
      (match normalizedFormatOptions with
       | mkFormatOptions None None None None => None
       | _ => Some normalizedFormatOptions
       end)
      (match externalFeedProperties options with
       | Some (property :: properties) => Some (property :: properties)
       | _ => None
       end)
      (FeedRequestLookupDetails.key <$> requestLookupDetails options) in
  ("articles:com:" ++ sha1_hex (stringifyKey url normalizedOptions))%string.

Definition doFeedArticlesExistInCache (url : string) (options : FetchFeedArticleOptions)
  : Fetching bool :=
  CacheStorageService.exists_ (calculateCacheKeyForArticles url options).

Definition getFeedArticlesFromCache (url : string) (options : FetchFeedArticleOptions)
  : Fetching (option XmlParsedArticlesOutput.t) :=
  (let! compressedValue :=
     CacheStorageService.get (calculateCacheKeyForArticles url options) in
   match compressedValue with
   | None => fetching_ret None
   | Some compressedValue =>
       if negb (truthy compressedValue) then fetching_ret None
       else
         let! jsonText := fetching_lift (inflateBase64 compressedValue) in
         let! parsed := fetching_lift (parseOutput jsonText) in
         fetching_ret (Some parsed)
   end)%fetching.

Definition invalidateFeedArticlesCache (url : string) (options : FetchFeedArticleOptions)
  : Fetching unit :=
  CacheStorageService.del (calculateCacheKeyForArticles url options).

Definition setFeedArticlesInCache (url : string) (options : FetchFeedArticleOptions)
    (data : XmlParsedArticlesOutput.t) (useOldTTL : option bool) : Fetching unit :=
  let jsonBody := stringifyOutput data in
  let compressed := deflateBase64 jsonBody in
  CacheStorageService.set (calculateCacheKeyForArticles url options) compressed
    (60 * 5) useOldTTL.

Definition refreshFeedArticlesCacheExpiration (url : string)
    (options : FetchFeedArticleOptions) : Fetching unit :=
  CacheStorageService.setExpire (calculateCacheKeyForArticles url options) (60 * 5).

Definition extractRssFromHtml (html : string) : option string :=
  if negb (valid html) then None
  else
    match rssLinkHref html with
    | None => None
    | Some href => orUndefined href
    end.

(** The collaborators of [getArticlesFromXml] when it is called with
    [{ formatOptions, useParserRules: getParserRules({ url }),
    externalFeedProperties }]. *)
Definition parserAt (url : string) (options : FetchFeedArticleOptions) : Collaborators :=
  {| sha1_hex := sha1_hex;
     feedparser := feedparser;
     flatten := flattenAt url (formatOptions options) (externalFeedProperties options);
     dayjs := dayjs;
     toISOString := toISOString;
     MAX_ARTICLE_INJECTION_ARTICLE_COUNT := MAX_ARTICLE_INJECTION_ARTICLE_COUNT |}.

(** [feedFetcherService.fetch]: the request joins those made so far. *)
Definition feedFetcherService_fetch (request : FetchRequest) : Fetching FetchResponse :=
  fun w => Some (fetch (requests w) request, mkWorld (cache w) (requests w ++ [request])).

(** The options that [fetchFeedArticles] gives to the cache functions and
    to its recursive call: [{ formatOptions, externalFeedProperties,
    requestLookupDetails }]. *)
Definition withoutFlags (options : FetchFeedArticleOptions) : FetchFeedArticleOptions :=
  mkFetchOptions (formatOptions options) (externalFeedProperties options) None None
    (requestLookupDetails options).

Fixpoint fetchFeedArticles (fuel : nat) (url : string) (options : FetchFeedArticleOptions)
  : Fetching FetchedArticles :=
  match fuel with
  | O => fun _ => None
  | S fuel =>
      (let! cachedArticles := getFeedArticlesFromCache url (withoutFlags options) in
       match cachedArticles with
       | Some cachedArticles =>
           run! refreshFeedArticlesCacheExpiration url (withoutFlags options) in
           fetching_ret (mkFetchedArticles (Some cachedArticles) url)
       | None =>
           let! response :=
             feedFetcherService_fetch
               (mkFetchRequest
                  (or_else (FeedRequestLookupDetails.url <$> requestLookupDetails options) url)
                  true (executeFetch options) (requestLookupDetails options)) in
           match response_body response with
           | None => fetching_ret (mkFetchedArticles None url)
           | Some body =>
               if negb (truthy body) then fetching_ret (mkFetchedArticles None url)
               else
                 try_catch
                   (let! fromXml :=
                      fetching_lift
                        (match getArticlesFromXml (env := parserAt url options) body with
                         | Ok articles => Ok (XmlParsedArticlesOutput.mk articles)
                         | Throw e => Throw e
                         end) in
                    run! setFeedArticlesInCache url (withoutFlags options) fromXml None in
                    fetching_ret (mkFetchedArticles (Some fromXml) url))
                   (fun err =>
                      match err with
                      | InvalidFeedException _ =>
                          if default false (findRssFromHtml options)
                          then
                            match extractRssFromHtml body with
                            | Some rssUrl =>
                                if String.prefix "/" rssUrl
                                then
                                  match newURL url with
                                  | Some newUrl =>
                                      fetchFeedArticles fuel (origin newUrl ++ rssUrl)
                                        (withoutFlags options)
                                  | None => fetching_throw (Error "Invalid URL")
                                  end
                                else fetchFeedArticles fuel rssUrl (withoutFlags options)
                            | None => fetching_throw err
                            end
                          else fetching_throw err
                      | _ => fetching_throw err
                      end)
           end
       end)%fetching
  end.

(** The loop of [findOrFetchFeedArticles] over the URLs it tries next. *)
Fixpoint tryNewUrls (fuel : nat) (newUrls : list string) (options : FetchFeedArticleOptions)
    (err : Exception) : Fetching FetchedArticles :=
  match newUrls with
  | [] => fetching_throw err
  | newUrl :: rest =>
      try_catch (fetchFeedArticles fuel newUrl options)
                (fun subError => tryNewUrls fuel rest options err)
  end.

Definition findOrFetchFeedArticles (fuel : nat) (originalUrl : string)
    (options : FetchFeedArticleOptions) : Fetching FetchedArticles :=
  try_catch (fetchFeedArticles fuel originalUrl options)
    (fun err =>
       match err with
       | InvalidFeedException _ =>
           match newURL originalUrl with
           | None => fetching_throw (Error "Invalid URL")
           | Some url =>
               let base :=
                 if endsWith (origin url ++ pathname url) "/"
                 then sliceOffLast (origin url ++ pathname url)
                 else (origin url ++ pathname url)%string in
               let newUrls := [(base ++ "/feed")%string; (base ++ "/rss")%string] in
               tryNewUrls fuel newUrls options err
           end
       | _ => fetching_throw err
       end).

(** What [fetchFeedArticle] throws: an exception of the service, or the
    fetcher's [FeedArticleNotFoundException]. *)
Inductive FetchArticleException : Type :=
| Thrown (e : Exception)
| FeedArticleNotFoundException (message : string).

Definition fetchFeedArticle (fuel : nat) (url articleId : string)
    (options : FetchFeedArticleOptions)
  : World -> option ((option Article + FetchArticleException) * World) :=
  fun w =>
    match fetchFeedArticles fuel url (withoutFlags options) w with
    | None => None
    | Some (Throw e, w') => Some (inr (Thrown e), w')
    | Some (Ok fetched, w') =>
        match output fetched with
        | None =>
            Some (inr (Thrown (Error ("Request for " ++ url ++ " is still pending"))), w')
        | Some result =>
            if (length (XmlParsedArticlesOutput.articles result) =? 0)%nat
            then Some (inl None, w')
            else
              match List.find (fun article => (id (flattened article) =? articleId)%string)
                              (XmlParsedArticlesOutput.articles result) with
              | Some article => Some (inl (Some article), w')
              | None =>
                  Some (inr (FeedArticleNotFoundException
                               ("Article with id " ++ articleId ++ " for url " ++ url
                                ++ " not found")), w')
              end
        end
    end.

End FetchService.

(** ** A small web for the examples of the fetching part *)

Module FetchScenario.

(** The parser double reads one body as a feed of one item, one as a feed
    without items, and every other body as not a feed. *)
Definition parser : Collaborators :=
  {| sha1_hex := fun s => ("sha1:" ++ s)%string;
     feedparser := fun xml =>
       if (xml =? "<rss>a</rss>")%string
       then Scenario.feed [Scenario.item "a" "A" "text of a"]
       else if (xml =? "<rss/>")%string then [OnEnd]
       else [OnError "Not a feed"];
     flatten := flatten (Collaborators := Scenario.doubles []);
     dayjs := dayjs (Collaborators := Scenario.doubles []);
     toISOString := toISOString (Collaborators := Scenario.doubles []);
     MAX_ARTICLE_INJECTION_ARTICLE_COUNT := 50 |}.

Definition articleA : Article := Scenario.article "a" "A" "text of a".

Definition outputA : XmlParsedArticlesOutput.t := XmlParsedArticlesOutput.mk [articleA].

(** The site: its front page is HTML that links to the feed, the feed has
    one article, one URL is still being fetched, and every other URL gives
    a page that is not a feed and links to none. *)
Definition bodyOf (url : string) : option string :=
  if (url =? "https://site.test/")%string then Some "<html>front</html>"%string
  else if (url =? "https://site.test/feed.xml")%string then Some "<rss>a</rss>"%string
  else if (url =? "https://site.test/blog/feed")%string then Some "<rss>a</rss>"%string
  else if (url =? "https://site.test/pending")%string then None
  else Some "<html>other</html>"%string.

(** The codec doubles keep the text readable; the JSON doubles know the
    output of the site's feed and the empty output. *)
Definition web : FetchCollaborators :=
  {| stringifyKey := fun url options =>
       (url ++ "|" ++ default "" (norm_requestLookupDetails options))%string;
     stringifyOutput := fun data =>
       if (length (XmlParsedArticlesOutput.articles data) =? 0)%nat
       then "{articles:[]}"%string else "{articles:[a]}"%string;
     parseOutput := fun text =>
       if (text =? "{articles:[a]}")%string then Ok outputA
       else if (text =? "{articles:[]}")%string then Ok (XmlParsedArticlesOutput.mk [])
       else Throw (Error "Unexpected token");
     deflateBase64 := fun s => ("z:" ++ s)%string;
     inflateBase64 := fun s =>
       if String.prefix "z:" s then Ok (substring 2 (String.length s - 2) s)
       else Throw (Error "incorrect header check");
     fetch := fun _ request => Ok (mkFetchResponse (bodyOf (fetch_url request)));
     flattenAt := fun _ _ _ => flatten (Collaborators := Scenario.doubles []);
     valid := fun html => String.prefix "<html>" html;
     rssLinkHref := fun html =>
       if (html =? "<html>front</html>")%string then Some (Some "/feed.xml"%string)
       else None;
     newURL := fun s =>
       if String.prefix "https://site.test/" s
       then Some (mkURL "https://site.test" (substring 17 (String.length s - 17) s))
       else None |}.

Definition plain : FetchFeedArticleOptions :=
  mkFetchOptions (mkFormatOptions None None None None) None None None None.

Definition followingLinks : FetchFeedArticleOptions :=
  mkFetchOptions (mkFormatOptions None None None None) None (Some true) None None.

Definition emptyWorld : World := mkWorld ∅ [].

Definition requestOf (url : string) : FetchRequest := mkFetchRequest url true None None.

(** The key of the site's feed under the plain options. *)
Definition feedKey : string := "articles:com:sha1:https://site.test/feed.xml|".

(** A world whose cache has the feed, with a minute to live. *)
Definition warmWorld : World :=
  mkWorld (<[feedKey := mkCacheEntry "z:{articles:[a]}" (Some 60%Z)]> ∅) [].

(** The world after the feed has been fetched from the empty world. *)
Definition fetchedWorld : World :=
  mkWorld (<[feedKey := mkCacheEntry "z:{articles:[a]}" (Some 300%Z)]> ∅)
          [requestOf "https://site.test/feed.xml"].

(** The database of [Scenario.dbSeenA] next to the rows of another feed. *)
Definition dbSeenAAmongOthers : Database :=
  mkDatabase
    [mkFieldInsert "other" "id" "sha1:a" 1; Scenario.idRow "a" 1;
     mkFieldInsert "other" "description" "sha1:new text" 1;
     Scenario.fieldRow "description" "old text" 1]
    [mkComparison "other" "title"; mkComparison "feed" "description"].

End FetchScenario.

(** ** Names for the steps of [fetchFeedArticles] *)

Section FetchSteps.

Context {env : Collaborators} {fetcher : FetchCollaborators}.

(** The request that [fetchFeedArticles] makes for a URL: to the URL of the
    lookup details when they have one, and to the URL itself otherwise. *)
Definition requestFor (url : string) (options : FetchFeedArticleOptions) : FetchRequest :=
  mkFetchRequest
    (or_else (FeedRequestLookupDetails.url <$> requestLookupDetails options) url)
    true (executeFetch options) (requestLookupDetails options).

(** The world once the request has been made. *)
Definition afterRequest (w : World) (request : FetchRequest) : World :=
  mkWorld (cache w) (requests w ++ [request]).

(** The world once the articles of the URL have been written to the cache. *)
Definition afterCaching (w : World) (url : string) (options : FetchFeedArticleOptions)
    (data : XmlParsedArticlesOutput.t) : World :=
  mkWorld
    (<[calculateCacheKeyForArticles url options :=
         mkCacheEntry (deflateBase64 (stringifyOutput data)) (Some 300%Z)]> (cache w))
    (requests w).

(** The URL that [fetchFeedArticles] goes to next when the page at [url]
    links to [rssUrl]; there is none when [rssUrl] is a path and [url] does
    not parse. *)
Definition linkedUrl (url rssUrl : string) : option string :=
  if String.prefix "/" rssUrl
  then (fun newUrl => (origin newUrl ++ rssUrl)%string) <$> newURL url
  else Some rssUrl.

(** The first of the two URLs that [findOrFetchFeedArticles] tries after
    the original one is built on this base. *)
Definition baseOf (url : URL) : string :=
  if endsWith (origin url ++ pathname url) "/"
  then sliceOffLast (origin url ++ pathname url)
  else (origin url ++ pathname url)%string.

Definition isInvalidFeed (e : Exception) : bool :=
  match e with
  | InvalidFeedException _ => true
  | _ => false
  end.

End FetchSteps.

(** * Properties *)

(** ** The stores *)

Lemma field_insert_rows_ok rows table table' :
  FieldStore.insert_rows rows table = Ok table' -> table' = table ++ rows.
Proof.
  revert table. induction rows as [|r rest IH]; intros table Hins; simpl in Hins.
  - inversion Hins. now rewrite app_nil_r.
  - destruct (existsb (FieldStore.same_key r) table); [discriminate|].
    apply IH in Hins. now rewrite Hins, <- app_assoc.
Qed.

Lemma field_insert_rows_throw rows table e :
  FieldStore.insert_rows rows table = Throw e ->
  e = UniqueConstraintViolationException "23505".
Proof.
  revert table. induction rows as [|r rest IH]; intros table Hins; simpl in Hins.
  - discriminate.
  - destruct (existsb (FieldStore.same_key r) table); [now inversion Hins|eauto].
Qed.

Lemma comparison_insert_rows_ok rows table table' :
  ComparisonRepo.insert_rows rows table = Ok table' -> table' = table ++ rows.
Proof.
  revert table. induction rows as [|r rest IH]; intros table Hins; simpl in Hins.
  - inversion Hins. now rewrite app_nil_r.
  - destruct (existsb (ComparisonRepo.same_key r) table); [discriminate|].
    apply IH in Hins. now rewrite Hins, <- app_assoc.
Qed.

Lemma comparison_insert_rows_throw rows table e :
  ComparisonRepo.insert_rows rows table = Throw e ->
  e = UniqueConstraintViolationException "23505".
Proof.
  revert table. induction rows as [|r rest IH]; intros table Hins; simpl in Hins.
  - discriminate.
  - destruct (existsb (ComparisonRepo.same_key r) table); [now inversion Hins|eauto].
Qed.

Lemma field_insert_rows_app rows1 rows2 table :
  FieldStore.insert_rows (rows1 ++ rows2) table =
  match FieldStore.insert_rows rows1 table with
  | Ok table' => FieldStore.insert_rows rows2 table'
  | Throw e => Throw e
  end.
Proof.
  revert table. induction rows1 as [|r rest IH]; intros table; simpl; [reflexivity|].
  destruct (existsb (FieldStore.same_key r) table); [reflexivity|apply IH].
Qed.

(** A transaction leaves the database as it was when its callback or its
    flush throws. *)
Lemma transactional_rollback cb db e db' :
  transactional cb db = (Throw e, db') -> db' = db.
Proof.
  unfold transactional. intros Htx.
  destruct (cb _) as [[u em]|e']; [destruct (em_flush em)|]; now inversion Htx.
Qed.

(** ** [storeArticles] *)

Section StoreArticles.

Context {env : Collaborators}.

Lemma comparisonFieldRows_nil feedId articles now :
  comparisonFieldRows feedId articles [] now = [].
Proof.
  unfold comparisonFieldRows. induction articles as [|a rest IH]; simpl; auto.
Qed.

Lemma comparisonNamesToStore_registry fields1 fields2 registry feedId comparisonFields :
  comparisonNamesToStore (mkDatabase fields1 registry) feedId comparisonFields =
  comparisonNamesToStore (mkDatabase fields2 registry) feedId comparisonFields.
Proof. reflexivity. Qed.

(** What one call of [storeArticles] does to the database: the id rows of
    all the articles and the comparison rows go to the field store, the
    comparison names that are not registered yet go to the registry, and
    all of it is committed unless one insert collides, in which case nothing
    is; the call itself never throws. *)
Lemma storeArticles_outcome feedId articles options now db :
  storeArticles feedId articles options now db =
  match FieldStore.insert_rows
          (idRows feedId articles now ++
           comparisonFieldRows feedId articles (optionComparisonFields options) now)
          (article_fields db),
        ComparisonRepo.insert_rows
          (comparisonNamesToStore db feedId (optionComparisonFields options))
          (custom_comparisons db) with
  | Ok table, Ok registry => (Ok tt, mkDatabase table registry)
  | _, _ => (Ok tt, db)
  end.
Proof.
  unfold storeArticles, storeArticlesTransaction, transactional, tx_bind,
    FieldStore.persist at 1.
  rewrite field_insert_rows_app. simpl.
  destruct (FieldStore.insert_rows (idRows feedId articles now) (article_fields db))
    as [table|e] eqn:Hids.
  2:{ rewrite (field_insert_rows_throw _ _ _ Hids). reflexivity. }
  unfold storeArticleComparisons.
  destruct (optionComparisonFields options) as [|f fs] eqn:Hcf.
  - simpl. rewrite comparisonFieldRows_nil. simpl.
    unfold em_flush. simpl. destruct db; reflexivity.
  - cbn [length Nat.eqb]. unfold tx_bind, em_persist, FieldStore.persist. simpl em_db.
    cbn [article_fields custom_comparisons em_unitOfWork app].
    rewrite (comparisonNamesToStore_registry table (article_fields db)).
    replace (mkDatabase (article_fields db) (custom_comparisons db)) with db
      by now destruct db.
    destruct (FieldStore.insert_rows
                (comparisonFieldRows feedId articles (f :: fs) now) table)
      as [table'|e] eqn:Hcmp.
    + unfold em_flush. cbn [em_db em_unitOfWork article_fields custom_comparisons].
      destruct (ComparisonRepo.insert_rows _ _) as [registry|e] eqn:Hreg;
        [reflexivity|].
      now rewrite (comparison_insert_rows_throw _ _ _ Hreg).
    + rewrite (field_insert_rows_throw _ _ _ Hcmp). reflexivity.
Qed.

End StoreArticles.

(** ** Lists and JavaScript maps *)

Lemma omap_cons_eq {A B} (f : A -> option B) (a : A) (l : list A) :
  omap f (a :: l) = match f a with Some b => b :: omap f l | None => omap f l end.
Proof. reflexivity. Qed.

Lemma omap_if_filter {A} (f : A -> bool) (l : list A) :
  omap (fun a => if f a then None else Some a) l = List.filter (fun a => negb (f a)) l.
Proof.
  induction l as [|a rest IH]; [reflexivity|].
  rewrite omap_cons_eq, IH. simpl. now destruct (f a).
Qed.

Lemma omap_ext_in {A B} (f g : A -> option B) (l : list A) :
  (forall x, In x l -> f x = g x) -> omap f l = omap g l.
Proof.
  induction l as [|a rest IH]; intros Hext; [reflexivity|].
  rewrite !omap_cons_eq, (Hext a (or_introl eq_refl)), IH; [reflexivity|].
  intros x Hx. apply Hext. now right.
Qed.

Lemma sublist_List_filter {A} (f : A -> bool) (l : list A) :
  sublist (List.filter f l) l.
Proof.
  induction l as [|a rest IH]; simpl; [constructor|].
  destruct (f a); now constructor.
Qed.

Lemma sublist_rev {A} (l1 l2 : list A) : sublist l1 l2 -> sublist (rev l1) (rev l2).
Proof.
  induction 1 as [|x l1 l2 _ IH|x l1 l2 _ IH]; simpl.
  - constructor.
  - now apply sublist_app.
  - now apply sublist_inserts_r.
Qed.

Lemma existsb_eqb_In (xs : list string) (x : string) :
  existsb (String.eqb x) xs = true <-> In x xs.
Proof.
  rewrite existsb_exists. split.
  - intros [y [Hin Heq]]. apply String.eqb_eq in Heq. now subst.
  - intros Hin. exists x. split; [assumption|apply String.eqb_refl].
Qed.

Module JsMapFacts.

Lemma set_fresh {V} (m : list (string * V)) k v :
  ~ In k (map fst m) -> JsMap.set m k v = m ++ [(k, v)].
Proof.
  induction m as [|[k' v'] rest IH]; simpl; intros Hfresh; [reflexivity|].
  destruct (String.eqb_spec k' k) as [->|Hne]; [tauto|].
  rewrite IH; [reflexivity|tauto].
Qed.

Lemma fold_set_distinct {V} (entries acc : list (string * V)) :
  List.NoDup (map fst (acc ++ entries)) ->
  fold_left (fun m kv => JsMap.set m (fst kv) (snd kv)) entries acc = acc ++ entries.
Proof.
  revert acc. induction entries as [|[k v] rest IH]; intros acc Hnd; simpl.
  - now rewrite app_nil_r.
  - rewrite set_fresh.
    + rewrite IH; rewrite <- app_assoc; [reflexivity|exact Hnd].
    + rewrite map_app in Hnd. simpl in Hnd.
      apply List.NoDup_remove_2 in Hnd. intros Hin. apply Hnd.
      apply in_or_app. now left.
Qed.

(** Entries with distinct keys make the map they list. *)
Lemma of_entries_distinct {V} (entries : list (string * V)) :
  List.NoDup (map fst entries) -> JsMap.of_entries entries = entries.
Proof. intros Hnd. unfold JsMap.of_entries. now rewrite fold_set_distinct. Qed.

Lemma get_keys_distinct {V} (m : list (string * V)) (p : string -> bool) :
  List.NoDup (map fst m) ->
  omap (JsMap.get m) (List.filter p (JsMap.keys m))
  = map snd (List.filter (fun kv => p (fst kv)) m).
Proof.
  unfold JsMap.keys.
  induction m as [|[k v] rest IH]; intros Hnd; [reflexivity|].
  cbn [map fst] in Hnd.
  inversion Hnd as [|? ? Hfresh Hrest]; subst.
  assert (Htail : omap (JsMap.get ((k, v) :: rest)) (List.filter p (map fst rest))
                  = omap (JsMap.get rest) (List.filter p (map fst rest))).
  { apply omap_ext_in. intros x Hx. apply filter_In in Hx as [Hx _]. simpl.
    destruct (String.eqb_spec k x) as [->|Hne]; [contradiction|reflexivity]. }
  cbn [map fst snd List.filter].
  destruct (p k).
  - rewrite omap_cons_eq, Htail, IH by assumption.
    cbn [JsMap.get map snd]. now rewrite String.eqb_refl.
  - now rewrite Htail, IH.
Qed.

Lemma keys_set {V} (m : list (string * V)) k v k' :
  In k' (JsMap.keys (JsMap.set m k v)) <-> k' = k \/ In k' (JsMap.keys m).
Proof.
  unfold JsMap.keys. induction m as [|[k0 v0] rest IH]; simpl.
  - intuition congruence.
  - destruct (String.eqb_spec k0 k) as [->|Hne]; simpl; [intuition congruence|].
    rewrite IH. intuition congruence.
Qed.

Lemma get_set {V} (m : list (string * V)) k v k' v' :
  JsMap.get (JsMap.set m k v) k' = Some v' ->
  (k' = k /\ v' = v) \/ JsMap.get m k' = Some v'.
Proof.
  induction m as [|[k0 v0] rest IH]; simpl.
  - destruct (String.eqb_spec k k'); [|discriminate]. intros Heq. left.
    split; congruence.
  - destruct (String.eqb_spec k0 k) as [->|Hne]; simpl.
    + destruct (String.eqb_spec k k'); [|tauto]. intros Heq. left. split; congruence.
    + destruct (String.eqb_spec k0 k'); [tauto|]. exact IH.
Qed.

Lemma keys_fold {V} (entries acc : list (string * V)) k :
  In k (JsMap.keys (fold_left (fun m kv => JsMap.set m (fst kv) (snd kv)) entries acc))
  <-> In k (JsMap.keys acc) \/ In k (map fst entries).
Proof.
  revert acc. induction entries as [|[k0 v0] rest IH]; intros acc; simpl.
  - tauto.
  - rewrite IH, keys_set. intuition congruence.
Qed.

Lemma get_fold {V} (entries acc : list (string * V)) k v :
  JsMap.get (fold_left (fun m kv => JsMap.set m (fst kv) (snd kv)) entries acc) k = Some v ->
  JsMap.get acc k = Some v \/ In (k, v) entries.
Proof.
  revert acc. induction entries as [|[k0 v0] rest IH]; intros acc; simpl.
  - tauto.
  - intros Hget. apply IH in Hget as [Hget|Hin]; [|tauto].
    apply get_set in Hget as [[-> ->]|Hget]; tauto.
Qed.

(** The keys of a map are the keys of its entries. *)
Lemma keys_of_entries {V} (entries : list (string * V)) k :
  In k (JsMap.keys (JsMap.of_entries entries)) <-> In k (map fst entries).
Proof. unfold JsMap.of_entries. rewrite keys_fold. simpl. tauto. Qed.

(** What a map gives for a key is one of the entries of that key. *)
Lemma get_of_entries {V} (entries : list (string * V)) k v :
  JsMap.get (JsMap.of_entries entries) k = Some v -> In (k, v) entries.
Proof.
  unfold JsMap.of_entries. intros Hget. apply get_fold in Hget as [Hget|Hin];
    [discriminate|assumption].
Qed.

Lemma get_key {V} (m : list (string * V)) k :
  In k (JsMap.keys m) -> exists v, JsMap.get m k = Some v.
Proof.
  unfold JsMap.keys. induction m as [|[k0 v0] rest IH]; simpl; [tauto|].
  destruct (String.eqb_spec k0 k); [eauto|]. intros [Heq|Hin]; [congruence|auto].
Qed.

End JsMapFacts.

Lemma In_omap {A B} (f : A -> option B) (l : list A) x y :
  In x l -> f x = Some y -> In y (omap f l).
Proof.
  induction l as [|a rest IH]; [tauto|].
  rewrite omap_cons_eq. intros [->|Hin] Hfx.
  - rewrite Hfx. now left.
  - destruct (f a); [right|]; auto.
Qed.

Lemma filter_none {A} (f : A -> bool) (l : list A) :
  (forall a, In a l -> f a = false) -> List.filter f l = [].
Proof.
  induction l as [|a rest IH]; intros Hnone; simpl; [reflexivity|].
  rewrite (Hnone a (or_introl eq_refl)). apply IH. intros x Hx. apply Hnone. now right.
Qed.

Lemma existsb_map {A B} (f : A -> B) (p : B -> bool) (l : list A) :
  existsb p (map f l) = existsb (fun x => p (f x)) l.
Proof. induction l as [|x rest IH]; simpl; [reflexivity|]. now rewrite IH. Qed.


Section StoreArticlesClaims.

Context {env : Collaborators}.

Lemma storeArticles_returns feedId articles options now db :
  fst (storeArticles feedId articles options now db) = Ok tt.
Proof.
  rewrite storeArticles_outcome.
  destruct (FieldStore.insert_rows _ _); [|reflexivity].
  destruct (ComparisonRepo.insert_rows _ _); reflexivity.
Qed.

(** One call of [storeArticles] is all or nothing: afterwards the database
    holds every row the call prepared, or it is untouched. *)
Lemma storeArticles_all_or_nothing feedId articles options now db :
  storeArticles feedId articles options now db =
  (Ok tt,
   if storeArticlesCommits db feedId articles (optionComparisonFields options) now
   then committed db feedId articles (optionComparisonFields options) now
   else db).
Proof.
  rewrite storeArticles_outcome. unfold storeArticlesCommits, committed.
  destruct (FieldStore.insert_rows _ _) as [table|e] eqn:Hrows; [|reflexivity].
  destruct (ComparisonRepo.insert_rows _ _) as [registry|e] eqn:Hnames; [|reflexivity].
  now rewrite (field_insert_rows_ok _ _ _ Hrows), (comparison_insert_rows_ok _ _ _ Hnames).
Qed.

(** C10. When the field store raises the unique-constraint violation 23505
    inside the transaction of [storeArticles] (on the id rows or on the
    comparison rows), the transaction is rolled back, the call returns
    normally, and the database is exactly what it was: no id row, comparison
    row or registry row of the call is kept, whether it collided or not. *)
Theorem storeArticles_unique_violation_rolls_back feedId articles options now db :
  storeArticlesTransaction feedId articles options now (mkEntityManager db [])
    = Throw (UniqueConstraintViolationException "23505") ->
  transactional (storeArticlesTransaction feedId articles options now) db
    = (Throw (UniqueConstraintViolationException "23505"), db)
  /\ storeArticles feedId articles options now db = (Ok tt, db).
Proof.
  intros Hthrow. unfold storeArticles, transactional. now rewrite Hthrow.
Qed.

End StoreArticlesClaims.

(** The call of C10 on a store that knows article a: the id row of a
    collides, and the rows of c, which collide with nothing, are lost too. *)
Lemma storeArticles_unique_violation_rolls_back_witness :
  let C : Collaborators := Scenario.doubles [] in
  let articles := [Scenario.article "a" "A" "new text";
                   Scenario.article "c" "C" "text of c"] in
  let options := Some (mkStoreOptions (Some ["description"%string]) None) in
  storeArticlesTransaction "feed" articles options 2 (mkEntityManager Scenario.dbSeenA [])
    = Throw (UniqueConstraintViolationException "23505")
  /\ transactional (storeArticlesTransaction "feed" articles options 2) Scenario.dbSeenA
     = (Throw (UniqueConstraintViolationException "23505"), Scenario.dbSeenA)
  /\ storeArticles "feed" articles options 2 Scenario.dbSeenA = (Ok tt, Scenario.dbSeenA).
Proof.
  cbv zeta. split; [vm_compute; reflexivity|].
  apply (storeArticles_unique_violation_rolls_back (env := Scenario.doubles [])).
  vm_compute; reflexivity.
Defined.

(** C1 (the code departs from this claim). [storeArticles] never reads
    [skipIdStorage]: whatever the flag, it prepares the id row of every
    article and hands it to the field store. Called with
    [skipIdStorage = true] for an article the store does not know, it inserts
    the article's id row next to its comparison row; so does the call that
    activates the title comparison in the pass over
    [Scenario.feedRepostAndFresh], for both articles. *)
Theorem storeArticles_ignores_skipIdStorage :
  (forall (C : Collaborators) feedId articles fields skip skip' now db,
      storeArticles (env := C) feedId articles (Some (mkStoreOptions fields skip)) now db
      = storeArticles (env := C) feedId articles (Some (mkStoreOptions fields skip')) now db)
  /\ storeArticles (env := Scenario.doubles []) "feed"
       [Scenario.article "c" "C" "text of c"]
       (Some (mkStoreOptions (Some ["title"%string]) (Some true))) 7 Scenario.emptyDb
     = (Ok tt,
        mkDatabase [Scenario.idRow "c" 7; Scenario.fieldRow "title" "C" 7]
                   [mkComparison "feed" "title"])
  /\ Pass.storeUnstoredComparisons (env := Scenario.doubles Scenario.feedRepostAndFresh)
       Scenario.dbSeenA Scenario.blockingTitlePassingDescription
       [Scenario.article "n1" "N1" "old text"; Scenario.article "n2" "N2" "fresh text"]
       2 Scenario.dbSeenA
     = (Ok tt,
        mkDatabase
          [Scenario.idRow "a" 1; Scenario.fieldRow "description" "old text" 1;
           Scenario.idRow "n1" 2; Scenario.idRow "n2" 2;
           Scenario.fieldRow "title" "N1" 2; Scenario.fieldRow "title" "N2" 2]
          [mkComparison "feed" "description"; mkComparison "feed" "title"]).
Proof.
  split; [reflexivity|]. split; vm_compute; reflexivity.
Qed.

(** ** [getArticlesToDeliverFromXml], branch by branch *)

Section DeliveryPlanner.

Context {env : Collaborators}.

Lemma when_storeArticles b feedId articles options now db :
  when b (storeArticles feedId articles options now) db =
  (Ok tt, snd (when b (storeArticles feedId articles options now) db)).
Proof.
  destruct b; simpl; [|reflexivity].
  now rewrite storeArticles_all_or_nothing.
Qed.

Lemma length_eqb_0 {A} (l : list A) : (length l =? 0)%nat = true <-> l = [].
Proof. destruct l; simpl; split; congruence. Qed.

(** No articles: nothing is read or written. *)
Lemma getArticlesToDeliverFromXml_empty feedXml options now db :
  getArticlesFromXml feedXml = Ok [] ->
  getArticlesToDeliverFromXml feedXml options now db = (Ok (mkDeliveryResult [] []), db).
Proof.
  intros Hxml. unfold getArticlesToDeliverFromXml, async_bind, async_lift.
  now rewrite Hxml.
Qed.

(** The seed pass. *)
Lemma getArticlesToDeliverFromXml_seed feedXml options now db articles :
  getArticlesFromXml feedXml = Ok articles ->
  articles <> [] ->
  hasPriorArticlesStored db (opt_id options) = false ->
  getArticlesToDeliverFromXml feedXml options now db =
  (Ok (mkDeliveryResult [] articles),
   snd (storeArticles (opt_id options) articles
          (Some (mkStoreOptions
                   (Some (blockingComparisons options ++ passingComparisons options))
                   None))
          now db)).
Proof.
  intros Hxml Hne Hprior.
  unfold getArticlesToDeliverFromXml, async_bind, async_lift, async_read, async_ret.
  rewrite Hxml. destruct articles as [|a rest]; [congruence|].
  cbn [length Nat.eqb]. rewrite Hprior. cbn [negb].
  now rewrite storeArticles_all_or_nothing.
Qed.

(** Every later pass. *)
Lemma getArticlesToDeliverFromXml_pass feedXml options now db articles :
  getArticlesFromXml feedXml = Ok articles ->
  articles <> [] ->
  hasPriorArticlesStored db (opt_id options) = true ->
  getArticlesToDeliverFromXml feedXml options now db =
  (Ok (Pass.result db options articles now), Pass.persisted db options articles now).
Proof.
  intros Hxml Hne Hprior.
  unfold getArticlesToDeliverFromXml, async_bind, async_lift, async_read, async_ret.
  rewrite Hxml. destruct articles as [|a rest]; [congruence|].
  cbn [length Nat.eqb]. rewrite Hprior. cbn [negb].
  unfold Pass.persisted, Pass.storeUnstoredComparisons, Pass.storePassedArticles,
    Pass.storeNewArticles.
  fold (Pass.newArticles db options (a :: rest)).
  fold (Pass.seenArticles db options (a :: rest)).
  fold (Pass.comparisonStorageResults db options).
  fold (Pass.storedComparisons db options).
  fold (Pass.unstoredComparisons db options).
  fold (Pass.articlesPastBlocks db options (a :: rest)).
  fold (Pass.articlesPassedComparisons db options (a :: rest)).
  rewrite (when_storeArticles _ _ (Pass.newArticles db options (a :: rest))).
  rewrite (when_storeArticles _ _ (Pass.articlesPassedComparisons db options (a :: rest))).
  rewrite (when_storeArticles _ _ (a :: rest)).
  reflexivity.
Qed.

End DeliveryPlanner.

Section Transactions.

Context {env : Collaborators}.

Lemma when_storeArticles_all_or_nothing b feedId articles fields skip now db :
  let db' :=
    snd (when b (storeArticles feedId articles
                   (Some (mkStoreOptions (Some fields) skip)) now) db) in
  db' = db \/ db' = committed db feedId articles fields now.
Proof.
  cbv zeta. destruct b; simpl; [|now left].
  rewrite storeArticles_all_or_nothing. simpl.
  destruct (storeArticlesCommits _ _ _ _ _); [now right|now left].
Qed.

Lemma committed_has_id_row db feedId articles fields now a :
  In a articles ->
  FieldStore.has_row (committed db feedId articles fields now) feedId "id"
    (idHash (flattened a)) = true.
Proof.
  intros Hin. unfold FieldStore.has_row, committed. simpl.
  rewrite !existsb_app. apply orb_true_iff. right. apply orb_true_iff. left.
  apply existsb_exists. exists (mkFieldInsert feedId "id" (idHash (flattened a)) now).
  split.
  - unfold idRows. apply in_map_iff. now exists a.
  - simpl. now rewrite !String.eqb_refl.
Qed.

Lemma committed_has_articles db feedId articles fields now :
  articles <> [] ->
  FieldStore.hasArticlesStoredForFeed (committed db feedId articles fields now) feedId
  = true.
Proof.
  intros Hne. destruct articles as [|a rest]; [congruence|].
  unfold FieldStore.hasArticlesStoredForFeed, committed. simpl.
  rewrite existsb_app. apply orb_true_iff. right. simpl.
  now rewrite !String.eqb_refl.
Qed.

(** C3, as amended. After a pass that is not the seed pass, the database
    is the outcome of three transactions run one after the other, one for
    each call of [storeArticles] in step 8: the rows of the new articles,
    the rows of the articles that passed, and the backfill of the
    comparisons that were not stored yet together with their registry rows.
    Each of them either commits every row it prepared or leaves the
    database as it found it (also when its call is skipped), whatever the
    other two did; and whatever makes a transaction throw, it leaves the
    database as it found it. *)
Theorem step8_runs_one_transaction_per_call feedXml options now db articles :
  getArticlesFromXml feedXml = Ok articles ->
  articles <> [] ->
  hasPriorArticlesStored db (opt_id options) = true ->
  exists db1 db2 db3,
    getArticlesToDeliverFromXml feedXml options now db
      = (Ok (Pass.result db options articles now), db3)
    /\ (db1 = db \/
        db1 = committed db (opt_id options) (Pass.newArticles db options articles)
                (Pass.storedComparisons db options) now)
    /\ (db2 = db1 \/
        db2 = committed db1 (opt_id options)
                (Pass.articlesPassedComparisons db options articles)
                (Pass.storedComparisons db options) now)
    /\ (db3 = db2 \/
        db3 = committed db2 (opt_id options) articles
                (Pass.unstoredComparisons db options) now)
    /\ (forall cb db0 e db0', transactional cb db0 = (Throw e, db0') -> db0' = db0).
Proof.
  intros Hxml Hne Hprior.
  exists (snd (Pass.storeNewArticles db options articles now db)).
  exists (snd (Pass.storePassedArticles db options articles now
                 (snd (Pass.storeNewArticles db options articles now db)))).
  exists (Pass.persisted db options articles now).
  split; [now apply getArticlesToDeliverFromXml_pass|].
  unfold Pass.persisted, Pass.storeUnstoredComparisons, Pass.storePassedArticles,
    Pass.storeNewArticles.
  split; [apply when_storeArticles_all_or_nothing|].
  split; [apply when_storeArticles_all_or_nothing|].
  split; [apply when_storeArticles_all_or_nothing|].
  intros cb db0 e db0'. apply transactional_rollback.
Qed.

(** C4, as amended. On the first poll of a feed ([hasArticlesStoredForFeed]
    is false) with at least one article, [getArticlesToDeliverFromXml]
    returns no article to deliver and all the parsed articles, whatever
    their number. It hands the id rows of every article and the comparison
    rows for [blockingComparisons ++ passingComparisons] to one
    transaction; when no insert of it collides, the database afterwards
    holds the id row of every article and the feed has articles stored;
    when one collides, the database is unchanged. *)
Theorem seed_pass_delivers_nothing feedXml options now db articles :
  getArticlesFromXml feedXml = Ok articles ->
  articles <> [] ->
  hasPriorArticlesStored db (opt_id options) = false ->
  let fields := blockingComparisons options ++ passingComparisons options in
  let db' := committed db (opt_id options) articles fields now in
  getArticlesToDeliverFromXml feedXml options now db
    = (Ok (mkDeliveryResult [] articles),
       if storeArticlesCommits db (opt_id options) articles fields now then db' else db)
  /\ (forall a, In a articles ->
        FieldStore.has_row db' (opt_id options) "id" (idHash (flattened a)) = true)
  /\ hasPriorArticlesStored db' (opt_id options) = true.
Proof.
  intros Hxml Hne Hprior. cbv zeta. split; [|split].
  - rewrite (getArticlesToDeliverFromXml_seed _ _ _ _ _ Hxml Hne Hprior).
    now rewrite storeArticles_all_or_nothing.
  - intros a Hin. now apply committed_has_id_row.
  - now apply committed_has_articles.
Qed.

End Transactions.

(** The seed pass of C4 on an empty store, with title as a blocking
    comparison: the three articles are stored and none is delivered. *)
Lemma seed_pass_delivers_nothing_witness :
  let C : Collaborators := Scenario.doubles
             (Scenario.feed [Scenario.item "a" "A" "x"; Scenario.item "b" "B" "y";
                             Scenario.item "c" "C" "z"]) in
  let options := mkDeliveryOptions "feed" ["title"%string] [] None in
  let articles := [Scenario.article "a" "A" "x"; Scenario.article "b" "B" "y";
                   Scenario.article "c" "C" "z"] in
  let db' := committed Scenario.emptyDb "feed" articles ["title"%string] 1 in
  getArticlesToDeliverFromXml "xml" options 1 Scenario.emptyDb
    = (Ok (mkDeliveryResult [] articles),
       if storeArticlesCommits Scenario.emptyDb "feed" articles ["title"%string] 1
       then db' else Scenario.emptyDb)
  /\ (forall a, In a articles ->
        FieldStore.has_row db' "feed" "id" (idHash (flattened a)) = true)
  /\ hasPriorArticlesStored db' "feed" = true.
Proof.
  cbv zeta.
  apply (seed_pass_delivers_nothing
           (env := Scenario.doubles
                   (Scenario.feed [Scenario.item "a" "A" "x"; Scenario.item "b" "B" "y";
                                   Scenario.item "c" "C" "z"]))
           "xml" (mkDeliveryOptions "feed" ["title"%string] [] None) 1 Scenario.emptyDb
           [Scenario.article "a" "A" "x"; Scenario.article "b" "B" "y";
            Scenario.article "c" "C" "z"]).
  - vm_compute; reflexivity.
  - discriminate.
  - vm_compute; reflexivity.
Defined.

(** C4 as it was stated fails: on the first poll of a feed whose two articles
    share their title, with title as a blocking comparison, the second title
    row collides with the first, the transaction is rolled back, and no id
    row is persisted; the feed still has no article stored. *)
Lemma seed_pass_persists_nothing_on_collision :
  let C : Collaborators := Scenario.doubles
             (Scenario.feed [Scenario.item "a" "T" "x"; Scenario.item "b" "T" "y"]) in
  let options := mkDeliveryOptions "feed" ["title"%string] [] None in
  hasPriorArticlesStored Scenario.emptyDb "feed" = false
  /\ getArticlesToDeliverFromXml "xml" options 1 Scenario.emptyDb
     = (Ok (mkDeliveryResult []
              [Scenario.article "a" "T" "x"; Scenario.article "b" "T" "y"]),
        Scenario.emptyDb)
  /\ FieldStore.has_row Scenario.emptyDb "feed" "id" "sha1:a" = false.
Proof.
  cbv zeta. repeat split; vm_compute; reflexivity.
Qed.

(** C3 as it was stated fails: description is an activated passing
    comparison, title a blocking comparison that is not activated yet, and
    the first of the two new articles repeats a description that the store
    has. The transaction of the new articles is rolled back, because that
    description row collides: the description row of the second article,
    which collides with nothing, is not in the database afterwards. The
    transaction that activates title commits: its title rows and its registry
    row are there. *)
Lemma step8_commits_one_call_and_loses_another :
  let C : Collaborators := Scenario.doubles Scenario.feedRepostAndFresh in
  let options := Scenario.blockingTitlePassingDescription in
  let n1 := Scenario.article "n1" "N1" "old text" in
  let n2 := Scenario.article "n2" "N2" "fresh text" in
  let db := Scenario.dbSeenA in
  let db' := snd (getArticlesToDeliverFromXml "xml" options 2 db) in
  getArticlesFromXml "xml" = Ok [n1; n2]
  /\ hasPriorArticlesStored db "feed" = true
  /\ Pass.newArticles db options [n1; n2] = [n1; n2]
  /\ Pass.storedComparisons db options = ["description"%string]
  /\ Pass.unstoredComparisons db options = ["title"%string]
  /\ In (Scenario.fieldRow "description" "fresh text" 2)
        (comparisonFieldRows "feed" (Pass.newArticles db options [n1; n2])
           (Pass.storedComparisons db options) 2)
  /\ FieldStore.has_row db' "feed" "description" "sha1:fresh text" = false
  /\ In (Scenario.fieldRow "title" "N1" 2)
        (comparisonFieldRows "feed" [n1; n2] (Pass.unstoredComparisons db options) 2)
  /\ FieldStore.has_row db "feed" "title" "sha1:N1" = false
  /\ FieldStore.has_row db' "feed" "title" "sha1:N1" = true
  /\ custom_comparisons db'
     = [mkComparison "feed" "description"; mkComparison "feed" "title"].
Proof.
  cbv zeta.
  split; [vm_compute; reflexivity|]. split; [vm_compute; reflexivity|].
  split; [vm_compute; reflexivity|]. split; [vm_compute; reflexivity|].
  split; [vm_compute; reflexivity|]. split; [vm_compute; right; left; reflexivity|].
  split; [vm_compute; reflexivity|]. split; [vm_compute; left; reflexivity|].
  split; [vm_compute; reflexivity|]. split; vm_compute; reflexivity.
Qed.

(** ** Blocking and passing comparisons *)

Section Comparisons.

Context {env : Collaborators}.

Lemma truthy_true (s : string) : truthy s = true <-> s <> ""%string.
Proof.
  unfold truthy. destruct (String.eqb_spec s ""); simpl; split; congruence.
Qed.

Lemma In_fieldQueries article fieldKeys name hash :
  In (name, hash) (fieldQueries article fieldKeys) <->
  In name fieldKeys /\
  exists value,
    getNestedPrimitiveValue (flattened article) name = Some value
    /\ value <> ""%string /\ hash = sha1_hex value.
Proof.
  unfold fieldQueries. rewrite in_flat_map. split.
  - intros [key [Hkey Hin]].
    destruct (getNestedPrimitiveValue (flattened article) key) as [value|] eqn:Hval;
      [|destruct Hin].
    destruct (truthy value) eqn:Htruthy; [|destruct Hin].
    destruct Hin as [Heq|[]]. inversion Heq; subst.
    split; [assumption|]. exists value. now rewrite <- truthy_true.
  - intros [Hkey [value [Hval [Hne ->]]]]. exists name. split; [assumption|].
    rewrite Hval. apply truthy_true in Hne. rewrite Hne. now left.
Qed.

(** [articleFieldsSeenBefore] holds iff one of the keys has a value whose
    hash is stored for the feed. *)
Lemma articleFieldsSeenBefore_true db feedId article fieldKeys :
  articleFieldsSeenBefore db feedId article fieldKeys = true <->
  exists key, In key fieldKeys /\ fieldValueSeen db feedId article key.
Proof.
  unfold articleFieldsSeenBefore, FieldStore.someFieldsExist, fieldValueSeen.
  split.
  - destruct (length (fieldQueries article fieldKeys) =? 0)%nat; [discriminate|].
    rewrite existsb_exists. intros [[name hash] [Hin Hrow]].
    apply In_fieldQueries in Hin as [Hkey [value [Hval [Hne ->]]]].
    exists name. split; [assumption|]. now exists value.
  - intros [key [Hkey [value [Hval [Hne Hrow]]]]].
    assert (Hin : In (key, sha1_hex value) (fieldQueries article fieldKeys)).
    { apply In_fieldQueries. split; [assumption|]. now exists value. }
    destruct (fieldQueries article fieldKeys) as [|q qs] eqn:Hqs; [destruct Hin|].
    cbn [length Nat.eqb]. rewrite <- Hqs in *. apply existsb_exists.
    now exists (key, sha1_hex value).
Qed.

Lemma articleFieldsSeenBefore_no_keys db feedId article :
  articleFieldsSeenBefore db feedId article [] = false.
Proof. reflexivity. Qed.

Lemma filter_all {A} (f : A -> bool) (l : list A) :
  (forall a, In a l -> f a = true) -> List.filter f l = l.
Proof.
  induction l as [|a rest IH]; intros Hall; simpl; [reflexivity|].
  rewrite (Hall a (or_introl eq_refl)), IH; [reflexivity|].
  intros x Hx. apply Hall. now right.
Qed.

(** [checkBlockingComparisons] as one filter. *)
Lemma checkBlockingComparisons_filter db id blocking newArticles stored :
  checkBlockingComparisons db id blocking newArticles stored =
  List.filter
    (fun a => negb (articleFieldsSeenBefore db id a
                      (List.filter (fun r => set_has stored r) blocking)))
    newArticles.
Proof.
  unfold checkBlockingComparisons.
  destruct newArticles as [|a rest]; [reflexivity|].
  cbn [length Nat.eqb orb].
  destruct (List.filter (fun r => set_has stored r) blocking) as [|key keys] eqn:Hkeys.
  - cbn [length Nat.eqb]. symmetry. apply filter_all. reflexivity.
  - cbn [length Nat.eqb]. destruct blocking as [|b bs]; [discriminate|].
    cbn [length Nat.eqb]. apply omap_if_filter.
Qed.

Lemma In_stored_blocking stored blocking key :
  In key (List.filter (fun r => set_has stored r) blocking) <->
  In key blocking /\ In key stored.
Proof.
  rewrite filter_In. unfold set_has. now rewrite existsb_eqb_In.
Qed.

Lemma checkPassingComparisons_sublist db id passing seenArticles stored :
  sublist (checkPassingComparisons db id passing seenArticles stored) seenArticles.
Proof.
  unfold checkPassingComparisons.
  destruct (length seenArticles =? 0)%nat; [reflexivity|].
  destruct (_ || _); [apply sublist_nil_l|].
  destruct (length _ =? 0)%nat; [apply sublist_nil_l|].
  rewrite omap_if_filter. apply sublist_List_filter.
Qed.

Lemma filterArticlesBasedOnDateChecks_sublist articles dateChecks now :
  sublist (filterArticlesBasedOnDateChecks articles dateChecks now) articles.
Proof.
  unfold filterArticlesBasedOnDateChecks.
  destruct dateChecks as [checks|]; [|reflexivity].
  destruct (oldArticleDateDiffMsThreshold checks) as [threshold|]; [|reflexivity].
  destruct (threshold =? 0); [reflexivity|apply sublist_List_filter].
Qed.

Lemma sublist_In {A} (l1 l2 : list A) a : sublist l1 l2 -> In a l1 -> In a l2.
Proof.
  intros Hsub Hin. apply list_elem_of_In. apply list_elem_of_In in Hin.
  eapply sublist_subseteq; eassumption.
Qed.

(** With distinct id hashes, the new articles are the articles whose id
    hash is not stored, in the order of the feed. *)
Lemma filterForNewArticles_distinct db feedId articles :
  List.NoDup (map (fun a => idHash (flattened a)) articles) ->
  filterForNewArticles db feedId articles =
  List.filter
    (fun a =>
       negb (set_has
               (map fieldHashedValue
                    (FieldStore.findIdFieldsForFeed db feedId
                       (map (fun a => idHash (flattened a)) articles)))
               (idHash (flattened a))))
    articles.
Proof.
  intros Hnd. unfold filterForNewArticles.
  assert (Hkeys : map fst (map (fun article => (idHash (flattened article), article))
                               articles)
                  = map (fun a => idHash (flattened a)) articles).
  { rewrite map_map. reflexivity. }
  rewrite JsMapFacts.of_entries_distinct by now rewrite Hkeys.
  rewrite JsMapFacts.get_keys_distinct by now rewrite Hkeys.
  unfold JsMap.keys. rewrite Hkeys.
  generalize (map fieldHashedValue
                (FieldStore.findIdFieldsForFeed db feedId
                   (map (fun a => idHash (flattened a)) articles))).
  intros found. clear. induction articles as [|a rest IH]; simpl; [reflexivity|].
  destruct (negb (set_has found (idHash (flattened a)))); simpl; now rewrite IH.
Qed.

End Comparisons.

Section DeliveryClaims.

Context {env : Collaborators}.

Lemma Pass_articlesPassedComparisons_sublist db options articles :
  sublist (Pass.articlesPassedComparisons db options articles) articles.
Proof.
  unfold Pass.articlesPassedComparisons.
  etransitivity; [apply checkPassingComparisons_sublist|].
  apply sublist_List_filter.
Qed.

Lemma Pass_articlesPastBlocks_sublist db options articles :
  sublist (Pass.articlesPastBlocks db options articles)
          (Pass.newArticles db options articles).
Proof.
  unfold Pass.articlesPastBlocks. rewrite checkBlockingComparisons_filter.
  apply sublist_List_filter.
Qed.

Lemma new_article_is_not_seen db options articles a :
  In a (Pass.newArticles db options articles) ->
  ~ In a (Pass.seenArticles db options articles).
Proof.
  intros Hnew Hseen. unfold Pass.seenArticles in Hseen.
  apply filter_In in Hseen as [_ Hnot]. apply negb_true_iff in Hnot.
  assert (Hex : existsb
                  (fun a0 => (idHash (flattened a0) =? idHash (flattened a))%string)
                  (Pass.newArticles db options articles) = true).
  { apply existsb_exists. exists a. split; [assumption|apply String.eqb_refl]. }
  congruence.
Qed.

(** C5, as amended. [checkBlockingComparisons] filters the new articles,
    in their order, and keeps an article iff none of the blocking
    comparisons that are activated (stored) names a field of it whose value
    hash is already in the field store of the feed. In particular it keeps
    every new article when there is no blocking comparison, or when none
    of them is activated. A new article that is blocked in this way is not
    among the articles that [getArticlesToDeliverFromXml] returns for
    delivery. The blocking comparisons are applied to new articles only. *)
Theorem checkBlockingComparisons_blocks_seen_values :
  (forall db id blocking newArticles stored,
      let blocked a :=
        exists key, In key blocking /\ In key stored /\ fieldValueSeen db id a key in
      (exists keep,
          checkBlockingComparisons db id blocking newArticles stored
            = List.filter keep newArticles
          /\ forall a, keep a = true <-> ~ blocked a)
      /\ (forall a, In a (checkBlockingComparisons db id blocking newArticles stored)
                    <-> In a newArticles /\ ~ blocked a)
      /\ (blocking = [] ->
          checkBlockingComparisons db id blocking newArticles stored = newArticles)
      /\ ((forall key, In key blocking -> ~ In key stored) ->
          checkBlockingComparisons db id blocking newArticles stored = newArticles))
  /\ (forall feedXml options now db articles outcome db' a,
         getArticlesFromXml feedXml = Ok articles ->
         getArticlesToDeliverFromXml feedXml options now db = (Ok outcome, db') ->
         In a (Pass.newArticles db options articles) ->
         (exists key,
             In key (blockingComparisons options)
             /\ In key (Pass.storedComparisons db options)
             /\ fieldValueSeen db (opt_id options) a key) ->
         ~ In a (articlesToDeliver outcome)).
Proof.
  assert (Hkeep : forall db id blocking stored a,
             negb (articleFieldsSeenBefore db id a
                     (List.filter (fun r => set_has stored r) blocking)) = true
             <-> ~ exists key,
                   In key blocking /\ In key stored /\ fieldValueSeen db id a key).
  { intros db id blocking stored a. rewrite negb_true_iff, <- not_true_iff_false.
    rewrite articleFieldsSeenBefore_true. split; intros Hnot [key Hkey]; apply Hnot.
    - exists key. rewrite In_stored_blocking. tauto.
    - exists key. rewrite In_stored_blocking in Hkey. tauto. }
  split.
  - intros db id blocking newArticles stored blocked.
    split; [|split; [|split]].
    + eexists. split; [apply checkBlockingComparisons_filter|].
      intros a. apply Hkeep.
    + intros a. rewrite checkBlockingComparisons_filter, filter_In, Hkeep.
      reflexivity.
    + intros ->. rewrite checkBlockingComparisons_filter. apply filter_all.
      reflexivity.
    + intros Hnone. rewrite checkBlockingComparisons_filter. apply filter_all.
      intros a _. apply Hkeep. intros [key [Hb [Hs _]]]. exact (Hnone key Hb Hs).
  - intros feedXml options now db articles outcome db' a Hxml Hrun Hnew Hblocked Hin.
    destruct articles as [|a0 rest].
    { rewrite (getArticlesToDeliverFromXml_empty _ _ _ _ Hxml) in Hrun.
      inversion Hrun; subst. destruct Hin. }
    destruct (hasPriorArticlesStored db (opt_id options)) eqn:Hprior.
    2:{ rewrite (getArticlesToDeliverFromXml_seed _ _ _ _ _ Hxml) in Hrun;
          [|discriminate|assumption].
        inversion Hrun; subst. destruct Hin. }
    rewrite (getArticlesToDeliverFromXml_pass _ _ _ _ _ Hxml) in Hrun;
      [|discriminate|assumption].
    inversion Hrun; subst. unfold Pass.result in Hin. cbn [articlesToDeliver] in Hin.
    apply (sublist_In _ _ _ (filterArticlesBasedOnDateChecks_sublist _ _ _)) in Hin.
    apply in_rev, in_app_or in Hin. destruct Hin as [Hpast|Hpassed].
    + unfold Pass.articlesPastBlocks in Hpast.
      rewrite checkBlockingComparisons_filter in Hpast.
      apply filter_In in Hpast as [_ Hkept]. apply Hkeep in Hkept. now apply Hkept.
    + apply (new_article_is_not_seen db options (a0 :: rest) a Hnew).
      unfold Pass.articlesPassedComparisons in Hpassed.
      exact (sublist_In _ _ _ (checkPassingComparisons_sublist _ _ _ _ _) Hpassed).
Qed.

(** C6, as amended. In a pass that is not the seed pass, the articles to
    deliver are, after the date filter, the reverse of
    [articlesPastBlocks ++ articlesPassedComparisons]: first the seen
    articles that passed, in the reverse of the order in which the parser
    emitted them, then the new articles that were not blocked, in the
    reverse of their order in [newArticles], which is the order of the
    parser when the id hashes of the articles are distinct. When moreover
    one of the two groups is empty, the articles to deliver are in the
    reverse of the parser's order. *)
Theorem delivery_order feedXml options now db articles :
  getArticlesFromXml feedXml = Ok articles ->
  articles <> [] ->
  hasPriorArticlesStored db (opt_id options) = true ->
  let newArticles := Pass.newArticles db options articles in
  let articlesPastBlocks := Pass.articlesPastBlocks db options articles in
  let articlesPassedComparisons := Pass.articlesPassedComparisons db options articles in
  exists outcome db',
    getArticlesToDeliverFromXml feedXml options now db = (Ok outcome, db')
    /\ allArticles outcome = articles
    /\ articlesToDeliver outcome
       = filterArticlesBasedOnDateChecks
           (rev articlesPassedComparisons ++ rev articlesPastBlocks)
           (dateChecks options) now
    /\ sublist (rev articlesPassedComparisons) (rev articles)
    /\ sublist (rev articlesPastBlocks) (rev newArticles)
    /\ (List.NoDup (map (fun a => idHash (flattened a)) articles) ->
        sublist (rev newArticles) (rev articles)
        /\ (articlesPastBlocks = [] \/ articlesPassedComparisons = [] ->
            sublist (articlesToDeliver outcome) (rev articles))).
Proof.
  intros Hxml Hne Hprior. cbv zeta.
  pose proof (Pass_articlesPassedComparisons_sublist db options articles) as Hpassed.
  pose proof (Pass_articlesPastBlocks_sublist db options articles) as Hpast.
  exists (Pass.result db options articles now), (Pass.persisted db options articles now).
  split; [now apply getArticlesToDeliverFromXml_pass|].
  split; [reflexivity|].
  split; [unfold Pass.result; cbn [articlesToDeliver]; now rewrite rev_app_distr|].
  split; [now apply sublist_rev|].
  split; [now apply sublist_rev|].
  intros Hnd.
  assert (Hnew : sublist (Pass.newArticles db options articles) articles).
  { unfold Pass.newArticles. rewrite filterForNewArticles_distinct by assumption.
    apply sublist_List_filter. }
  split; [now apply sublist_rev|].
  intros Hone. unfold Pass.result. cbn [articlesToDeliver].
  etransitivity; [apply filterArticlesBasedOnDateChecks_sublist|].
  apply sublist_rev. destruct Hone as [Hempty|Hempty]; rewrite Hempty.
  - exact Hpassed.
  - rewrite app_nil_r. now transitivity (Pass.newArticles db options articles).
Qed.

End DeliveryClaims.

(** ** Running a pass again *)

Section Rerun.

Context {env : Collaborators}.

Lemma found_id_true db feed candidates h :
  set_has (map fieldHashedValue (FieldStore.findIdFieldsForFeed db feed candidates)) h = true
  <-> In h candidates /\ FieldStore.has_row db feed "id" h = true.
Proof.
  unfold set_has, FieldStore.findIdFieldsForFeed, FieldStore.has_row.
  rewrite existsb_eqb_In, in_map_iff, existsb_exists. split.
  - intros [r [<- Hin]]. apply filter_In in Hin as [Hin Hcond].
    apply andb_true_iff in Hcond as [Hcond Hcandidate].
    apply andb_true_iff in Hcond as [Hfeed Hname].
    apply existsb_eqb_In in Hcandidate. split; [assumption|].
    exists r. split; [assumption|]. now rewrite Hfeed, Hname, String.eqb_refl.
  - intros [Hcandidate [r [Hin Hcond]]].
    apply andb_true_iff in Hcond as [Hcond Hhash].
    apply String.eqb_eq in Hhash. subst h.
    exists r. split; [reflexivity|]. apply filter_In. split; [assumption|].
    rewrite Hcond. now apply existsb_eqb_In.
Qed.

Lemma idHash_is_key articles a :
  In a articles ->
  In (idHash (flattened a))
     (JsMap.keys
        (JsMap.of_entries (map (fun article => (idHash (flattened article), article))
                               articles))).
Proof.
  intros Hin. apply JsMapFacts.keys_of_entries. rewrite map_map. simpl.
  apply in_map_iff. now exists a.
Qed.

(** Every article has its id row in the store or shares its id hash with a
    new article. *)
Lemma filterForNewArticles_covers db feed articles a :
  In a articles ->
  FieldStore.has_row db feed "id" (idHash (flattened a)) = true
  \/ exists n, In n (filterForNewArticles db feed articles)
               /\ idHash (flattened n) = idHash (flattened a).
Proof.
  intros Hin. unfold filterForNewArticles.
  set (m := JsMap.of_entries
              (map (fun article => (idHash (flattened article), article)) articles)).
  set (found := map fieldHashedValue
                    (FieldStore.findIdFieldsForFeed db feed (JsMap.keys m))).
  pose proof (idHash_is_key articles a Hin) as Hkey. fold m in Hkey.
  destruct (set_has found (idHash (flattened a))) eqn:Hfound.
  - left. now apply found_id_true in Hfound.
  - right. destruct (JsMapFacts.get_key m _ Hkey) as [n Hn]. exists n. split.
    + apply (In_omap _ _ (idHash (flattened a))); [|assumption].
      apply filter_In. split; [assumption|]. now rewrite Hfound.
    + apply JsMapFacts.get_of_entries in Hn. apply in_map_iff in Hn as [a' [Heq _]].
      inversion Heq; subst. reflexivity.
Qed.

(** When every article has its id row in the store, none is new. *)
Lemma filterForNewArticles_none db feed articles :
  (forall a, In a articles ->
             FieldStore.has_row db feed "id" (idHash (flattened a)) = true) ->
  filterForNewArticles db feed articles = [].
Proof.
  intros Hall. unfold filterForNewArticles. rewrite filter_none; [reflexivity|].
  intros h Hkey. apply negb_false_iff, found_id_true. split; [assumption|].
  apply (proj1 (JsMapFacts.keys_of_entries _ _)) in Hkey.
  rewrite map_map in Hkey. simpl in Hkey.
  apply in_map_iff in Hkey as [a [<- Hin]]. now apply Hall.
Qed.

Lemma has_row_extends db db' extra feed name value :
  article_fields db' = article_fields db ++ extra ->
  FieldStore.has_row db feed name value = true ->
  FieldStore.has_row db' feed name value = true.
Proof.
  unfold FieldStore.has_row. intros -> Hrow. rewrite existsb_app, Hrow. reflexivity.
Qed.

Lemma when_storeArticles_extends b feedId articles options now db :
  exists extra,
    article_fields (snd (when b (storeArticles feedId articles options now) db))
    = article_fields db ++ extra.
Proof.
  destruct b; simpl; [|exists []; now rewrite app_nil_r].
  rewrite storeArticles_all_or_nothing. simpl.
  destruct (storeArticlesCommits _ _ _ _ _); simpl; [eauto|].
  exists []. now rewrite app_nil_r.
Qed.

Lemma has_id_row_has_articles db feed h :
  FieldStore.has_row db feed "id" h = true ->
  FieldStore.hasArticlesStoredForFeed db feed = true.
Proof.
  unfold FieldStore.has_row, FieldStore.hasArticlesStoredForFeed.
  rewrite !existsb_exists. intros [r [Hin Hcond]]. exists r. split; [assumption|].
  apply andb_true_iff in Hcond as [Hcond _]. exact Hcond.
Qed.

Lemma filterArticlesBasedOnDateChecks_nil dateChecks now :
  filterArticlesBasedOnDateChecks [] dateChecks now = [].
Proof.
  pose proof (filterArticlesBasedOnDateChecks_sublist [] dateChecks now) as Hsub.
  now apply sublist_nil_r in Hsub.
Qed.

Lemma checkPassingComparisons_none_stored db id passing seenArticles stored :
  (forall key, In key passing -> ~ In key stored) ->
  checkPassingComparisons db id passing seenArticles stored = [].
Proof.
  intros Hnone. unfold checkPassingComparisons.
  destruct seenArticles as [|a rest]; [reflexivity|]. cbn [length Nat.eqb].
  rewrite (filter_none (fun r => set_has stored r) passing).
  - cbn [length Nat.eqb]. now rewrite orb_true_r.
  - intros key Hkey. apply not_true_iff_false. unfold set_has.
    rewrite existsb_eqb_In. now apply Hnone.
Qed.

(** C2, as amended. A pass that is not the seed pass stores its new articles
    in one transaction. When that transaction commits (or there is no new
    article), a second run over the same XML, on the database as the first
    run left it, finds no new article: what it delivers are seen articles
    that pass the passing comparisons against that database, after the date
    filter. It delivers nothing when none of the passing comparisons is
    activated, in particular when there is no passing comparison. *)
Theorem rerun_delivers_no_new_article feedXml options now now' db articles :
  getArticlesFromXml feedXml = Ok articles ->
  articles <> [] ->
  hasPriorArticlesStored db (opt_id options) = true ->
  Pass.newArticles db options articles = []
  \/ storeArticlesCommits db (opt_id options) (Pass.newArticles db options articles)
       (Pass.storedComparisons db options) now = true ->
  let db' := snd (getArticlesToDeliverFromXml feedXml options now db) in
  Pass.newArticles db' options articles = []
  /\ fst (getArticlesToDeliverFromXml feedXml options now' db')
     = Ok (mkDeliveryResult
             (filterArticlesBasedOnDateChecks
                (rev (Pass.articlesPassedComparisons db' options articles))
                (dateChecks options) now')
             articles)
  /\ ((forall key, In key (passingComparisons options) ->
                   ~ In key (Pass.storedComparisons db' options)) ->
      fst (getArticlesToDeliverFromXml feedXml options now' db')
      = Ok (mkDeliveryResult [] articles)).
Proof.
  intros Hxml Hne Hprior Hstored. cbv zeta.
  rewrite (getArticlesToDeliverFromXml_pass _ _ _ _ _ Hxml Hne Hprior). cbn [snd].
  set (db1 := snd (Pass.storeNewArticles db options articles now db)).
  assert (Hids1 : forall a, In a articles ->
             FieldStore.has_row db1 (opt_id options) "id" (idHash (flattened a)) = true).
  { intros a Hin. subst db1. unfold Pass.storeNewArticles.
    destruct (filterForNewArticles_covers db (opt_id options) articles a Hin)
      as [Hrow|[n [Hn Hhash]]].
    - destruct (when_storeArticles_extends
                  (0 <? length (Pass.newArticles db options articles))%nat
                  (opt_id options) (Pass.newArticles db options articles)
                  (Some (mkStoreOptions (Some (Pass.storedComparisons db options)) None))
                  now db) as [extra Hextra].
      exact (has_row_extends _ _ _ _ _ _ Hextra Hrow).
    - fold (Pass.newArticles db options articles) in Hn.
      destruct Hstored as [Hnone|Hcommits]; [rewrite Hnone in Hn; destruct Hn|].
      destruct (Pass.newArticles db options articles) as [|n0 rest] eqn:Hnew;
        [destruct Hn|].
      cbn [length Nat.ltb Nat.leb when]. rewrite storeArticles_all_or_nothing.
      cbn [snd optionComparisonFields mbind option_bind comparisonFields default].
      unfold optionComparisonFields. simpl. rewrite Hcommits, <- Hhash.
      now apply committed_has_id_row. }
  assert (Hids : forall a, In a articles ->
            FieldStore.has_row (Pass.persisted db options articles now) (opt_id options)
              "id" (idHash (flattened a)) = true).
  { intros a Hin. unfold Pass.persisted. fold db1.
    unfold Pass.storeUnstoredComparisons, Pass.storePassedArticles.
    destruct (when_storeArticles_extends
                (negb (length (Pass.articlesPassedComparisons db options articles) =? 0)%nat)
                (opt_id options) (Pass.articlesPassedComparisons db options articles)
                (Some (mkStoreOptions (Some (Pass.storedComparisons db options))
                                      (Some true)))
                now db1) as [extra2 Hextra2].
    match goal with
    | |- FieldStore.has_row (snd (when ?b (storeArticles ?f ?a ?o ?n) ?d)) _ _ _ = true =>
        destruct (when_storeArticles_extends b f a o n d) as [extra3 Hextra3]
    end.
    eapply has_row_extends; [exact Hextra3|].
    eapply has_row_extends; [exact Hextra2|]. now apply Hids1. }
  set (db' := Pass.persisted db options articles now) in *.
  assert (Hprior' : hasPriorArticlesStored db' (opt_id options) = true).
  { destruct articles as [|a rest]; [congruence|].
    apply (has_id_row_has_articles _ _ (idHash (flattened a))). apply Hids. now left. }
  assert (Hnew' : Pass.newArticles db' options articles = []).
  { unfold Pass.newArticles. now apply filterForNewArticles_none. }
  assert (Hpast' : Pass.articlesPastBlocks db' options articles = []).
  { unfold Pass.articlesPastBlocks. rewrite checkBlockingComparisons_filter, Hnew'.
    reflexivity. }
  split; [exact Hnew'|].
  rewrite (getArticlesToDeliverFromXml_pass _ _ _ _ _ Hxml Hne Hprior'). cbn [fst].
  unfold Pass.result. rewrite Hpast'. cbn [app].
  split; [reflexivity|].
  intros Hnone. unfold Pass.articlesPassedComparisons.
  rewrite checkPassingComparisons_none_stored by assumption.
  cbn [rev]. now rewrite filterArticlesBasedOnDateChecks_nil.
Qed.

End Rerun.

(** The pass of C3 on [Scenario.feedAC] over [Scenario.dbSeenA]. *)
Lemma step8_runs_one_transaction_per_call_witness :
  let C : Collaborators := Scenario.doubles Scenario.feedAC in
  let options := Scenario.passingDescription in
  let articles := [Scenario.article "a" "A" "new text";
                   Scenario.article "c" "C" "text of c"] in
  exists db1 db2 db3,
    getArticlesToDeliverFromXml "xml" options 2 Scenario.dbSeenA
      = (Ok (Pass.result Scenario.dbSeenA options articles 2), db3)
    /\ (db1 = Scenario.dbSeenA \/
        db1 = committed Scenario.dbSeenA "feed"
                (Pass.newArticles Scenario.dbSeenA options articles)
                (Pass.storedComparisons Scenario.dbSeenA options) 2)
    /\ (db2 = db1 \/
        db2 = committed db1 "feed"
                (Pass.articlesPassedComparisons Scenario.dbSeenA options articles)
                (Pass.storedComparisons Scenario.dbSeenA options) 2)
    /\ (db3 = db2 \/
        db3 = committed db2 "feed" articles
                (Pass.unstoredComparisons Scenario.dbSeenA options) 2)
    /\ (forall cb db0 e db0', transactional cb db0 = (Throw e, db0') -> db0' = db0).
Proof.
  cbv zeta.
  apply (step8_runs_one_transaction_per_call (env := Scenario.doubles Scenario.feedAC)
           "xml" Scenario.passingDescription 2 Scenario.dbSeenA
           [Scenario.article "a" "A" "new text"; Scenario.article "c" "C" "text of c"]).
  - vm_compute; reflexivity.
  - discriminate.
  - vm_compute; reflexivity.
Defined.

(** The scenario of C5: a new article whose title was delivered before is
    not delivered. *)
Lemma checkBlockingComparisons_blocks_seen_values_witness :
  let C : Collaborators :=
    Scenario.doubles (Scenario.feed [Scenario.item "e" "Hello" "body"]) in
  let e := Scenario.article "e" "Hello" "body" in
  getArticlesFromXml "xml" = Ok [e]
  /\ getArticlesToDeliverFromXml "xml" Scenario.blockingTitle 2 Scenario.dbTitleHello
     = (Ok (mkDeliveryResult [] [e]), Scenario.dbTitleHello)
  /\ In e (Pass.newArticles Scenario.dbTitleHello Scenario.blockingTitle [e])
  /\ fieldValueSeen Scenario.dbTitleHello "feed" e "title"
  /\ ~ In e (articlesToDeliver (mkDeliveryResult [] [e])).
Proof.
  cbv zeta.
  assert (Hxml : getArticlesFromXml
                   (env := Scenario.doubles (Scenario.feed [Scenario.item "e" "Hello" "body"]))
                   "xml" = Ok [Scenario.article "e" "Hello" "body"])
    by (vm_compute; reflexivity).
  assert (Hrun : getArticlesToDeliverFromXml
                   (env := Scenario.doubles (Scenario.feed [Scenario.item "e" "Hello" "body"]))
                   "xml" Scenario.blockingTitle 2 Scenario.dbTitleHello
                 = (Ok (mkDeliveryResult [] [Scenario.article "e" "Hello" "body"]),
                    Scenario.dbTitleHello))
    by (vm_compute; reflexivity).
  assert (Hnew : In (Scenario.article "e" "Hello" "body")
                    (Pass.newArticles Scenario.dbTitleHello Scenario.blockingTitle
                       [Scenario.article "e" "Hello" "body"]))
    by (vm_compute; left; reflexivity).
  assert (Hseen : fieldValueSeen
                    (env := Scenario.doubles (Scenario.feed [Scenario.item "e" "Hello" "body"]))
                    Scenario.dbTitleHello "feed" (Scenario.article "e" "Hello" "body") "title").
  { exists "Hello"%string.
    split; [vm_compute; reflexivity|split; [discriminate|vm_compute; reflexivity]]. }
  split; [assumption|]. split; [assumption|]. split; [assumption|].
  split; [assumption|].
  apply (proj2 (checkBlockingComparisons_blocks_seen_values
                  (env := Scenario.doubles (Scenario.feed [Scenario.item "e" "Hello" "body"])))
           "xml" Scenario.blockingTitle 2 Scenario.dbTitleHello
           [Scenario.article "e" "Hello" "body"] _ _ _ Hxml Hrun Hnew).
  exists "title"%string.
  split; [vm_compute; left; reflexivity|].
  split; [vm_compute; left; reflexivity|exact Hseen].
Defined.

(** C5 as it was stated fails for a seen article. The seed pass stores
    article a with its title and its description; title is then an
    activated blocking comparison whose value for a is in the store. In the
    next pass a has a new description: it is a seen article, the blocking
    comparisons are not applied to it, it passes the passing comparison on
    description, and it is delivered. *)
Lemma seen_article_with_blocked_value_is_delivered :
  let options := Scenario.blockingTitlePassingDescription in
  let seed :=
    getArticlesToDeliverFromXml
      (env := Scenario.doubles (Scenario.feed [Scenario.item "a" "A" "old text"]))
      "first xml" options 1 Scenario.emptyDb in
  let C : Collaborators :=
    Scenario.doubles (Scenario.feed [Scenario.item "a" "A" "new text"]) in
  let a := Scenario.article "a" "A" "new text" in
  fst seed = Ok (mkDeliveryResult [] [Scenario.article "a" "A" "old text"])
  /\ hasPriorArticlesStored (snd seed) "feed" = true
  /\ In "title"%string (blockingComparisons options)
  /\ In "title"%string (Pass.storedComparisons (snd seed) options)
  /\ fieldValueSeen (snd seed) "feed" a "title"
  /\ Pass.newArticles (snd seed) options [a] = []
  /\ fst (getArticlesToDeliverFromXml "xml" options 2 (snd seed))
     = Ok (mkDeliveryResult [a] [a])
  /\ In a (articlesToDeliver (mkDeliveryResult [a] [a])).
Proof.
  cbv zeta.
  split; [vm_compute; reflexivity|]. split; [vm_compute; reflexivity|].
  split; [left; reflexivity|]. split; [vm_compute; left; reflexivity|].
  split.
  { exists "A"%string.
    split; [vm_compute; reflexivity|split; [discriminate|vm_compute; reflexivity]]. }
  split; [vm_compute; reflexivity|]. split; [vm_compute; reflexivity|].
  left. reflexivity.
Qed.

(** The pass of C6 on a feed in which seen articles that pass and new
    articles alternate: a, n1, b, n2 in the order of the parser. The
    articles to deliver are b, a, n2, n1: each group is reversed, and the
    seen articles come before the new ones. *)
Lemma delivery_order_witness :
  let C : Collaborators := Scenario.doubles MixedFeed.events in
  let options := Scenario.passingDescription in
  let articles := [MixedFeed.a; MixedFeed.n1; MixedFeed.b; MixedFeed.n2] in
  let newArticles := Pass.newArticles MixedFeed.db options articles in
  let articlesPastBlocks := Pass.articlesPastBlocks MixedFeed.db options articles in
  let articlesPassedComparisons :=
    Pass.articlesPassedComparisons MixedFeed.db options articles in
  articlesPastBlocks = [MixedFeed.n1; MixedFeed.n2]
  /\ articlesPassedComparisons = [MixedFeed.a; MixedFeed.b]
  /\ exists outcome db',
       getArticlesToDeliverFromXml "xml" options 2 MixedFeed.db = (Ok outcome, db')
       /\ allArticles outcome = articles
       /\ articlesToDeliver outcome
          = [MixedFeed.b; MixedFeed.a; MixedFeed.n2; MixedFeed.n1]
       /\ articlesToDeliver outcome
          = filterArticlesBasedOnDateChecks
              (rev articlesPassedComparisons ++ rev articlesPastBlocks)
              (dateChecks options) 2
       /\ sublist (rev articlesPassedComparisons) (rev articles)
       /\ sublist (rev articlesPastBlocks) (rev newArticles)
       /\ sublist (rev newArticles) (rev articles).
Proof.
  cbv zeta.
  split; [vm_compute; reflexivity|]. split; [vm_compute; reflexivity|].
  destruct (delivery_order (env := Scenario.doubles MixedFeed.events)
              "xml" Scenario.passingDescription 2 MixedFeed.db
              [MixedFeed.a; MixedFeed.n1; MixedFeed.b; MixedFeed.n2])
    as [outcome [db' [Hrun [Hall [Hdeliver [Hpassed [Hpast Hdistinct]]]]]]].
  - vm_compute; reflexivity.
  - discriminate.
  - vm_compute; reflexivity.
  - exists outcome, db'. split; [exact Hrun|]. split; [exact Hall|].
    split; [rewrite Hdeliver; vm_compute; reflexivity|].
    split; [exact Hdeliver|]. split; [exact Hpassed|]. split; [exact Hpast|].
    apply Hdistinct. apply NoDup_ListNoDup. apply (bool_decide_unpack _).
    vm_compute. exact I.
Defined.

Lemma sublist_names (l1 l2 : list Article) :
  sublist l1 l2 -> sublist (Scenario.names l1) (Scenario.names l2).
Proof.
  induction 1; simpl; now constructor.
Qed.

(** C6 as it was stated fails: the parser emits a, which is seen and passes
    on its new description, before c, which is new. The articles to deliver
    are a then c, which is the parser's order and not its reverse. *)
Lemma delivery_order_is_not_reverse_emission_order :
  let C : Collaborators := Scenario.doubles Scenario.feedAC in
  let a := Scenario.article "a" "A" "new text" in
  let c := Scenario.article "c" "C" "text of c" in
  getArticlesFromXml "xml" = Ok [a; c]
  /\ hasPriorArticlesStored Scenario.dbSeenA "feed" = true
  /\ Pass.articlesPastBlocks Scenario.dbSeenA Scenario.passingDescription [a; c] = [c]
  /\ Pass.articlesPassedComparisons Scenario.dbSeenA Scenario.passingDescription [a; c]
     = [a]
  /\ fst (getArticlesToDeliverFromXml "xml" Scenario.passingDescription 2 Scenario.dbSeenA)
     = Ok (mkDeliveryResult [a; c] [a; c])
  /\ ~ sublist [a; c] (rev [a; c]).
Proof.
  cbv zeta. repeat split; try (vm_compute; reflexivity).
  intros Hsub. apply sublist_names in Hsub. vm_compute in Hsub.
  inversion Hsub as [| |x l1 l2 Hsub1]; subst.
  inversion Hsub1 as [|x l1 l2 Hsub2|x l1 l2 Hsub2]; subst.
  - inversion Hsub2.
  - inversion Hsub2.
Qed.

(** What the ignored [skipIdStorage] costs. The first poll of the feed, with
    description as a passing comparison, seeds the store with article a. The
    next pass, over a feed in which a has a new description, delivers a (and
    the new article c). The same XML, run again at once, delivers a a second
    time: the rows of the passed article were never persisted, because
    [storeArticles] put the id row of a, which the store has, in front of
    them. *)
Lemma rerun_delivers_passed_article_again :
  let a := Scenario.article "a" "A" "new text" in
  let c := Scenario.article "c" "C" "text of c" in
  let seed :=
    getArticlesToDeliverFromXml
      (env := Scenario.doubles (Scenario.feed [Scenario.item "a" "A" "old text"]))
      "first xml" Scenario.passingDescription 1 Scenario.emptyDb in
  let pass :=
    getArticlesToDeliverFromXml (env := Scenario.doubles Scenario.feedAC)
      "xml" Scenario.passingDescription 2 (snd seed) in
  let rerun :=
    getArticlesToDeliverFromXml (env := Scenario.doubles Scenario.feedAC)
      "xml" Scenario.passingDescription 3 (snd pass) in
  seed = (Ok (mkDeliveryResult [] [Scenario.article "a" "A" "old text"]), Scenario.dbSeenA)
  /\ hasPriorArticlesStored (snd seed) "feed" = true
  /\ fst pass = Ok (mkDeliveryResult [a; c] [a; c])
  /\ FieldStore.has_row (snd pass) "feed" "description" "sha1:new text" = false
  /\ fst rerun = Ok (mkDeliveryResult [a] [a; c]).
Proof.
  cbv zeta. repeat split; vm_compute; reflexivity.
Qed.

(** The rerun of C2 after a pass whose one new article was stored: nothing
    is delivered. *)
Lemma rerun_delivers_no_new_article_witness :
  let C : Collaborators :=
    Scenario.doubles (Scenario.feed [Scenario.item "e" "Bye" "body"]) in
  let options := Scenario.blockingTitle in
  let articles := [Scenario.article "e" "Bye" "body"] in
  let db := Scenario.dbTitleHello in
  let db' := snd (getArticlesToDeliverFromXml "xml" options 2 db) in
  fst (getArticlesToDeliverFromXml "xml" options 2 db)
    = Ok (mkDeliveryResult articles articles)
  /\ storeArticlesCommits db "feed" (Pass.newArticles db options articles)
       (Pass.storedComparisons db options) 2 = true
  /\ Pass.newArticles db' options articles = []
  /\ fst (getArticlesToDeliverFromXml "xml" options 3 db')
     = Ok (mkDeliveryResult
             (filterArticlesBasedOnDateChecks
                (rev (Pass.articlesPassedComparisons db' options articles))
                (dateChecks options) 3)
             articles)
  /\ ((forall key, In key (passingComparisons options) ->
                   ~ In key (Pass.storedComparisons db' options)) ->
      fst (getArticlesToDeliverFromXml "xml" options 3 db')
      = Ok (mkDeliveryResult [] articles)).
Proof.
  cbv zeta.
  split; [vm_compute; reflexivity|]. split; [vm_compute; reflexivity|].
  apply (rerun_delivers_no_new_article
           (env := Scenario.doubles (Scenario.feed [Scenario.item "e" "Bye" "body"]))
           "xml" Scenario.blockingTitle 2 3 Scenario.dbTitleHello
           [Scenario.article "e" "Bye" "body"]).
  - vm_compute; reflexivity.
  - discriminate.
  - vm_compute; reflexivity.
  - right. vm_compute; reflexivity.
Defined.

(** C2 as it was stated fails, in two ways. Description is an activated
    passing comparison. First, the new article n repeats a description that
    the store has: the pass delivers n; the transaction that stores it is
    rolled back, because its description row collides, and the database is
    as it was; the same XML, run again at once, delivers n again. Second, an
    article b that has no description gives [articleFieldsSeenBefore] no
    query, so it is never seen before: once the seed pass has stored it,
    every pass delivers it, whatever is stored. *)
Lemma rerun_delivers_new_articles_again_after_collision :
  let n := Scenario.article "n" "N" "old text" in
  let pass :=
    getArticlesToDeliverFromXml (env := Scenario.doubles Scenario.feedRepost)
      "xml" Scenario.passingDescription 2 Scenario.dbSeenA in
  let rerun :=
    getArticlesToDeliverFromXml (env := Scenario.doubles Scenario.feedRepost)
      "xml" Scenario.passingDescription 3 (snd pass) in
  let b := Scenario.bareArticle "b" "B" in
  let poll now db :=
    getArticlesToDeliverFromXml
      (env := Scenario.doubles (Scenario.feed [Scenario.bareItem "b" "B"]))
      "xml of b" Scenario.passingDescription now db in
  let seeded := snd (poll 1 Scenario.emptyDb) in
  (hasPriorArticlesStored Scenario.dbSeenA "feed" = true
   /\ pass = (Ok (mkDeliveryResult [n] [n]), Scenario.dbSeenA)
   /\ fst rerun = Ok (mkDeliveryResult [n] [n]))
  /\ (hasPriorArticlesStored seeded "feed" = true
      /\ fst (poll 2 seeded) = Ok (mkDeliveryResult [b] [b])
      /\ fst (poll 3 (snd (poll 2 seeded))) = Ok (mkDeliveryResult [b] [b])).
Proof.
  cbv zeta.
  split; (split; [vm_compute; reflexivity|]); split; vm_compute; reflexivity.
Qed.

(** The databases of the scenarios are what a seed pass leaves. *)
Lemma scenario_databases_are_seeded :
  snd (getArticlesToDeliverFromXml
         (env := Scenario.doubles (Scenario.feed [Scenario.item "a" "A" "old text"]))
         "xml" Scenario.passingDescription 1 Scenario.emptyDb) = Scenario.dbSeenA
  /\ snd (getArticlesToDeliverFromXml
            (env := Scenario.doubles (Scenario.feed [Scenario.item "z" "Hello" "text"]))
            "xml" Scenario.blockingTitle 1 Scenario.emptyDb) = Scenario.dbTitleHello.
Proof.
  split; vm_compute; reflexivity.
Qed.

(** ** The date filter *)

Lemma head_omap_first_some {A B} (f : A -> option B) (xs : list A) (y : B) :
  head (omap f xs) = Some y <-> first_some f xs y.
Proof.
  induction xs as [|x rest IH].
  - split; [discriminate|inversion 1].
  - rewrite omap_cons_eq. destruct (f x) as [b|] eqn:Hfx.
    + simpl. split.
      * intros Heq. inversion Heq; subst. now constructor.
      * inversion 1; congruence.
    + rewrite IH. split.
      * now constructor.
      * inversion 1; congruence.
Qed.

Section DateFilter.

Context {env : Collaborators}.

Lemma passesDateCheck_true references threshold now a :
  passesDateCheck references threshold now a = true <->
  exists d,
    first_some (placeholderDate a) (default ["date"; "pubdate"]%string references) d
    /\ now - d <= threshold.
Proof.
  unfold passesDateCheck.
  change (fun placeholder => dayjs (or_else (raw_get (raw a) placeholder) "invalid date"))
    with (placeholderDate a).
  destruct (head (omap (placeholderDate a) _)) as [d|] eqn:Hhead.
  - apply head_omap_first_some in Hhead. rewrite Z.leb_le. split.
    + intros Hle. now exists d.
    + intros [d' [Hfirst Hle]]. apply head_omap_first_some in Hhead, Hfirst.
      congruence.
  - split; [discriminate|].
    intros [d [Hfirst _]]. apply head_omap_first_some in Hfirst. congruence.
Qed.

(** C9, as amended. [filterArticlesBasedOnDateChecks] returns its input
    when [dateChecks] or its threshold is absent, and also when the
    threshold is the number 0. Otherwise it filters the articles, in their
    order: it keeps an article iff the first of the placeholders
    ([datePlaceholderReferences], or date and pubdate when that list is
    not given) that gives a valid date from [raw] gives one that is at most
    the threshold before now. So an article with no valid date is dropped
    and no article it returns has [now - date > threshold]. *)
Theorem filterArticlesBasedOnDateChecks_keeps_recent articles dateChecks now :
  (thresholdOf dateChecks = None \/ thresholdOf dateChecks = Some 0 ->
   filterArticlesBasedOnDateChecks articles dateChecks now = articles)
  /\ (forall threshold,
         thresholdOf dateChecks = Some threshold -> threshold <> 0 ->
         (exists keep,
             filterArticlesBasedOnDateChecks articles dateChecks now
               = List.filter keep articles
             /\ forall a,
                  keep a = true <->
                  exists d,
                    first_some (placeholderDate a) (placeholdersOf dateChecks) d
                    /\ now - d <= threshold)
         /\ (forall a,
                In a (filterArticlesBasedOnDateChecks articles dateChecks now) ->
                exists d,
                  first_some (placeholderDate a) (placeholdersOf dateChecks) d
                  /\ ~ now - d > threshold)
         /\ (forall a,
                (forall d, ~ first_some (placeholderDate a) (placeholdersOf dateChecks) d) ->
                ~ In a (filterArticlesBasedOnDateChecks articles dateChecks now))).
Proof.
  unfold thresholdOf, placeholdersOf, filterArticlesBasedOnDateChecks.
  destruct dateChecks as [checks|]; simpl.
  2:{ split; [reflexivity|discriminate]. }
  destruct (oldArticleDateDiffMsThreshold checks) as [t|]; simpl.
  2:{ split; [reflexivity|discriminate]. }
  split.
  - intros [Habsent|Hzero]; [discriminate|]. inversion Hzero; subst. reflexivity.
  - intros threshold Heq Hne. inversion Heq; subst.
    destruct (Z.eqb_spec threshold 0) as [|_]; [contradiction|].
    split; [|split].
    + eexists. split; [reflexivity|]. intros a. apply passesDateCheck_true.
    + intros a Hin. apply filter_In in Hin as [_ Hkeep].
      apply passesDateCheck_true in Hkeep as [d [Hfirst Hle]].
      exists d. split; [assumption|lia].
    + intros a Hnone Hin. apply filter_In in Hin as [_ Hkeep].
      apply passesDateCheck_true in Hkeep as [d [Hfirst _]].
      exact (Hnone d Hfirst).
Qed.

End DateFilter.

(** The filter of C9 with a threshold of one second, half a second after the
    date of the dated article: it is kept, the undated one is dropped. *)
Lemma filterArticlesBasedOnDateChecks_keeps_recent_witness :
  let C : Collaborators := Scenario.doubles [] in
  let checks := Some (mkDateChecks (Some 1000) None) in
  let articles := [Scenario.undated "u"; Scenario.dated "d"] in
  thresholdOf checks = Some 1000
  /\ 1000 <> 0
  /\ filterArticlesBasedOnDateChecks articles checks 1704067200500 = [Scenario.dated "d"]
  /\ (forall a,
         In a (filterArticlesBasedOnDateChecks articles checks 1704067200500) ->
         exists d,
           first_some (placeholderDate a) (placeholdersOf checks) d
           /\ ~ 1704067200500 - d > 1000).
Proof.
  cbv zeta.
  split; [reflexivity|]. split; [lia|]. split; [vm_compute; reflexivity|].
  apply (proj2 (filterArticlesBasedOnDateChecks_keeps_recent (env := Scenario.doubles [])
                  [Scenario.undated "u"; Scenario.dated "d"]
                  (Some (mkDateChecks (Some 1000) None)) 1704067200500)
           1000); [reflexivity|lia].
Defined.

(** C9 as it was stated fails: a threshold of 0 is present, and the filter
    still returns its input. It keeps an article that has no valid date, and
    one whose date is half a second old, where the filter as documented
    drops both. *)
Lemma filterArticlesBasedOnDateChecks_ignores_threshold_zero :
  let C : Collaborators := Scenario.doubles [] in
  let checks := Some (mkDateChecks (Some 0) None) in
  let articles := [Scenario.undated "u"; Scenario.dated "d"] in
  thresholdOf checks = Some 0
  /\ (forall d, ~ first_some (placeholderDate (Scenario.undated "u"))
                             (placeholdersOf checks) d)
  /\ first_some (placeholderDate (Scenario.dated "d")) (placeholdersOf checks) 1704067200000
  /\ 1704067200500 - 1704067200000 > 0
  /\ filterArticlesBasedOnDateChecks articles checks 1704067200500 = articles
  /\ dateFilterAsDocumented articles checks 1704067200500 = [].
Proof.
  cbv zeta.
  split; [reflexivity|]. split; [|split; [|split; [|split]]].
  - intros d Hfirst. apply head_omap_first_some in Hfirst. vm_compute in Hfirst.
    discriminate.
  - apply head_omap_first_some. vm_compute. reflexivity.
  - lia.
  - vm_compute; reflexivity.
  - vm_compute; reflexivity.
Qed.

(** ** Parsing *)

Lemma prefix_true_iff (p s : string) :
  String.prefix p s = true <-> exists tail, s = (p ++ tail)%string.
Proof.
  revert s. induction p as [|c p IH]; intros s.
  - destruct s; simpl; split; eauto.
  - destruct s as [|c' s]; simpl.
    + split; [discriminate|]. intros [tail Heq]. discriminate.
    + destruct (Ascii.ascii_dec c c') as [->|Hne].
      * rewrite IH. split; intros [tail Heq]; exists tail; [now subst|now inversion Heq].
      * split; [discriminate|]. intros [tail Heq]. inversion Heq. congruence.
Qed.

Section Parsing.

Context {env : Collaborators}.

Lemma settle_readables reads rest rawArticles idResolver :
  settle (map OnReadable reads ++ rest) rawArticles idResolver =
  settle rest (rawArticles ++ concat reads)
         (fold_left ArticleIDResolver.recordArticle (concat reads) idResolver).
Proof.
  revert rawArticles idResolver.
  induction reads as [|items reads IH]; intros rawArticles idResolver; simpl.
  - now rewrite app_nil_r.
  - rewrite IH, fold_left_app, <- app_assoc. reflexivity.
Qed.

(** When the promise resolves after [end], it resolves with what the handler
    of [end] resolves with. *)
Lemma settle_end_ok rest rawArticles idResolver articles :
  settle (OnEnd :: rest) rawArticles idResolver = Ok articles ->
  onEnd rawArticles idResolver = Ok articles.
Proof.
  cbn [settle]. destruct (endsAtOnce rawArticles idResolver); [trivial|].
  destruct (firstError rest); [discriminate|trivial].
Qed.

Lemma onError_invalid message :
  message = "Not a feed"%string
  \/ (exists tail, message = ("Unexpected end" ++ tail)%string) ->
  onError message = InvalidFeedException "Invalid feed".
Proof.
  unfold onError. intros [->|Hprefix]; [reflexivity|].
  apply prefix_true_iff in Hprefix. rewrite Hprefix. now rewrite orb_true_r.
Qed.

Lemma onError_other message :
  message <> "Not a feed"%string ->
  ~ (exists tail, message = ("Unexpected end" ++ tail)%string) ->
  onError message = Error message.
Proof.
  unfold onError. intros Hne Hprefix.
  destruct (String.eqb_spec message "Not a feed"); [contradiction|].
  destruct (String.prefix "Unexpected end" message) eqn:Hp; [|reflexivity].
  apply prefix_true_iff in Hp. contradiction.
Qed.

(** C8. How [getArticlesFromXml] settles on what the parser does. When the
    parser raises an error before it ends, the promise is rejected: with
    [InvalidFeedException] when the message is "Not a feed" or begins with
    "Unexpected end", and with the parser's own error otherwise. When the
    parser ends without having emitted an item, the promise resolves to no
    articles; the id type is not asked for. *)
Theorem getArticlesFromXml_classifies_parser_outcomes xml :
  (forall reads message rest,
      feedparser xml = map OnReadable reads ++ OnError message :: rest ->
      (message = "Not a feed"%string
       \/ (exists tail, message = ("Unexpected end" ++ tail)%string) ->
       getArticlesFromXml xml = Throw (InvalidFeedException "Invalid feed"))
      /\ (message <> "Not a feed"%string ->
          ~ (exists tail, message = ("Unexpected end" ++ tail)%string) ->
          getArticlesFromXml xml = Throw (Error message)))
  /\ (forall reads rest,
         feedparser xml = map OnReadable reads ++ OnEnd :: rest ->
         concat reads = [] ->
         getArticlesFromXml xml = Ok []).
Proof.
  unfold getArticlesFromXml. split.
  - intros reads message rest ->. rewrite settle_readables. simpl. split.
    + intros Hinvalid. now rewrite onError_invalid.
    + intros Hne Hprefix. now rewrite onError_other.
  - intros reads rest -> Hempty. rewrite settle_readables, Hempty. reflexivity.
Qed.

End Parsing.

(** The outcomes of C8 on three inputs: a document that is not a feed, a
    parser error of another kind after one item, and a feed without items. *)
Lemma getArticlesFromXml_classifies_parser_outcomes_witness :
  getArticlesFromXml (env := Scenario.doubles [OnError "Not a feed"]) "<html/>"
    = Throw (InvalidFeedException "Invalid feed")
  /\ getArticlesFromXml
       (env := Scenario.doubles [OnReadable [Scenario.item "a" "A" "x"];
                               OnError "Unexpected end of input"]) "<rss>"
     = Throw (InvalidFeedException "Invalid feed")
  /\ getArticlesFromXml
       (env := Scenario.doubles [OnReadable [Scenario.item "a" "A" "x"];
                               OnError "Unclosed root tag"; OnEnd]) "<rss>"
     = Throw (Error "Unclosed root tag")
  /\ getArticlesFromXml (env := Scenario.doubles [OnReadable []; OnEnd]) "<rss></rss>"
     = Ok [].
Proof.
  split; [|split; [|split]].
  - apply (proj1 (getArticlesFromXml_classifies_parser_outcomes
                    (env := Scenario.doubles [OnError "Not a feed"]) "<html/>")
             [] "Not a feed"%string []); [reflexivity|now left].
  - apply (proj1 (getArticlesFromXml_classifies_parser_outcomes
                    (env := Scenario.doubles [OnReadable [Scenario.item "a" "A" "x"];
                                            OnError "Unexpected end of input"]) "<rss>")
             [[Scenario.item "a" "A" "x"]] "Unexpected end of input"%string []);
      [reflexivity|right; now exists " of input"%string].
  - apply (proj1 (getArticlesFromXml_classifies_parser_outcomes
                    (env := Scenario.doubles [OnReadable [Scenario.item "a" "A" "x"];
                                            OnError "Unclosed root tag"; OnEnd]) "<rss>")
             [[Scenario.item "a" "A" "x"]] "Unclosed root tag"%string [OnEnd]);
      [reflexivity|discriminate|].
    intros [tail Heq]. discriminate.
  - apply (proj2 (getArticlesFromXml_classifies_parser_outcomes
                    (env := Scenario.doubles [OnReadable []; OnEnd]) "<rss></rss>")
             [[]] []); reflexivity.
Defined.
(** ** The identity of the articles that are built *)

Section Identity.

Context {env : Collaborators}.

Lemma recordArticle_subset idResolver item idType :
  In idType (ArticleIDResolver.recordArticle idResolver item) ->
  In idType idResolver /\ ArticleIDResolver.usable item idType = true.
Proof. unfold ArticleIDResolver.recordArticle. now rewrite filter_In. Qed.

Lemma record_all_sound items rawArticles idResolver :
  resolver_sound rawArticles idResolver ->
  resolver_sound (rawArticles ++ items)
    (fold_left ArticleIDResolver.recordArticle items idResolver).
Proof.
  revert rawArticles idResolver.
  induction items as [|item items IH]; intros rawArticles idResolver Hsound; simpl.
  - now rewrite app_nil_r.
  - replace (rawArticles ++ item :: items) with ((rawArticles ++ [item]) ++ items)
      by now rewrite <- app_assoc.
    apply IH. intros idType item' Hin Hitem.
    apply recordArticle_subset in Hin as [Hin Husable].
    apply in_app_or in Hitem as [Hitem|[<-|[]]]; [now apply Hsound|assumption].
Qed.

Lemma usable_value_nonempty item idType :
  ArticleIDResolver.usable item idType = true ->
  ArticleIDResolver.getIDTypeValue item idType <> ""%string.
Proof.
  unfold ArticleIDResolver.usable, ArticleIDResolver.getIDTypeValue.
  destruct (item_props item !! idType) as [v|]; [|discriminate].
  simpl. now rewrite truthy_true.
Qed.

(** The injection pass runs iff [injectionRuns] says so. *)
Lemma injectContent_runs idType rawArticles :
  injectContent (map (mapArticle idType) rawArticles)
  = if injectionRuns rawArticles
    then map (fun a => mkMapped (ma_injectArticleContent a (ma_flattened a)) (ma_raw a)
                                (ma_injectArticleContent a)
                                (ma_hasArticleContentInjection a))
             (map (mapArticle idType) rawArticles)
    else map (mapArticle idType) rawArticles.
Proof.
  unfold injectContent, injectionRuns. now rewrite length_map, existsb_map.
Qed.

Lemma injectContent_identity idType rawArticles m :
  injectionKeepsIdentity \/ injectionRuns rawArticles = false ->
  In m (injectContent (map (mapArticle idType) rawArticles)) ->
  exists item,
    In item rawArticles
    /\ id (ma_flattened m) = ArticleIDResolver.getIDTypeValue item idType
    /\ idHash (ma_flattened m) = sha1_hex (ArticleIDResolver.getIDTypeValue item idType).
Proof.
  intros Hkeeps. rewrite injectContent_runs.
  destruct (injectionRuns rawArticles) eqn:Hruns.
  - destruct Hkeeps as [Hkeeps|Hoff]; [|discriminate].
    rewrite map_map, in_map_iff. intros [item [<- Hin]]. exists item.
    split; [assumption|]. simpl.
    destruct (Hkeeps item
                (mkFlattened (ArticleIDResolver.getIDTypeValue item idType)
                   (sha1_hex (ArticleIDResolver.getIDTypeValue item idType))
                   (fr_flattened (flatten item)))) as [-> ->].
    now split.
  - rewrite in_map_iff. intros [item [<- Hin]]. exists item. now repeat split.
Qed.

Lemma injectContent_idHashes idType rawArticles :
  injectionKeepsIdentity \/ injectionRuns rawArticles = false ->
  map (fun m => idHash (ma_flattened m))
      (injectContent (map (mapArticle idType) rawArticles))
  = map (fun item => sha1_hex (ArticleIDResolver.getIDTypeValue item idType)) rawArticles.
Proof.
  intros Hkeeps. rewrite injectContent_runs.
  destruct (injectionRuns rawArticles) eqn:Hruns; rewrite !map_map; [|reflexivity].
  destruct Hkeeps as [Hkeeps|Hoff]; [|discriminate].
  apply map_ext. intros item. simpl. apply Hkeeps.
Qed.

Lemma injectContent_length mappedArticles :
  length (injectContent mappedArticles) = length mappedArticles.
Proof. unfold injectContent. destruct (_ && _); [apply length_map|reflexivity]. Qed.

Lemma checkIdHashes_present mappedArticles idHashes warned :
  Forall (fun m => idHash (ma_flattened m) <> ""%string) mappedArticles ->
  exists warned', checkIdHashes mappedArticles idHashes warned = Ok warned'.
Proof.
  revert idHashes warned.
  induction mappedArticles as [|m rest IH]; intros idHashes warned Hall; simpl.
  - now exists warned.
  - inversion Hall as [|? ? Hm Hrest]; subst.
    apply truthy_true in Hm. rewrite Hm. simpl. now apply IH.
Qed.

Lemma checkIdHashes_missing mappedArticles idHashes warned :
  Exists (fun m => idHash (ma_flattened m) = ""%string) mappedArticles ->
  checkIdHashes mappedArticles idHashes warned
  = Throw (Error "Some articles are missing id hash").
Proof.
  revert idHashes warned.
  induction mappedArticles as [|m rest IH]; intros idHashes warned Hex; simpl.
  - inversion Hex.
  - destruct (truthy (idHash (ma_flattened m))) eqn:Htruthy; simpl; [|reflexivity].
    inversion Hex as [? ? Hm|? ? Hrest]; subst; [|now apply IH].
    apply truthy_true in Htruthy. contradiction.
Qed.

Lemma onEnd_identity rawArticles idResolver articles a :
  injectionKeepsIdentity \/ injectionRuns rawArticles = false ->
  resolver_sound rawArticles idResolver ->
  onEnd rawArticles idResolver = Ok articles ->
  In a articles ->
  idHash (flattened a) = sha1_hex (id (flattened a))
  /\ id (flattened a) <> ""%string.
Proof.
  intros Hkeeps Hsound. unfold onEnd.
  destruct (length rawArticles =? 0)%nat.
  { intros Hok. inversion Hok. intros []. }
  destruct (ArticleIDResolver.getIDType idResolver) as [idType|] eqn:Htype;
    [|discriminate].
  destruct (checkIdHashes _ _ _); [|discriminate].
  intros Hok Hin. inversion Hok; subst.
  apply in_map_iff in Hin as [m [<- Hm]]. simpl.
  apply (injectContent_identity _ _ _ Hkeeps) in Hm as [item [Hitem [-> ->]]].
  split; [reflexivity|].
  apply usable_value_nonempty, Hsound; [|assumption].
  unfold ArticleIDResolver.getIDType in Htype.
  destruct idResolver; [discriminate|]. inversion Htype. now left.
Qed.

Lemma settle_identity events rawArticles idResolver articles a :
  injectionKeepsIdentity ->
  resolver_sound rawArticles idResolver ->
  settle events rawArticles idResolver = Ok articles ->
  In a articles ->
  idHash (flattened a) = sha1_hex (id (flattened a))
  /\ id (flattened a) <> ""%string.
Proof.
  intros Hkeeps. revert rawArticles idResolver.
  induction events as [|event events IH]; intros rawArticles idResolver Hsound;
    [discriminate|].
  destruct event as [message|items| |]; try discriminate.
  - cbn [settle]. apply IH. now apply record_all_sound.
  - intros Hok. apply settle_end_ok in Hok. revert Hok.
    apply onEnd_identity; [now left|assumption].
Qed.

Lemma create_sound : resolver_sound [] ArticleIDResolver.create.
Proof. intros idType item _ []. Qed.

(** C7, as amended. An article that [getArticlesFromXml] resolves with has
    an id that is not empty and an id hash that is the SHA-1 of the id when
    the injection closures of the flattener leave the id and the id hash
    alone, and, whatever the closures do, when the injection pass does not
    run: the closures run after the id hashes are checked, and the
    articles are emitted as the closures leave them. Items that share
    their id are not an obstacle: when the resolver has an id type and no
    hash is empty, the handler of [end] resolves with one article for each
    item, in order, and the loop over the id hashes only collects warnings.
    An article whose id hash is the empty string makes it reject. *)
Theorem getArticlesFromXml_identity :
  (forall xml articles a,
      injectionKeepsIdentity ->
      getArticlesFromXml xml = Ok articles ->
      In a articles ->
      idHash (flattened a) = sha1_hex (id (flattened a))
      /\ id (flattened a) <> ""%string)
  /\ (forall xml reads rest articles a,
         feedparser xml = map OnReadable reads ++ OnEnd :: rest ->
         injectionRuns (concat reads) = false ->
         getArticlesFromXml xml = Ok articles ->
         In a articles ->
         idHash (flattened a) = sha1_hex (id (flattened a))
         /\ id (flattened a) <> ""%string)
  /\ (forall rawArticles idResolver idType,
         ArticleIDResolver.getIDType idResolver = Some idType ->
         (forall item, In item rawArticles ->
                       sha1_hex (ArticleIDResolver.getIDTypeValue item idType)
                       <> ""%string) ->
         exists articles warned,
           onEnd rawArticles idResolver = Ok articles
           /\ (rawArticles <> [] ->
               checkIdHashes (map (mapArticle idType) rawArticles) [] [] = Ok warned)
           /\ length articles = length rawArticles
           /\ (injectionKeepsIdentity \/ injectionRuns rawArticles = false ->
               map (fun a => idHash (flattened a)) articles
               = map (fun item => sha1_hex (ArticleIDResolver.getIDTypeValue item idType))
                     rawArticles))
  /\ (forall rawArticles idResolver idType,
         ArticleIDResolver.getIDType idResolver = Some idType ->
         (exists item, In item rawArticles
                       /\ sha1_hex (ArticleIDResolver.getIDTypeValue item idType)
                          = ""%string) ->
         onEnd rawArticles idResolver
         = Throw (Error "Some articles are missing id hash")).
Proof.
  split; [|split; [|split]].
  - intros xml articles a Hkeeps. unfold getArticlesFromXml.
    apply settle_identity; [assumption|apply create_sound].
  - intros xml reads rest articles a Hevents Hoff. unfold getArticlesFromXml.
    rewrite Hevents, settle_readables. cbn [app]. intros Hok.
    apply settle_end_ok in Hok. revert Hok.
    apply onEnd_identity; [now right|].
    apply (record_all_sound (concat reads) [] ArticleIDResolver.create create_sound).
  - intros rawArticles idResolver idType Htype Hhashes. unfold onEnd.
    destruct rawArticles as [|item0 rest] eqn:Hraw.
    { exists [], []. simpl. split; [reflexivity|]. split; [congruence|].
      split; reflexivity. }
    rewrite <- Hraw in *. replace (length rawArticles =? 0)%nat with false
      by (subst; reflexivity).
    rewrite Htype.
    destruct (checkIdHashes_present (map (mapArticle idType) rawArticles) [] [])
      as [warned Hwarned].
    { apply List.Forall_forall. intros m Hm. apply in_map_iff in Hm as [item [<- Hitem]].
      simpl. now apply Hhashes. }
    rewrite Hwarned. eexists. exists warned. split; [reflexivity|].
    split; [reflexivity|]. split.
    + now rewrite length_map, injectContent_length, length_map.
    + intros Hkeeps. rewrite map_map. simpl.
      apply (injectContent_idHashes idType rawArticles Hkeeps).
  - intros rawArticles idResolver idType Htype [item [Hitem Hempty]]. unfold onEnd.
    destruct rawArticles as [|item0 rest] eqn:Hraw; [destruct Hitem|].
    rewrite <- Hraw in *. replace (length rawArticles =? 0)%nat with false
      by (subst; reflexivity).
    rewrite Htype, checkIdHashes_missing; [reflexivity|].
    apply List.Exists_exists. exists (mapArticle idType item). split; [|assumption].
    now apply in_map.
Qed.

End Identity.

(** C7 on four parses. A feed whose two items share their guid, with
    closures that keep the identity: both articles are returned, the
    second id hash is warned about, and each article has the identity the
    theorem states. A feed on which the injection pass does not run, with a
    closure that would empty the id: the article keeps its identity. A
    hash whose digest is empty: the handler of [end] rejects. *)
Lemma getArticlesFromXml_identity_witness :
  let items := [Scenario.item "1" "A" "x"; Scenario.item "1" "B" "y"] in
  let articles := [Scenario.article "1" "A" "x"; Scenario.article "1" "B" "y"] in
  let one := [Scenario.item "1" "A" "x"] in
  (injectionKeepsIdentity (env := Scenario.doubles (Scenario.feed items))
   /\ getArticlesFromXml (env := Scenario.doubles (Scenario.feed items)) "xml"
      = Ok articles
   /\ checkIdHashes (map (mapArticle (env := Scenario.doubles (Scenario.feed items)) "guid")
                         items) [] []
      = Ok ["sha1:1"%string]
   /\ (forall a, In a articles ->
                 idHash (flattened a)
                 = sha1_hex (Collaborators := Scenario.doubles (Scenario.feed items))
                     (id (flattened a))
                 /\ id (flattened a) <> ""%string))
  /\ (injectionRuns (env := IdentityScenario.rewritingIds 0 (Scenario.feed one)) one = false
      /\ getArticlesFromXml (env := IdentityScenario.rewritingIds 0 (Scenario.feed one)) "xml"
         = Ok [IdentityScenario.untouched "1" "A" "x"]
      /\ id (flattened (IdentityScenario.untouched "1" "A" "x")) <> ""%string)
  /\ onEnd (env := IdentityScenario.emptyDigest (Scenario.feed one)) one ["guid"%string]
     = Throw (Error "Some articles are missing id hash").
Proof.
  cbv zeta.
  assert (Hkeeps : injectionKeepsIdentity
                     (env := Scenario.doubles
                               (Scenario.feed [Scenario.item "1" "A" "x";
                                               Scenario.item "1" "B" "y"])))
    by (intros item fl; split; reflexivity).
  split; [|split].
  - split; [exact Hkeeps|].
    split; [vm_compute; reflexivity|].
    split; [vm_compute; reflexivity|].
    intros a Hin.
    apply (proj1 (getArticlesFromXml_identity
                    (env := Scenario.doubles
                              (Scenario.feed [Scenario.item "1" "A" "x";
                                              Scenario.item "1" "B" "y"])))
             "xml" [Scenario.article "1" "A" "x"; Scenario.article "1" "B" "y"] a Hkeeps);
      [vm_compute; reflexivity|exact Hin].
  - split; [reflexivity|]. split; [vm_compute; reflexivity|].
    apply (proj1 (proj2 (getArticlesFromXml_identity
                           (env := IdentityScenario.rewritingIds 0
                                     (Scenario.feed [Scenario.item "1" "A" "x"]))))
             "xml" [[Scenario.item "1" "A" "x"]] []
             [IdentityScenario.untouched "1" "A" "x"]
             (IdentityScenario.untouched "1" "A" "x")).
    + reflexivity.
    + reflexivity.
    + vm_compute; reflexivity.
    + left. reflexivity.
  - apply (proj2 (proj2 (proj2 (getArticlesFromXml_identity
                                  (env := IdentityScenario.emptyDigest
                                            (Scenario.feed [Scenario.item "1" "A" "x"])))))
             [Scenario.item "1" "A" "x"] ["guid"%string] "guid"%string).
    + reflexivity.
    + exists (Scenario.item "1" "A" "x"). split; [left; reflexivity|reflexivity].
Defined.

(** C7 as it was stated fails. The injection closures run after the loop
    over the id hashes, on the flattened articles that are then emitted as
    they are. With a flattener whose closure empties the id, the parse of a
    feed of one item resolves with an article whose id is empty and whose
    id hash, the digest of the guid, is not the digest of its id. *)
Lemma injection_can_rewrite_the_identity :
  let C : Collaborators :=
    IdentityScenario.rewritingIds 50 (Scenario.feed [Scenario.item "1" "A" "x"]) in
  let a := IdentityScenario.rewritten "1" "A" "x" in
  injectionRuns [Scenario.item "1" "A" "x"] = true
  /\ getArticlesFromXml "xml" = Ok [a]
  /\ id (flattened a) = ""%string
  /\ idHash (flattened a) = "sha1:1"%string
  /\ idHash (flattened a) <> sha1_hex (id (flattened a)).
Proof.
  cbv zeta. split; [reflexivity|]. split; [vm_compute; reflexivity|].
  split; [reflexivity|]. split; [reflexivity|]. vm_compute. discriminate.
Qed.

(** * Further properties of the service *)

(** ** The comparison registry *)

Lemma In_find_comparisons db feed names c :
  In c (ComparisonRepo.find db feed names) <->
  In c (custom_comparisons db) /\ feed_id c = feed /\ In (field_name c) names.
Proof.
  unfold ComparisonRepo.find. rewrite filter_In, andb_true_iff, String.eqb_eq.
  rewrite existsb_eqb_In. tauto.
Qed.

Lemma stored_field_true db feed names key :
  set_has (map field_name (ComparisonRepo.find db feed names)) key = true <->
  In key names /\ comparisonRegistered db feed key.
Proof.
  unfold set_has, comparisonRegistered. rewrite existsb_eqb_In, in_map_iff. split.
  - intros [c [<- Hc]]. apply In_find_comparisons in Hc as [Hin [Hfeed Hname]].
    split; [assumption|]. now exists c.
  - intros [Hname [c [Hin [Hfeed Hkey]]]]. exists c. split; [assumption|].
    apply In_find_comparisons. subst key. tauto.
Qed.

Lemma In_stored_fields db feed names key :
  In key (map field (List.filter isStored (areComparisonsStored db feed names))) <->
  In key names /\ comparisonRegistered db feed key.
Proof.
  unfold areComparisonsStored. rewrite in_map_iff. split.
  - intros [s [<- Hs]]. apply filter_In in Hs as [Hs Hstored].
    apply in_map_iff in Hs as [name [<- Hname]]. simpl in *.
    now apply stored_field_true in Hstored.
  - intros [Hname Hreg].
    exists (mkComparisonStatus key
              (set_has (map field_name (ComparisonRepo.find db feed names)) key)).
    split; [reflexivity|]. apply filter_In. split.
    + apply in_map_iff. now exists key.
    + simpl. now apply stored_field_true.
Qed.

Lemma In_unstored_fields db feed names key :
  In key (map field (List.filter (fun r => negb (isStored r))
                                 (areComparisonsStored db feed names))) <->
  In key names /\ ~ comparisonRegistered db feed key.
Proof.
  unfold areComparisonsStored. rewrite in_map_iff. split.
  - intros [s [<- Hs]]. apply filter_In in Hs as [Hs Hstored].
    apply in_map_iff in Hs as [name [<- Hname]]. simpl in *.
    split; [assumption|]. intros Hreg. apply negb_true_iff in Hstored.
    assert (Htrue : set_has (map field_name (ComparisonRepo.find db feed names)) name
                    = true) by now apply stored_field_true.
    congruence.
  - intros [Hname Hreg].
    exists (mkComparisonStatus key
              (set_has (map field_name (ComparisonRepo.find db feed names)) key)).
    split; [reflexivity|]. apply filter_In. split.
    + apply in_map_iff. now exists key.
    + simpl. apply negb_true_iff, not_true_iff_false.
      intros Htrue. apply stored_field_true in Htrue. tauto.
Qed.

(** X1. [areComparisonsStored] answers for every field it is asked about,
    once for each occurrence and in the order asked; a field is reported as
    stored iff the registry has a row for it under this feed. So every
    requested field is either among the stored or among the unstored
    comparisons, never both. *)
Theorem areComparisonsStored_reports_registry db feedId comparisonFields :
  map field (areComparisonsStored db feedId comparisonFields) = comparisonFields
  /\ (forall status,
         In status (areComparisonsStored db feedId comparisonFields) ->
         (isStored status = true <-> comparisonRegistered db feedId (field status)))
  /\ (forall key,
         In key comparisonFields ->
         let stored :=
           map field (List.filter isStored
                        (areComparisonsStored db feedId comparisonFields)) in
         let unstored :=
           map field (List.filter (fun r => negb (isStored r))
                        (areComparisonsStored db feedId comparisonFields)) in
         (In key stored <-> comparisonRegistered db feedId key)
         /\ (In key unstored <-> ~ comparisonRegistered db feedId key)).
Proof.
  split; [|split].
  - unfold areComparisonsStored. rewrite map_map. simpl. apply map_id.
  - intros status Hin. unfold areComparisonsStored in Hin.
    apply in_map_iff in Hin as [name [<- Hname]]. simpl.
    rewrite stored_field_true. tauto.
  - intros key Hkey. cbv zeta. rewrite In_stored_fields, In_unstored_fields. tauto.
Qed.

(** ** Passing comparisons *)

Section PassingComparisons.

Context {env : Collaborators}.

Lemma nonempty_In {A} (l : list A) : l <> [] <-> exists x, In x l.
Proof.
  destruct l as [|x rest]; split.
  - congruence.
  - intros [x []].
  - intros _. exists x. now left.
  - discriminate.
Qed.

Lemma length_eqb_0_false {A} (l : list A) : (length l =? 0)%nat = false <-> l <> [].
Proof. destruct l; simpl; split; congruence. Qed.

(** Which seen articles [checkPassingComparisons] keeps. *)
Lemma checkPassingComparisons_In db id passing seenArticles stored a :
  In a (checkPassingComparisons db id passing seenArticles stored) <->
  In a seenArticles
  /\ (exists key, In key passing /\ In key stored)
  /\ (exists key, In key passing /\ comparisonRegistered db id key)
  /\ ~ (exists key, (In key passing /\ comparisonRegistered db id key)
                    /\ fieldValueSeen db id a key).
Proof.
  unfold checkPassingComparisons.
  destruct seenArticles as [|s rest] eqn:Hseen; [simpl; tauto|].
  rewrite <- Hseen. replace (length seenArticles =? 0)%nat with false
    by (subst; reflexivity).
  destruct (List.filter (fun r => set_has stored r) passing) as [|k ks] eqn:Hactive.
  { rewrite orb_true_r. simpl. split; [tauto|].
    intros [_ [[key Hkey] _]]. apply In_stored_blocking in Hkey.
    rewrite Hactive in Hkey. destruct Hkey. }
  assert (Hsome : exists key, In key passing /\ In key stored).
  { exists k. apply In_stored_blocking. rewrite Hactive. now left. }
  destruct passing as [|p ps] eqn:Hpassing; [discriminate|].
  rewrite <- Hpassing in *. replace (length passing =? 0)%nat with false
    by (subst; reflexivity).
  cbn [length Nat.eqb orb].
  destruct (map field (List.filter isStored (areComparisonsStored db id passing)))
    as [|r rs] eqn:Hrelevant.
  { simpl. split; [tauto|]. intros [_ [_ [[key Hkey] _]]].
    apply In_stored_fields in Hkey. rewrite Hrelevant in Hkey. destruct Hkey. }
  cbn [length Nat.eqb]. rewrite <- Hrelevant.
  rewrite omap_if_filter, filter_In, negb_true_iff, <- not_true_iff_false.
  rewrite articleFieldsSeenBefore_true.
  assert (Hrel : exists key, In key passing /\ comparisonRegistered db id key).
  { exists r. apply In_stored_fields. rewrite Hrelevant. now left. }
  split.
  - intros [Hin Hnot]. repeat (split; [assumption|]).
    intros [key [Hkey Hvalue]]. apply Hnot. exists key.
    now rewrite In_stored_fields.
  - intros [Hin [_ [_ Hnot]]]. split; [assumption|].
    intros [key [Hkey Hvalue]]. apply Hnot. exists key.
    now rewrite In_stored_fields in Hkey.
Qed.

(** X2. [checkPassingComparisons] returns seen articles, in their order. It
    returns none unless one of the passing comparisons is among the
    comparisons it is told are stored and one is registered for the feed.
    Then it keeps an article iff no registered passing comparison names a
    field of it whose value hash is in the field store of the feed; so an
    article that has no value for any of these fields is kept. *)
Theorem checkPassingComparisons_passes_unseen_values db id passing seenArticles stored :
  let result := checkPassingComparisons db id passing seenArticles stored in
  let relevant key := In key passing /\ comparisonRegistered db id key in
  sublist result seenArticles
  /\ (forall a,
         In a result <->
         In a seenArticles
         /\ (exists key, In key passing /\ In key stored)
         /\ (exists key, relevant key)
         /\ ~ (exists key, relevant key /\ fieldValueSeen db id a key))
  /\ (passing = [] -> result = [])
  /\ (forall a,
         In a seenArticles ->
         (exists key, In key passing /\ In key stored) ->
         (exists key, relevant key) ->
         (forall key, In key passing -> ~ hasFieldValue a key) ->
         In a result).
Proof.
  cbv zeta.
  pose proof (checkPassingComparisons_In db id passing seenArticles stored) as Hmem.
  split; [apply checkPassingComparisons_sublist|].
  split; [exact Hmem|]. split.
  - intros ->. unfold checkPassingComparisons.
    destruct (length seenArticles =? 0)%nat eqn:Hlen; [|reflexivity].
    now apply length_eqb_0 in Hlen.
  - intros a Hin Hactive Hrelevant Hnone. apply Hmem.
    repeat (split; [assumption|]).
    intros [key [[Hkey _] [value [Hvalue [Hne _]]]]].
    apply (Hnone key Hkey). now exists value.
Qed.

End PassingComparisons.

(** ** New and seen articles *)

Module JsMapOrder.

Lemma get_set_eq {V} (m : list (string * V)) k v :
  JsMap.get (JsMap.set m k v) k = Some v.
Proof.
  induction m as [|[k0 v0] rest IH]; simpl.
  - now rewrite String.eqb_refl.
  - destruct (String.eqb_spec k0 k) as [->|Hne]; simpl.
    + now rewrite String.eqb_refl.
    + destruct (String.eqb_spec k0 k); [contradiction|exact IH].
Qed.

Lemma get_set_ne {V} (m : list (string * V)) k v k' :
  k <> k' -> JsMap.get (JsMap.set m k v) k' = JsMap.get m k'.
Proof.
  intros Hne. induction m as [|[k0 v0] rest IH]; simpl.
  - destruct (String.eqb_spec k k'); [contradiction|reflexivity].
  - destruct (String.eqb_spec k0 k) as [->|Hne0]; simpl.
    + destruct (String.eqb_spec k k'); [contradiction|reflexivity].
    + destruct (String.eqb_spec k0 k'); [reflexivity|exact IH].
Qed.

Lemma keys_set_distinct {V} (m : list (string * V)) k v :
  List.NoDup (JsMap.keys m) -> List.NoDup (JsMap.keys (JsMap.set m k v)).
Proof.
  unfold JsMap.keys. induction m as [|[k0 v0] rest IH]; simpl; intros Hnd.
  - constructor; [tauto|constructor].
  - inversion Hnd as [|? ? Hfresh Hrest]; subst.
    destruct (String.eqb_spec k0 k) as [->|Hne]; simpl; [now constructor|].
    constructor; [|now apply IH].
    intros Hin. apply Hfresh.
    apply (proj1 (JsMapFacts.keys_set rest k v k0)) in Hin as [Heq|Hin];
      [congruence|exact Hin].
Qed.

Lemma keys_fold_distinct {V} (entries acc : list (string * V)) :
  List.NoDup (JsMap.keys acc) ->
  List.NoDup
    (JsMap.keys (fold_left (fun m kv => JsMap.set m (fst kv) (snd kv)) entries acc)).
Proof.
  revert acc. induction entries as [|[k v] rest IH]; intros acc Hnd; simpl;
    [assumption|].
  apply IH. now apply keys_set_distinct.
Qed.

(** The keys of a map are distinct. *)
Lemma keys_of_entries_distinct {V} (entries : list (string * V)) :
  List.NoDup (JsMap.keys (JsMap.of_entries entries)).
Proof. apply keys_fold_distinct. constructor. Qed.

Lemma get_fold_last {V} (entries acc : list (string * V)) k v :
  JsMap.get (fold_left (fun m kv => JsMap.set m (fst kv) (snd kv)) entries acc) k = Some v ->
  (exists before after,
      entries = before ++ (k, v) :: after /\ ~ In k (map fst after))
  \/ (JsMap.get acc k = Some v /\ ~ In k (map fst entries)).
Proof.
  revert acc. induction entries as [|[k0 v0] rest IH]; intros acc Hget; simpl in *.
  - right. tauto.
  - apply IH in Hget as [[before [after [-> Hlast]]]|[Hget Hfresh]].
    + left. exists ((k0, v0) :: before), after. now split.
    + destruct (String.eqb_spec k0 k) as [->|Hne].
      * rewrite get_set_eq in Hget. inversion Hget; subst.
        left. exists [], rest. now split.
      * rewrite get_set_ne in Hget by assumption. right. split; [assumption|].
        intros [Heq|Hin]; [congruence|contradiction].
Qed.

(** What a map gives for a key is the value of the last entry of that key. *)
Lemma get_of_entries_last {V} (entries : list (string * V)) k v :
  JsMap.get (JsMap.of_entries entries) k = Some v ->
  exists before after,
    entries = before ++ (k, v) :: after /\ ~ In k (map fst after).
Proof.
  intros Hget. apply get_fold_last in Hget as [Hsplit|[Hget _]];
    [assumption|discriminate].
Qed.

End JsMapOrder.

Lemma map_omap_keys {A B} (f : A -> option B) (g : B -> A) (l : list A) :
  (forall k, In k l -> exists v, f k = Some v /\ g v = k) ->
  map g (omap f l) = l.
Proof.
  induction l as [|k rest IH]; intros Hall; [reflexivity|].
  rewrite omap_cons_eq.
  destruct (Hall k (or_introl eq_refl)) as [v [Hv Hg]]. rewrite Hv. simpl.
  rewrite Hg, IH; [reflexivity|]. intros k' Hk'. apply Hall. now right.
Qed.

Lemma In_omap_inv {A B} (f : A -> option B) (l : list A) y :
  In y (omap f l) -> exists x, In x l /\ f x = Some y.
Proof.
  induction l as [|a rest IH]; [intros []|].
  rewrite omap_cons_eq. destruct (f a) as [b|] eqn:Hfa.
  - intros [<-|Hin]; [exists a; split; [now left|assumption]|].
    destruct (IH Hin) as [x [Hx Hfx]]. exists x. split; [now right|assumption].
  - intros Hin. destruct (IH Hin) as [x [Hx Hfx]]. exists x.
    split; [now right|assumption].
Qed.

Lemma NoDup_filter {A} (f : A -> bool) (l : list A) :
  List.NoDup l -> List.NoDup (List.filter f l).
Proof.
  induction 1 as [|x l Hfresh Hnd IH]; simpl; [constructor|].
  destruct (f x); [|assumption]. constructor; [|assumption].
  intros Hin. apply filter_In in Hin. tauto.
Qed.

Lemma has_row_false_iff db feed name value :
  FieldStore.has_row db feed name value = false <->
  ~ FieldStore.has_row db feed name value = true.
Proof. destruct (FieldStore.has_row db feed name value); split; congruence. Qed.

Section NewArticles.

Context {env : Collaborators}.

Lemma filterForNewArticles_origin db feedId articles n :
  In n (filterForNewArticles db feedId articles) ->
  FieldStore.has_row db feedId "id" (idHash (flattened n)) = false
  /\ exists before after,
       articles = before ++ n :: after
       /\ forall a, In a after -> idHash (flattened a) <> idHash (flattened n).
Proof.
  unfold filterForNewArticles. intros Hin.
  apply In_omap_inv in Hin as [h [Hh Hget]].
  apply filter_In in Hh as [Hkey Hnotfound].
  apply JsMapOrder.get_of_entries_last in Hget as [before [after [Hsplit Hlast]]].
  assert (Hentry : In (h, n) (map (fun article => (idHash (flattened article), article))
                                  articles)).
  { rewrite Hsplit. apply in_or_app. right. now left. }
  apply in_map_iff in Hentry as [n' [Heq _]]. inversion Heq; subst n' h. clear Heq.
  split.
  - apply has_row_false_iff. intros Hrow. apply negb_true_iff in Hnotfound.
    assert (Hfound : set_has
                       (map fieldHashedValue
                            (FieldStore.findIdFieldsForFeed db feedId
                               (JsMap.keys
                                  (JsMap.of_entries
                                     (map (fun article =>
                                             (idHash (flattened article), article))
                                          articles)))))
                       (idHash (flattened n)) = true)
      by (apply found_id_true; now split).
    congruence.
  - apply map_eq_app in Hsplit as [l1 [l2 [Harticles [Hl1 Hl2]]]].
    destruct l2 as [|n' l2]; [discriminate|]. simpl in Hl2.
    inversion Hl2 as [[Hhash Hn' Hafter]]. subst n'.
    exists l1, l2. split; [assumption|].
    intros a Ha Heq. apply Hlast. rewrite <- Hafter, map_map. simpl.
    apply in_map_iff. exists a. split; [assumption|exact Ha].
Qed.

Lemma filterForNewArticles_idHashes db feedId articles :
  let mapOfArticles :=
    JsMap.of_entries (map (fun article => (idHash (flattened article), article)) articles) in
  map (fun n => idHash (flattened n)) (filterForNewArticles db feedId articles)
  = List.filter
      (fun id =>
         negb (set_has
                 (map fieldHashedValue
                      (FieldStore.findIdFieldsForFeed db feedId (JsMap.keys mapOfArticles)))
                 id))
      (JsMap.keys mapOfArticles).
Proof.
  cbv zeta. unfold filterForNewArticles. apply map_omap_keys.
  intros h Hh. apply filter_In in Hh as [Hkey _].
  destruct (JsMapFacts.get_key _ _ Hkey) as [n Hn]. exists n. split; [assumption|].
  apply JsMapFacts.get_of_entries in Hn. apply in_map_iff in Hn as [a [Heq _]].
  now inversion Heq.
Qed.

(** X3. [filterForNewArticles] returns articles of its input whose id hash
    has no id row in the field store of the feed, and it returns one for
    each such id hash: the id hashes of what it returns are distinct, also
    when the input repeats one. Of articles that share an id hash it
    returns the last one. *)
Theorem filterForNewArticles_one_per_unstored_hash db feedId articles :
  let newArticles := filterForNewArticles db feedId articles in
  (forall n,
      In n newArticles ->
      In n articles
      /\ FieldStore.has_row db feedId "id" (idHash (flattened n)) = false
      /\ exists before after,
           articles = before ++ n :: after
           /\ forall a, In a after -> idHash (flattened a) <> idHash (flattened n))
  /\ List.NoDup (map (fun n => idHash (flattened n)) newArticles)
  /\ (forall a,
         In a articles ->
         FieldStore.has_row db feedId "id" (idHash (flattened a)) = false ->
         exists n, In n newArticles /\ idHash (flattened n) = idHash (flattened a)).
Proof.
  cbv zeta. split; [|split].
  - intros n Hn. destruct (filterForNewArticles_origin _ _ _ _ Hn)
      as [Hrow [before [after [Hsplit Hlast]]]].
    split; [|split; [assumption|now exists before, after]].
    rewrite Hsplit. apply in_or_app. right. now left.
  - rewrite filterForNewArticles_idHashes. apply NoDup_filter.
    apply JsMapOrder.keys_of_entries_distinct.
  - intros a Hin Hrow.
    destruct (filterForNewArticles_covers db feedId articles a Hin) as [Hstored|Hnew];
      [congruence|assumption].
Qed.

(** X4. In a pass, the seen articles are exactly the articles whose id hash
    has an id row in the field store of the feed, in the order of the feed;
    every other article shares its id hash with a new article. *)
Theorem seenArticles_are_the_stored_ones db options articles :
  sublist (Pass.seenArticles db options articles) articles
  /\ (forall a,
         In a (Pass.seenArticles db options articles) <->
         In a articles
         /\ FieldStore.has_row db (opt_id options) "id" (idHash (flattened a)) = true)
  /\ (forall a,
         In a articles ->
         ~ In a (Pass.seenArticles db options articles) ->
         exists n, In n (Pass.newArticles db options articles)
                   /\ idHash (flattened n) = idHash (flattened a)).
Proof.
  assert (Hseen : forall a,
             In a (Pass.seenArticles db options articles) <->
             In a articles
             /\ FieldStore.has_row db (opt_id options) "id" (idHash (flattened a)) = true).
  { intros a. unfold Pass.seenArticles. rewrite filter_In, negb_true_iff.
    split; intros [Hin Hcond]; (split; [assumption|]).
    - destruct (filterForNewArticles_covers db (opt_id options) articles a Hin)
        as [Hrow|[n [Hn Hhash]]]; [assumption|].
      apply not_true_iff_false in Hcond. exfalso. apply Hcond.
      apply existsb_exists. exists n. split; [exact Hn|now apply String.eqb_eq].
    - apply not_true_iff_false. intros Hex. apply existsb_exists in Hex as [n [Hn Heq]].
      apply String.eqb_eq in Heq.
      destruct (filterForNewArticles_origin _ _ _ _ Hn) as [Hrow _]. congruence. }
  split; [apply sublist_List_filter|]. split; [exact Hseen|].
  intros a Hin Hnot.
  destruct (filterForNewArticles_covers db (opt_id options) articles a Hin)
    as [Hrow|Hnew]; [|assumption].
  exfalso. apply Hnot. now apply Hseen.
Qed.

End NewArticles.

(** ** What a committed call of [storeArticles] leaves *)

Section Commit.

Context {env : Collaborators}.

Lemma In_comparisonFieldRows feedId articles fields now a key value :
  In a articles -> In key fields ->
  getNestedPrimitiveValue (flattened a) key = Some value -> value <> ""%string ->
  In (mkFieldInsert feedId key (sha1_hex value) now)
     (comparisonFieldRows feedId articles fields now).
Proof.
  intros Ha Hkey Hvalue Hne. unfold comparisonFieldRows.
  apply in_flat_map. exists a. split; [assumption|].
  apply in_flat_map. exists key. split; [assumption|].
  rewrite Hvalue. apply truthy_true in Hne. rewrite Hne. now left.
Qed.

Lemma committed_has_field_row db feedId articles fields now a key value :
  In a articles -> In key fields ->
  getNestedPrimitiveValue (flattened a) key = Some value -> value <> ""%string ->
  FieldStore.has_row (committed db feedId articles fields now) feedId key (sha1_hex value)
  = true.
Proof.
  intros Ha Hkey Hvalue Hne. unfold FieldStore.has_row, committed. simpl.
  rewrite !existsb_app. apply orb_true_iff. right. apply orb_true_iff. right.
  apply existsb_exists. exists (mkFieldInsert feedId key (sha1_hex value) now).
  split; [now apply (In_comparisonFieldRows _ _ _ _ a)|]. simpl. now rewrite !String.eqb_refl.
Qed.

Lemma committed_registers db feedId articles fields now key :
  In key fields -> comparisonRegistered (committed db feedId articles fields now) feedId key.
Proof.
  intros Hkey. unfold comparisonRegistered, committed. simpl.
  destruct (existsb (fun n => (field_name n =? key)%string)
                    (ComparisonRepo.find db feedId fields)) eqn:Hfound.
  - apply existsb_exists in Hfound as [c [Hc Hname]]. apply String.eqb_eq in Hname.
    apply In_find_comparisons in Hc as [Hin [Hfeed _]].
    exists c. split; [|tauto]. apply in_or_app. now left.
  - exists (mkComparison feedId key). split; [|now split].
    apply in_or_app. right. unfold comparisonNamesToStore.
    apply in_map_iff. exists key. split; [reflexivity|].
    apply filter_In. split; [assumption|]. now rewrite Hfound.
Qed.

Lemma committed_keeps_rows db feedId articles fields now feed name value :
  FieldStore.has_row db feed name value = true ->
  FieldStore.has_row (committed db feedId articles fields now) feed name value = true.
Proof.
  intros Hrow. apply (has_row_extends db _
                        (idRows feedId articles now ++
                         comparisonFieldRows feedId articles fields now));
    [reflexivity|assumption].
Qed.

(** X5. What a call of [storeArticles] that commits makes visible to the
    reads of the service: none of the articles is new any more, every
    comparison field of the call is registered for the feed, every article
    that has a value for one of these fields has been seen before on any
    list of keys that contains the field, the feed has prior articles, and
    no row that was stored before is lost. *)
Theorem storeArticles_commit_is_visible feedId articles fields skip now db :
  storeArticlesCommits db feedId articles fields now = true ->
  let db' :=
    snd (storeArticles feedId articles (Some (mkStoreOptions (Some fields) skip)) now db) in
  filterForNewArticles db' feedId articles = []
  /\ (forall key, In key fields -> comparisonRegistered db' feedId key)
  /\ (forall a key keys,
         In a articles -> In key fields -> In key keys -> hasFieldValue a key ->
         articleFieldsSeenBefore db' feedId a keys = true)
  /\ (articles <> [] -> hasPriorArticlesStored db' feedId = true)
  /\ (forall feed name value,
         FieldStore.has_row db feed name value = true ->
         FieldStore.has_row db' feed name value = true).
Proof.
  intros Hcommits. cbv zeta. rewrite storeArticles_all_or_nothing.
  unfold optionComparisonFields. simpl. rewrite Hcommits.
  split; [|split; [|split; [|split]]].
  - apply filterForNewArticles_none. intros a Ha. now apply committed_has_id_row.
  - intros key Hkey. now apply committed_registers.
  - intros a key keys Ha Hkey Hkeys [value [Hvalue Hne]].
    apply articleFieldsSeenBefore_true. exists key. split; [assumption|].
    exists value. split; [assumption|]. split; [assumption|].
    now apply (committed_has_field_row _ _ _ _ _ a).
  - apply committed_has_articles.
  - intros feed name value. apply committed_keeps_rows.
Qed.

Lemma nil_no_member {A} (l : list A) : (forall a, ~ In a l) -> l = [].
Proof.
  destruct l as [|a rest]; [reflexivity|]. intros Hnone.
  exfalso. apply (Hnone a). now left.
Qed.

(** X6. The poll after a first poll that committed. Run on the same XML, it
    finds prior articles and no new one, and what it delivers are articles
    of the feed that have no value for any passing comparison. So it
    delivers nothing when there is no passing comparison, and nothing when
    every article has a value for one of them. *)
Theorem second_poll_after_seed feedXml options now now' db articles :
  getArticlesFromXml feedXml = Ok articles ->
  articles <> [] ->
  hasPriorArticlesStored db (opt_id options) = false ->
  storeArticlesCommits db (opt_id options) articles
    (blockingComparisons options ++ passingComparisons options) now = true ->
  let db' := snd (getArticlesToDeliverFromXml feedXml options now db) in
  exists delivered,
    fst (getArticlesToDeliverFromXml feedXml options now' db')
    = Ok (mkDeliveryResult delivered articles)
    /\ hasPriorArticlesStored db' (opt_id options) = true
    /\ Pass.newArticles db' options articles = []
    /\ (forall a,
           In a delivered ->
           In a articles
           /\ forall key, In key (passingComparisons options) -> ~ hasFieldValue a key)
    /\ (passingComparisons options = [] -> delivered = [])
    /\ ((forall a, In a articles ->
                   exists key, In key (passingComparisons options) /\ hasFieldValue a key) ->
        delivered = []).
Proof.
  intros Hxml Hne Hprior Hcommits. cbv zeta.
  rewrite (getArticlesToDeliverFromXml_seed _ _ _ _ _ Hxml Hne Hprior).
  rewrite storeArticles_all_or_nothing. unfold optionComparisonFields. simpl.
  rewrite Hcommits.
  set (fields := blockingComparisons options ++ passingComparisons options) in *.
  set (db' := committed db (opt_id options) articles fields now).
  assert (Hprior' : hasPriorArticlesStored db' (opt_id options) = true)
    by now apply committed_has_articles.
  assert (Hnew : Pass.newArticles db' options articles = []).
  { apply filterForNewArticles_none. intros a Ha. now apply committed_has_id_row. }
  assert (Hpast : Pass.articlesPastBlocks db' options articles = []).
  { unfold Pass.articlesPastBlocks. rewrite checkBlockingComparisons_filter, Hnew.
    reflexivity. }
  rewrite (getArticlesToDeliverFromXml_pass _ _ _ _ _ Hxml Hne Hprior').
  cbn [fst]. unfold Pass.result. rewrite Hpast. cbn [app].
  assert (Hdelivered : forall a,
             In a (filterArticlesBasedOnDateChecks
                     (rev (Pass.articlesPassedComparisons db' options articles))
                     (dateChecks options) now') ->
             In a articles
             /\ In a (Pass.articlesPassedComparisons db' options articles)).
  { intros a Ha.
    apply (sublist_In _ _ _ (filterArticlesBasedOnDateChecks_sublist _ _ _)) in Ha.
    apply in_rev in Ha. split; [|assumption].
    exact (sublist_In _ _ _ (Pass_articlesPassedComparisons_sublist _ _ _) Ha). }
  assert (Hnovalue : forall a,
             In a (Pass.articlesPassedComparisons db' options articles) ->
             In a articles ->
             forall key, In key (passingComparisons options) -> ~ hasFieldValue a key).
  { intros a Hpassed Ha key Hkey [value [Hvalue Hnonempty]].
    unfold Pass.articlesPassedComparisons in Hpassed.
    apply checkPassingComparisons_In in Hpassed as [_ [_ [_ Hnot]]].
    apply Hnot. exists key. split.
    - split; [assumption|]. apply committed_registers.
      apply in_or_app. now right.
    - exists value. split; [assumption|]. split; [assumption|].
      apply (committed_has_field_row _ _ _ _ _ a); try assumption.
      apply in_or_app. now right. }
  eexists. split; [reflexivity|]. split; [assumption|]. split; [assumption|].
  split; [|split].
  - intros a Ha. destruct (Hdelivered a Ha) as [Hin Hpassed].
    split; [assumption|]. now apply Hnovalue.
  - intros Hnone. unfold Pass.articlesPassedComparisons.
    rewrite checkPassingComparisons_none_stored
      by (rewrite Hnone; intros key []).
    cbn [rev]. apply filterArticlesBasedOnDateChecks_nil.
  - intros Hall. apply nil_no_member. intros a Ha.
    destruct (Hdelivered a Ha) as [Hin Hpassed].
    destruct (Hall a Hin) as [key [Hkey Hvalue]].
    exact (Hnovalue a Hpassed Hin key Hkey Hvalue).
Qed.

End Commit.

(** ** An article is stored once *)

Section StoredOnce.

Context {env : Collaborators}.

Lemma field_insert_rows_collides rows table r :
  In r rows ->
  existsb (FieldStore.same_key r) table = true ->
  FieldStore.insert_rows rows table = Throw (UniqueConstraintViolationException "23505").
Proof.
  revert table. induction rows as [|x rest IH]; intros table Hin Hkey; [destruct Hin|].
  simpl. destruct (existsb (FieldStore.same_key x) table) eqn:Hx; [reflexivity|].
  destruct Hin as [->|Hin]; [congruence|].
  apply IH; [assumption|]. rewrite existsb_app, Hkey. reflexivity.
Qed.

Lemma has_row_same_key db feed name value now :
  FieldStore.has_row db feed name value = true ->
  existsb (FieldStore.same_key (mkFieldInsert feed name value now)) (article_fields db)
  = true.
Proof.
  unfold FieldStore.has_row. rewrite !existsb_exists.
  intros [r [Hin Hr]]. exists r. split; [assumption|].
  unfold FieldStore.same_key. cbn [feedId fieldName fieldHashedValue].
  apply andb_true_iff in Hr as [Hr Hvalue]. apply andb_true_iff in Hr as [Hfeed Hname].
  apply String.eqb_eq in Hfeed, Hname, Hvalue. subst.
  now rewrite !String.eqb_refl.
Qed.

Lemma storeArticles_stored_article feedId articles options now db a :
  In a articles ->
  FieldStore.has_row db feedId "id" (idHash (flattened a)) = true ->
  storeArticles feedId articles options now db = (Ok tt, db).
Proof.
  intros Hin Hrow. rewrite storeArticles_outcome.
  rewrite (field_insert_rows_collides _ _
             (mkFieldInsert feedId "id" (idHash (flattened a)) now)).
  - reflexivity.
  - apply in_or_app. left. unfold idRows. apply in_map_iff. now exists a.
  - now apply has_row_same_key.
Qed.

(** The database after the first of the three calls still has the id rows
    it had. *)
Lemma storeNewArticles_keeps_rows db options articles now feed name value :
  FieldStore.has_row db feed name value = true ->
  FieldStore.has_row (snd (Pass.storeNewArticles db options articles now db))
    feed name value = true.
Proof.
  intros Hrow. unfold Pass.storeNewArticles.
  destruct (0 <? length (Pass.newArticles db options articles))%nat; [|exact Hrow].
  cbn [when]. rewrite storeArticles_all_or_nothing. cbn [snd].
  destruct (storeArticlesCommits _ _ _ _ _); [|exact Hrow].
  now apply committed_keeps_rows.
Qed.

Lemma seen_article_is_stored db options articles a :
  In a (Pass.seenArticles db options articles) ->
  FieldStore.has_row db (opt_id options) "id" (idHash (flattened a)) = true.
Proof.
  intros Hseen. unfold Pass.seenArticles in Hseen.
  apply filter_In in Hseen as [Hin Hnot]. apply negb_true_iff in Hnot.
  destruct (filterForNewArticles_covers db (opt_id options) articles a Hin)
    as [Hstored|[n [Hn Hhash]]]; [assumption|].
  assert (Hex : existsb
                  (fun a0 => (idHash (flattened a0) =? idHash (flattened a))%string)
                  (Pass.newArticles db options articles) = true).
  { apply existsb_exists. exists n. split; [assumption|now apply String.eqb_eq]. }
  congruence.
Qed.

(** X24. With the id rows unique in the field store, [storeArticles]
    stores no article a second time, and nothing with it: when the id row
    of one of the articles is already stored for the feed, the call returns
    normally and leaves the database as it was, whatever its options are,
    [skipIdStorage] included. *)
Theorem storeArticles_never_stores_an_article_twice feedId articles options now db :
  (exists a, In a articles
             /\ FieldStore.has_row db feedId "id" (idHash (flattened a)) = true) ->
  storeArticles feedId articles options now db = (Ok tt, db).
Proof.
  intros [a [Hin Hrow]]. now apply (storeArticles_stored_article _ _ _ _ _ a).
Qed.

(** X25. What this means for a pass that is not the seed pass. The second
    of its three calls of [storeArticles], for the seen articles that have
    passed, never changes the database, because every seen article has its
    id row stored. The third, for the comparisons not stored yet, changes
    nothing either as soon as one parsed article is a seen one: the pass
    then persists what the call for the new articles persists, and the
    comparisons stay unregistered. *)
Theorem pass_persists_the_new_articles_only db options articles now :
  let db1 := snd (Pass.storeNewArticles db options articles now db) in
  snd (Pass.storePassedArticles db options articles now db1) = db1
  /\ (Pass.seenArticles db options articles <> [] ->
      Pass.persisted db options articles now = db1
      /\ forall key,
           In key (Pass.unstoredComparisons db options) ->
           ~ comparisonRegistered (Pass.persisted db options articles now)
               (opt_id options) key).
Proof.
  cbv zeta.
  assert (Hpassed : snd (Pass.storePassedArticles db options articles now
                           (snd (Pass.storeNewArticles db options articles now db)))
                    = snd (Pass.storeNewArticles db options articles now db)).
  { unfold Pass.storePassedArticles.
    destruct (Pass.articlesPassedComparisons db options articles) as [|a rest] eqn:Hlist;
      [reflexivity|].
    cbn [length Nat.eqb negb when].
    rewrite (storeArticles_stored_article _ _ _ _ _ a); [reflexivity|now left|].
    apply storeNewArticles_keeps_rows. apply (seen_article_is_stored _ _ articles).
    apply (sublist_In _ _ _ (checkPassingComparisons_sublist db (opt_id options)
                               (passingComparisons options)
                               (Pass.seenArticles db options articles)
                               (Pass.storedComparisons db options))).
    fold (Pass.articlesPassedComparisons db options articles). rewrite Hlist. now left. }
  split; [exact Hpassed|].
  intros Hseen. apply nonempty_In in Hseen as [a Ha].
  assert (Hall : Pass.persisted db options articles now
                 = snd (Pass.storeNewArticles db options articles now db)).
  { unfold Pass.persisted. rewrite Hpassed. unfold Pass.storeUnstoredComparisons.
    destruct (0 <? length (Pass.unstoredComparisons db options))%nat; [|reflexivity].
    cbn [when]. rewrite (storeArticles_stored_article _ _ _ _ _ a); [reflexivity| |].
    - unfold Pass.seenArticles in Ha. now apply filter_In in Ha as [Ha _].
    - apply storeNewArticles_keeps_rows. now apply (seen_article_is_stored _ _ articles). }
  split; [exact Hall|].
  intros key Hkey Hregistered. rewrite Hall in Hregistered.
  apply In_unstored_fields in Hkey as [Hfield Hnot].
  apply Hnot. clear Hnot.
  unfold Pass.storeNewArticles in Hregistered.
  destruct (0 <? length (Pass.newArticles db options articles))%nat;
    [|exact Hregistered].
  cbn [when] in Hregistered. rewrite storeArticles_all_or_nothing in Hregistered.
  cbn [snd optionComparisonFields] in Hregistered.
  destruct (storeArticlesCommits _ _ _ _ _); [|exact Hregistered].
  destruct Hregistered as [c [Hc [Hfeed Hname]]].
  unfold committed in Hc. cbn [custom_comparisons] in Hc.
  apply in_app_or in Hc as [Hc|Hc]; [now exists c|].
  unfold comparisonNamesToStore in Hc. apply in_map_iff in Hc as [name [<- Hname']].
  apply filter_In in Hname' as [Hstored _]. cbn [field_name] in Hname. subst name.
  unfold optionComparisonFields in Hstored. cbn in Hstored.
  apply In_stored_fields in Hstored as [_ Hregistered]. exact Hregistered.
Qed.

End StoredOnce.

(** ** Feeds do not see each other *)

Section Isolation.

Context {env : Collaborators}.

Lemma existsb_within {A} (p q : A -> bool) (l : list A) :
  (forall x, p x = true -> q x = true) ->
  existsb p (List.filter q l) = existsb p l.
Proof.
  intros Himp. induction l as [|x rest IH]; [reflexivity|]. simpl.
  destruct (q x) eqn:Hq; simpl; rewrite IH; [reflexivity|].
  destruct (p x) eqn:Hp; [|reflexivity].
  apply Himp in Hp. congruence.
Qed.

Lemma filter_within {A} (p q : A -> bool) (l : list A) :
  (forall x, p x = true -> q x = true) ->
  List.filter p (List.filter q l) = List.filter p l.
Proof.
  intros Himp. induction l as [|x rest IH]; [reflexivity|]. simpl.
  destruct (q x) eqn:Hq; simpl; rewrite IH; [reflexivity|].
  destruct (p x) eqn:Hp; [|reflexivity].
  apply Himp in Hp. congruence.
Qed.

Section Own.

Variables (feed : string) (db1 db2 : Database).
Hypothesis Hown : rowsOfFeed db1 feed = rowsOfFeed db2 feed.

Lemma own_fields :
  List.filter (fun r => (feedId r =? feed)%string) (article_fields db1)
  = List.filter (fun r => (feedId r =? feed)%string) (article_fields db2).
Proof. now injection Hown. Qed.

Lemma own_comparisons :
  List.filter (fun c => (feed_id c =? feed)%string) (custom_comparisons db1)
  = List.filter (fun c => (feed_id c =? feed)%string) (custom_comparisons db2).
Proof. now injection Hown. Qed.

Lemma has_row_own name value :
  FieldStore.has_row db1 feed name value = FieldStore.has_row db2 feed name value.
Proof.
  unfold FieldStore.has_row.
  rewrite <- (existsb_within _ (fun r => (feedId r =? feed)%string) (article_fields db1)),
          <- (existsb_within _ (fun r => (feedId r =? feed)%string) (article_fields db2)).
  - now rewrite own_fields.
  - intros r Hr. now apply andb_true_iff in Hr as [Hr _]; apply andb_true_iff in Hr as [Hr _].
  - intros r Hr. now apply andb_true_iff in Hr as [Hr _]; apply andb_true_iff in Hr as [Hr _].
Qed.

Lemma hasPriorArticlesStored_own :
  hasPriorArticlesStored db1 feed = hasPriorArticlesStored db2 feed.
Proof.
  unfold hasPriorArticlesStored, FieldStore.hasArticlesStoredForFeed.
  rewrite <- (existsb_within _ (fun r => (feedId r =? feed)%string) (article_fields db1)),
          <- (existsb_within _ (fun r => (feedId r =? feed)%string) (article_fields db2)).
  - now rewrite own_fields.
  - intros r Hr. now apply andb_true_iff in Hr as [Hr _].
  - intros r Hr. now apply andb_true_iff in Hr as [Hr _].
Qed.

Lemma findIdFieldsForFeed_own candidates :
  FieldStore.findIdFieldsForFeed db1 feed candidates
  = FieldStore.findIdFieldsForFeed db2 feed candidates.
Proof.
  unfold FieldStore.findIdFieldsForFeed.
  rewrite <- (filter_within _ (fun r => (feedId r =? feed)%string) (article_fields db1)),
          <- (filter_within _ (fun r => (feedId r =? feed)%string) (article_fields db2)).
  - now rewrite own_fields.
  - intros r Hr. now apply andb_true_iff in Hr as [Hr _]; apply andb_true_iff in Hr as [Hr _].
  - intros r Hr. now apply andb_true_iff in Hr as [Hr _]; apply andb_true_iff in Hr as [Hr _].
Qed.

Lemma find_own names :
  ComparisonRepo.find db1 feed names = ComparisonRepo.find db2 feed names.
Proof.
  unfold ComparisonRepo.find.
  rewrite <- (filter_within _ (fun c => (feed_id c =? feed)%string) (custom_comparisons db1)),
          <- (filter_within _ (fun c => (feed_id c =? feed)%string) (custom_comparisons db2)).
  - now rewrite own_comparisons.
  - intros c Hc. now apply andb_true_iff in Hc as [Hc _].
  - intros c Hc. now apply andb_true_iff in Hc as [Hc _].
Qed.

Lemma filterForNewArticles_own articles :
  filterForNewArticles db1 feed articles = filterForNewArticles db2 feed articles.
Proof. unfold filterForNewArticles. now rewrite findIdFieldsForFeed_own. Qed.

Lemma areComparisonsStored_own fields :
  areComparisonsStored db1 feed fields = areComparisonsStored db2 feed fields.
Proof. unfold areComparisonsStored. now rewrite find_own. Qed.

Lemma articleFieldsSeenBefore_own article keys :
  articleFieldsSeenBefore db1 feed article keys
  = articleFieldsSeenBefore db2 feed article keys.
Proof.
  unfold articleFieldsSeenBefore, FieldStore.someFieldsExist.
  destruct (length _ =? 0)%nat; [reflexivity|].
  induction (fieldQueries article keys) as [|q rest IH]; [reflexivity|].
  simpl. now rewrite has_row_own, IH.
Qed.

Lemma checkBlockingComparisons_own blocking newArticles stored :
  checkBlockingComparisons db1 feed blocking newArticles stored
  = checkBlockingComparisons db2 feed blocking newArticles stored.
Proof.
  rewrite !checkBlockingComparisons_filter. apply List.filter_ext.
  intros a. now rewrite articleFieldsSeenBefore_own.
Qed.

Lemma checkPassingComparisons_own passing seenArticles stored :
  checkPassingComparisons db1 feed passing seenArticles stored
  = checkPassingComparisons db2 feed passing seenArticles stored.
Proof.
  unfold checkPassingComparisons. rewrite areComparisonsStored_own.
  destruct (length seenArticles =? 0)%nat; [reflexivity|].
  destruct (_ || _); [reflexivity|].
  destruct (length _ =? 0)%nat; [reflexivity|].
  apply omap_ext_in. intros a _. now rewrite articleFieldsSeenBefore_own.
Qed.

Lemma comparisonNamesToStore_own fields :
  comparisonNamesToStore db1 feed fields = comparisonNamesToStore db2 feed fields.
Proof. unfold comparisonNamesToStore. now rewrite find_own. Qed.

End Own.

(** Whether a batch of rows of one feed collides depends on the rows of
    that feed only. *)
Lemma field_insert_rows_own feed rows t1 t2 :
  (forall r, In r rows -> feedId r = feed) ->
  List.filter (fun r => (feedId r =? feed)%string) t1
  = List.filter (fun r => (feedId r =? feed)%string) t2 ->
  match FieldStore.insert_rows rows t1 with Ok _ => true | Throw _ => false end
  = match FieldStore.insert_rows rows t2 with Ok _ => true | Throw _ => false end.
Proof.
  revert t1 t2. induction rows as [|r rest IH]; intros t1 t2 Hfeed Hown; [reflexivity|].
  simpl.
  assert (Hr : feedId r = feed) by (apply Hfeed; now left).
  assert (Hkey : forall x, FieldStore.same_key r x = true -> (feedId x =? feed)%string = true).
  { intros x Hx. unfold FieldStore.same_key in Hx.
    apply andb_true_iff in Hx as [Hx _]. apply andb_true_iff in Hx as [Hx _].
    apply String.eqb_eq in Hx. apply String.eqb_eq. congruence. }
  rewrite <- (existsb_within _ _ t1 Hkey), <- (existsb_within _ _ t2 Hkey), Hown.
  destruct (existsb _ _); [reflexivity|].
  apply IH.
  - intros x Hx. apply Hfeed. now right.
  - rewrite !List.filter_app, Hown. reflexivity.
Qed.

Lemma comparison_insert_rows_own feed rows t1 t2 :
  (forall c, In c rows -> feed_id c = feed) ->
  List.filter (fun c => (feed_id c =? feed)%string) t1
  = List.filter (fun c => (feed_id c =? feed)%string) t2 ->
  match ComparisonRepo.insert_rows rows t1 with Ok _ => true | Throw _ => false end
  = match ComparisonRepo.insert_rows rows t2 with Ok _ => true | Throw _ => false end.
Proof.
  revert t1 t2. induction rows as [|c rest IH]; intros t1 t2 Hfeed Hown; [reflexivity|].
  simpl.
  assert (Hc : feed_id c = feed) by (apply Hfeed; now left).
  assert (Hkey : forall x, ComparisonRepo.same_key c x = true ->
                           (feed_id x =? feed)%string = true).
  { intros x Hx. unfold ComparisonRepo.same_key in Hx.
    apply andb_true_iff in Hx as [Hx _].
    apply String.eqb_eq in Hx. apply String.eqb_eq. congruence. }
  rewrite <- (existsb_within _ _ t1 Hkey), <- (existsb_within _ _ t2 Hkey), Hown.
  destruct (existsb _ _); [reflexivity|].
  apply IH.
  - intros x Hx. apply Hfeed. now right.
  - rewrite !List.filter_app, Hown. reflexivity.
Qed.

(** The rows that a call prepares all carry the feed of the call. *)
Lemma prepared_rows_feed feedId0 articles fields now r :
  In r (idRows feedId0 articles now ++ comparisonFieldRows feedId0 articles fields now) ->
  feedId r = feedId0.
Proof.
  intros Hin. apply in_app_or in Hin as [Hin|Hin].
  - unfold idRows in Hin. apply in_map_iff in Hin as [a [<- _]]. reflexivity.
  - unfold comparisonFieldRows in Hin.
    apply in_flat_map in Hin as [a [_ Hin]]. apply in_flat_map in Hin as [key [_ Hin]].
    destruct (getNestedPrimitiveValue _ _) as [value|]; [|contradiction].
    destruct (truthy value); [|contradiction].
    destruct Hin as [<-|[]]. reflexivity.
Qed.

Lemma prepared_names_feed db feedId0 fields c :
  In c (comparisonNamesToStore db feedId0 fields) -> feed_id c = feedId0.
Proof.
  unfold comparisonNamesToStore. intros Hin.
  apply in_map_iff in Hin as [name [<- _]]. reflexivity.
Qed.

Lemma storeArticlesCommits_own feed db1 db2 articles fields now :
  rowsOfFeed db1 feed = rowsOfFeed db2 feed ->
  storeArticlesCommits db1 feed articles fields now
  = storeArticlesCommits db2 feed articles fields now.
Proof.
  intros Hown. unfold storeArticlesCommits.
  rewrite (comparisonNamesToStore_own _ _ _ Hown).
  pose proof (field_insert_rows_own feed
                (idRows feed articles now ++ comparisonFieldRows feed articles fields now)
                (article_fields db1) (article_fields db2)
                (prepared_rows_feed _ _ _ _) (own_fields _ _ _ Hown)) as Hrows.
  pose proof (comparison_insert_rows_own feed
                (comparisonNamesToStore db2 feed fields)
                (custom_comparisons db1) (custom_comparisons db2)
                (prepared_names_feed _ _ _) (own_comparisons _ _ _ Hown)) as Hnames.
  destruct (FieldStore.insert_rows _ (article_fields db1)),
           (FieldStore.insert_rows _ (article_fields db2)); try discriminate;
    destruct (ComparisonRepo.insert_rows _ (custom_comparisons db1)),
             (ComparisonRepo.insert_rows _ (custom_comparisons db2));
    try discriminate; reflexivity.
Qed.

Lemma committed_own feed db1 db2 articles fields now :
  rowsOfFeed db1 feed = rowsOfFeed db2 feed ->
  rowsOfFeed (committed db1 feed articles fields now) feed
  = rowsOfFeed (committed db2 feed articles fields now) feed.
Proof.
  intros Hown. unfold rowsOfFeed, committed. simpl.
  rewrite (comparisonNamesToStore_own _ _ _ Hown).
  rewrite !(List.filter_app _ (article_fields _)), !(List.filter_app _ (custom_comparisons _)).
  now rewrite (own_fields _ _ _ Hown), (own_comparisons _ _ _ Hown).
Qed.

Lemma storeArticles_own feed db1 db2 articles options now :
  rowsOfFeed db1 feed = rowsOfFeed db2 feed ->
  rowsOfFeed (snd (storeArticles feed articles options now db1)) feed
  = rowsOfFeed (snd (storeArticles feed articles options now db2)) feed.
Proof.
  intros Hown. rewrite !storeArticles_all_or_nothing. simpl.
  rewrite (storeArticlesCommits_own _ _ _ _ _ _ Hown).
  destruct (storeArticlesCommits db2 _ _ _ _); [|assumption].
  now apply committed_own.
Qed.

Lemma when_storeArticles_own b feed db1 db2 articles options now :
  rowsOfFeed db1 feed = rowsOfFeed db2 feed ->
  rowsOfFeed (snd (when b (storeArticles feed articles options now) db1)) feed
  = rowsOfFeed (snd (when b (storeArticles feed articles options now) db2)) feed.
Proof.
  intros Hown. destruct b; simpl; [|assumption]. now apply storeArticles_own.
Qed.

Lemma Pass_newArticles_own db1 db2 options articles :
  rowsOfFeed db1 (opt_id options) = rowsOfFeed db2 (opt_id options) ->
  Pass.newArticles db1 options articles = Pass.newArticles db2 options articles.
Proof. intros Hown. unfold Pass.newArticles. now apply filterForNewArticles_own. Qed.

Lemma Pass_seenArticles_own db1 db2 options articles :
  rowsOfFeed db1 (opt_id options) = rowsOfFeed db2 (opt_id options) ->
  Pass.seenArticles db1 options articles = Pass.seenArticles db2 options articles.
Proof. intros Hown. unfold Pass.seenArticles. now rewrite (Pass_newArticles_own _ _ _ _ Hown). Qed.

Lemma Pass_storedComparisons_own db1 db2 options :
  rowsOfFeed db1 (opt_id options) = rowsOfFeed db2 (opt_id options) ->
  Pass.storedComparisons db1 options = Pass.storedComparisons db2 options.
Proof.
  intros Hown. unfold Pass.storedComparisons, Pass.comparisonStorageResults.
  now rewrite (areComparisonsStored_own _ _ _ Hown).
Qed.

Lemma Pass_unstoredComparisons_own db1 db2 options :
  rowsOfFeed db1 (opt_id options) = rowsOfFeed db2 (opt_id options) ->
  Pass.unstoredComparisons db1 options = Pass.unstoredComparisons db2 options.
Proof.
  intros Hown. unfold Pass.unstoredComparisons, Pass.comparisonStorageResults.
  now rewrite (areComparisonsStored_own _ _ _ Hown).
Qed.

Lemma Pass_articlesPastBlocks_own db1 db2 options articles :
  rowsOfFeed db1 (opt_id options) = rowsOfFeed db2 (opt_id options) ->
  Pass.articlesPastBlocks db1 options articles
  = Pass.articlesPastBlocks db2 options articles.
Proof.
  intros Hown. unfold Pass.articlesPastBlocks.
  rewrite (Pass_newArticles_own _ _ _ _ Hown), (Pass_storedComparisons_own _ _ _ Hown).
  now apply checkBlockingComparisons_own.
Qed.

Lemma Pass_articlesPassedComparisons_own db1 db2 options articles :
  rowsOfFeed db1 (opt_id options) = rowsOfFeed db2 (opt_id options) ->
  Pass.articlesPassedComparisons db1 options articles
  = Pass.articlesPassedComparisons db2 options articles.
Proof.
  intros Hown. unfold Pass.articlesPassedComparisons.
  rewrite (Pass_seenArticles_own _ _ _ _ Hown), (Pass_storedComparisons_own _ _ _ Hown).
  now apply checkPassingComparisons_own.
Qed.

Lemma Pass_persisted_own db1 db2 options articles now :
  rowsOfFeed db1 (opt_id options) = rowsOfFeed db2 (opt_id options) ->
  rowsOfFeed (Pass.persisted db1 options articles now) (opt_id options)
  = rowsOfFeed (Pass.persisted db2 options articles now) (opt_id options).
Proof.
  intros Hown.
  unfold Pass.persisted, Pass.storeUnstoredComparisons, Pass.storePassedArticles,
    Pass.storeNewArticles.
  rewrite (Pass_newArticles_own _ _ _ _ Hown),
          (Pass_storedComparisons_own _ _ _ Hown),
          (Pass_unstoredComparisons_own _ _ _ Hown),
          (Pass_articlesPassedComparisons_own _ _ _ _ Hown).
  apply when_storeArticles_own, when_storeArticles_own, when_storeArticles_own.
  exact Hown.
Qed.

(** X7. A poll of a feed reads the rows of that feed only. On two databases
    that hold the same rows for the feed, whatever they hold for other
    feeds, [getArticlesToDeliverFromXml] returns the same result, and the
    two databases hold the same rows for the feed afterwards. *)
Theorem getArticlesToDeliverFromXml_reads_own_rows feedXml options now db1 db2 :
  rowsOfFeed db1 (opt_id options) = rowsOfFeed db2 (opt_id options) ->
  fst (getArticlesToDeliverFromXml feedXml options now db1)
  = fst (getArticlesToDeliverFromXml feedXml options now db2)
  /\ rowsOfFeed (snd (getArticlesToDeliverFromXml feedXml options now db1)) (opt_id options)
     = rowsOfFeed (snd (getArticlesToDeliverFromXml feedXml options now db2))
         (opt_id options).
Proof.
  intros Hown.
  destruct (getArticlesFromXml feedXml) as [articles|e] eqn:Hxml.
  - destruct articles as [|a rest] eqn:Harticles.
    { rewrite !(getArticlesToDeliverFromXml_empty _ _ _ _ Hxml). now split. }
    rewrite <- Harticles in *.
    assert (Hne : articles <> []) by (rewrite Harticles; discriminate).
    pose proof (hasPriorArticlesStored_own _ _ _ Hown) as Hprior.
    destruct (hasPriorArticlesStored db2 (opt_id options)) eqn:Hprior2.
    + rewrite (getArticlesToDeliverFromXml_pass _ _ _ _ _ Hxml Hne Hprior),
              (getArticlesToDeliverFromXml_pass _ _ _ _ _ Hxml Hne Hprior2).
      cbn [fst snd]. split; [|now apply Pass_persisted_own].
      unfold Pass.result.
      now rewrite (Pass_articlesPastBlocks_own _ _ _ _ Hown),
                  (Pass_articlesPassedComparisons_own _ _ _ _ Hown).
    + rewrite (getArticlesToDeliverFromXml_seed _ _ _ _ _ Hxml Hne Hprior),
              (getArticlesToDeliverFromXml_seed _ _ _ _ _ Hxml Hne Hprior2).
      cbn [fst snd]. split; [reflexivity|]. now apply storeArticles_own.
  - unfold getArticlesToDeliverFromXml, async_bind, async_lift. rewrite Hxml.
    now split.
Qed.

Lemma committed_leaves_others feed db articles fields now :
  rowsOfOtherFeeds (committed db feed articles fields now) feed
  = rowsOfOtherFeeds db feed.
Proof.
  unfold rowsOfOtherFeeds, committed. simpl.
  rewrite !(List.filter_app _ (article_fields _)), !(List.filter_app _ (custom_comparisons _)).
  rewrite (filter_none _ (idRows _ _ _ ++ _)), (filter_none _ (comparisonNamesToStore _ _ _)).
  - now rewrite !app_nil_r.
  - intros c Hc. apply prepared_names_feed in Hc. rewrite Hc, String.eqb_refl. reflexivity.
  - intros r Hr. apply prepared_rows_feed in Hr. rewrite Hr, String.eqb_refl. reflexivity.
Qed.

Lemma storeArticles_leaves_others feed db articles options now :
  rowsOfOtherFeeds (snd (storeArticles feed articles options now db)) feed
  = rowsOfOtherFeeds db feed.
Proof.
  rewrite storeArticles_all_or_nothing. simpl.
  destruct (storeArticlesCommits _ _ _ _ _); [|reflexivity].
  apply committed_leaves_others.
Qed.

Lemma when_storeArticles_leaves_others b feed db articles options now :
  rowsOfOtherFeeds (snd (when b (storeArticles feed articles options now) db)) feed
  = rowsOfOtherFeeds db feed.
Proof. destruct b; simpl; [|reflexivity]. apply storeArticles_leaves_others. Qed.

(** X8. A poll of a feed writes rows of that feed only: the rows that the
    two tables hold for other feeds are the same after
    [getArticlesToDeliverFromXml] as before, in the same order, whether the
    pass is a seed pass or a later one and whatever its transactions do. So
    is what they hold after one call of [storeArticles]. *)
Theorem getArticlesToDeliverFromXml_writes_own_rows feedXml options now db :
  rowsOfOtherFeeds (snd (getArticlesToDeliverFromXml feedXml options now db))
    (opt_id options)
  = rowsOfOtherFeeds db (opt_id options)
  /\ forall articles storeOptions,
       rowsOfOtherFeeds
         (snd (storeArticles (opt_id options) articles storeOptions now db))
         (opt_id options)
       = rowsOfOtherFeeds db (opt_id options).
Proof.
  split; [|intros; apply storeArticles_leaves_others].
  destruct (getArticlesFromXml feedXml) as [articles|e] eqn:Hxml.
  - destruct articles as [|a rest] eqn:Harticles.
    { now rewrite (getArticlesToDeliverFromXml_empty _ _ _ _ Hxml). }
    rewrite <- Harticles in *.
    assert (Hne : articles <> []) by (rewrite Harticles; discriminate).
    destruct (hasPriorArticlesStored db (opt_id options)) eqn:Hprior.
    + rewrite (getArticlesToDeliverFromXml_pass _ _ _ _ _ Hxml Hne Hprior).
      cbn [snd]. unfold Pass.persisted, Pass.storeUnstoredComparisons,
        Pass.storePassedArticles, Pass.storeNewArticles.
      now rewrite !when_storeArticles_leaves_others.
    + rewrite (getArticlesToDeliverFromXml_seed _ _ _ _ _ Hxml Hne Hprior).
      cbn [snd]. apply storeArticles_leaves_others.
  - unfold getArticlesToDeliverFromXml, async_bind, async_lift. now rewrite Hxml.
Qed.

End Isolation.

(** ** What the parser's events make of the articles *)

Section ParsedArticles.

Context {env : Collaborators}.






End ParsedArticles.

(** ** What a pass returns *)

Section PassResult.

Context {env : Collaborators}.

Lemma Pass_newArticles_NoDup db options articles :
  List.NoDup (Pass.newArticles db options articles).
Proof.
  unfold Pass.newArticles.
  apply (NoDup_map_inv (fun n => idHash (flattened n))).
  rewrite filterForNewArticles_idHashes. apply NoDup_filter.
  apply JsMapOrder.keys_of_entries_distinct.
Qed.

Lemma Pass_newArticles_In db options articles n :
  In n (Pass.newArticles db options articles) -> In n articles.
Proof.
  intros Hn. destruct (filterForNewArticles_origin _ _ _ _ Hn)
    as [_ [before [after [Hsplit _]]]].
  rewrite Hsplit. apply in_or_app. right. now left.
Qed.

Lemma sublist_List_NoDup {A} (l1 l2 : list A) :
  sublist l1 l2 -> List.NoDup l2 -> List.NoDup l1.
Proof.
  intros Hsub Hnd. apply NoDup_ListNoDup. apply NoDup_ListNoDup in Hnd.
  eapply sublist_NoDup; eassumption.
Qed.

Lemma Pass_counts db options articles :
  (length (Pass.newArticles db options articles)
   + length (Pass.seenArticles db options articles) <= length articles)%nat.
Proof.
  set (isNew := fun article : Article =>
         existsb (fun a => (idHash (flattened a) =? idHash (flattened article))%string)
                 (Pass.newArticles db options articles)).
  assert (Hnew : (length (Pass.newArticles db options articles)
                  <= length (List.filter isNew articles))%nat).
  { apply NoDup_incl_length; [apply Pass_newArticles_NoDup|].
    intros n Hn. apply filter_In. split; [now apply Pass_newArticles_In in Hn|].
    unfold isNew. apply existsb_exists. exists n.
    split; [assumption|apply String.eqb_refl]. }
  pose proof (List.filter_length isNew articles) as Hsplit.
  change (List.filter (fun x => negb (isNew x)) articles)
    with (Pass.seenArticles db options articles) in Hsplit.
  lia.
Qed.

Lemma Pass_result_In db options articles now a :
  In a (articlesToDeliver (Pass.result db options articles now)) -> In a articles.
Proof.
  unfold Pass.result. cbn [articlesToDeliver]. intros Ha.
  apply (sublist_In _ _ _ (filterArticlesBasedOnDateChecks_sublist _ _ _)) in Ha.
  apply in_rev in Ha. apply in_app_or in Ha as [Ha|Ha].
  - apply (sublist_In _ _ _ (Pass_articlesPastBlocks_sublist _ _ _)) in Ha.
    now apply Pass_newArticles_In in Ha.
  - exact (sublist_In _ _ _ (Pass_articlesPassedComparisons_sublist _ _ _) Ha).
Qed.

Lemma Pass_result_NoDup db options articles now :
  List.NoDup articles ->
  List.NoDup (articlesToDeliver (Pass.result db options articles now)).
Proof.
  intros Hnd. unfold Pass.result. cbn [articlesToDeliver].
  apply (sublist_List_NoDup _ _ (filterArticlesBasedOnDateChecks_sublist _ _ _)).
  apply List.NoDup_rev. apply NoDup_ListNoDup, NoDup_app. split; [|split].
  - apply NoDup_ListNoDup.
    apply (sublist_List_NoDup _ _ (Pass_articlesPastBlocks_sublist _ _ _)).
    apply Pass_newArticles_NoDup.
  - intros a Hpast Hpassed.
    apply list_elem_of_In in Hpast. apply list_elem_of_In in Hpassed.
    apply (sublist_In _ _ _ (Pass_articlesPastBlocks_sublist _ _ _)) in Hpast.
    unfold Pass.articlesPassedComparisons in Hpassed.
    apply (sublist_In _ _ _ (checkPassingComparisons_sublist _ _ _ _ _)) in Hpassed.
    exact (new_article_is_not_seen _ _ _ _ Hpast Hpassed).
  - apply NoDup_ListNoDup.
    exact (sublist_List_NoDup _ _ (Pass_articlesPassedComparisons_sublist _ _ _) Hnd).
Qed.

Lemma Pass_result_length db options articles now :
  (length (articlesToDeliver (Pass.result db options articles now)) <= length articles)%nat.
Proof.
  unfold Pass.result. cbn [articlesToDeliver].
  pose proof (sublist_length _ _ (filterArticlesBasedOnDateChecks_sublist
                (rev (Pass.articlesPastBlocks db options articles ++
                      Pass.articlesPassedComparisons db options articles))
                (dateChecks options) now)) as Hdate.
  rewrite length_rev, length_app in Hdate.
  pose proof (sublist_length _ _ (Pass_articlesPastBlocks_sublist db options articles))
    as Hpast.
  pose proof (sublist_length _ _
                (checkPassingComparisons_sublist db (opt_id options)
                   (passingComparisons options) (Pass.seenArticles db options articles)
                   (Pass.storedComparisons db options))) as Hpassed.
  fold (Pass.articlesPassedComparisons db options articles) in Hpassed.
  pose proof (Pass_counts db options articles). lia.
Qed.

(** X23. What [getArticlesToDeliverFromXml] returns. When the XML does not
    parse, the pass throws what the parser threw and writes nothing. When
    it parses, [allArticles] is the parsed list; every article to deliver is
    one of them; there are no more of them than articles; and when the
    parsed articles are pairwise different, no article is delivered
    twice. *)
Theorem getArticlesToDeliverFromXml_delivers_parsed_articles feedXml options now db :
  (forall e,
      getArticlesFromXml feedXml = Throw e ->
      getArticlesToDeliverFromXml feedXml options now db = (Throw e, db))
  /\ (forall articles,
         getArticlesFromXml feedXml = Ok articles ->
         exists deliver,
           fst (getArticlesToDeliverFromXml feedXml options now db)
           = Ok (mkDeliveryResult deliver articles)
           /\ (forall a, In a deliver -> In a articles)
           /\ (length deliver <= length articles)%nat
           /\ (List.NoDup articles -> List.NoDup deliver)).
Proof.
  split.
  - intros e Hxml. unfold getArticlesToDeliverFromXml, async_bind, async_lift.
    now rewrite Hxml.
  - intros articles Hxml. destruct articles as [|a rest] eqn:Harticles.
    { rewrite (getArticlesToDeliverFromXml_empty _ _ _ _ Hxml). exists [].
      split; [reflexivity|]. split; [intros x []|]. split; [cbn [length]; lia|]. constructor. }
    rewrite <- Harticles in *.
    assert (Hne : articles <> []) by (rewrite Harticles; discriminate).
    destruct (hasPriorArticlesStored db (opt_id options)) eqn:Hprior.
    + rewrite (getArticlesToDeliverFromXml_pass _ _ _ _ _ Hxml Hne Hprior).
      exists (articlesToDeliver (Pass.result db options articles now)).
      split; [reflexivity|]. split; [|split].
      * intros a0. apply Pass_result_In.
      * apply Pass_result_length.
      * apply Pass_result_NoDup.
    + rewrite (getArticlesToDeliverFromXml_seed _ _ _ _ _ Hxml Hne Hprior).
      exists []. split; [reflexivity|]. split; [intros x []|].
      split; [cbn [length]; lia|]. constructor.
Qed.

End PassResult.

(** ** Forgetting a feed *)

Section Forget.

Context {env : Collaborators}.

Lemma filter_filter_negb {A} (p : A -> bool) (l : list A) :
  List.filter p (List.filter (fun x => negb (p x)) l) = [].
Proof.
  apply filter_none. intros x Hx. apply filter_In in Hx as [_ Hx].
  now apply negb_true_iff in Hx.
Qed.

Lemma filter_idem {A} (p : A -> bool) (l : list A) :
  List.filter p (List.filter p l) = List.filter p l.
Proof. apply filter_all. intros x Hx. now apply filter_In in Hx as [_ Hx]. Qed.

Lemma filter_other_feed {A} (feedOf : A -> string) (feed other : string) (l : list A) :
  other <> feed ->
  List.filter (fun x => (feedOf x =? other)%string)
    (List.filter (fun x => negb (feedOf x =? feed)%string) l)
  = List.filter (fun x => (feedOf x =? other)%string) l.
Proof.
  intros Hne. apply filter_within. intros x Hx.
  apply String.eqb_eq in Hx. apply negb_true_iff, String.eqb_neq. congruence.
Qed.

Lemma deleteInfoForFeed_db feed db :
  deleteInfoForFeed feed db =
  (Ok tt,
   mkDatabase
     (List.filter (fun r => negb (feedId r =? feed)%string) (article_fields db))
     (List.filter (fun c => negb (feed_id c =? feed)%string) (custom_comparisons db))).
Proof. reflexivity. Qed.

(** X11. [deleteInfoForFeed] forgets the feed and nothing else. Afterwards
    neither table holds a row of the feed, the rows of every other feed are
    what they were, the feed has no prior articles and no registered
    comparison, and the next poll of the feed is a seed pass: it delivers
    nothing, however many articles the feed has. *)
Theorem deleteInfoForFeed_forgets_feed feed db :
  let db' := snd (deleteInfoForFeed feed db) in
  fst (deleteInfoForFeed feed db) = Ok tt
  /\ rowsOfFeed db' feed = ([], [])
  /\ rowsOfOtherFeeds db' feed = rowsOfOtherFeeds db feed
  /\ (forall other, other <> feed -> rowsOfFeed db' other = rowsOfFeed db other)
  /\ hasPriorArticlesStored db' feed = false
  /\ (forall key, ~ comparisonRegistered db' feed key)
  /\ (forall feedXml options now articles,
         opt_id options = feed ->
         getArticlesFromXml feedXml = Ok articles ->
         fst (getArticlesToDeliverFromXml feedXml options now db')
         = Ok (mkDeliveryResult [] articles)).
Proof.
  cbv zeta. rewrite deleteInfoForFeed_db. cbn [fst snd].
  set (db' := mkDatabase _ _).
  assert (Hown : rowsOfFeed db' feed = ([], [])).
  { unfold rowsOfFeed, db'. cbn [article_fields custom_comparisons].
    f_equal.
    - apply (filter_filter_negb (fun r => (feedId r =? feed)%string)).
    - apply (filter_filter_negb (fun c => (feed_id c =? feed)%string)). }
  assert (Hprior : hasPriorArticlesStored db' feed = false).
  { unfold hasPriorArticlesStored, FieldStore.hasArticlesStoredForFeed.
    apply not_true_iff_false. intros Hrow.
    apply existsb_exists in Hrow as [r [Hin Hr]].
    unfold db' in Hin. cbn [article_fields] in Hin.
    apply filter_In in Hin as [_ Hin]. apply negb_true_iff in Hin.
    apply andb_true_iff in Hr as [Hr _]. congruence. }
  split; [reflexivity|]. split; [exact Hown|]. split; [|split; [|split; [|split]]].
  - unfold rowsOfOtherFeeds, db'. cbn [article_fields custom_comparisons].
    f_equal; apply filter_idem.
  - intros other Hne. unfold rowsOfFeed, db'. cbn [article_fields custom_comparisons].
    f_equal.
    + now apply (filter_other_feed feedId).
    + now apply (filter_other_feed feed_id).
  - exact Hprior.
  - intros key [c [Hin [Hfeed _]]]. unfold db' in Hin. cbn [custom_comparisons] in Hin.
    apply filter_In in Hin as [_ Hin]. apply negb_true_iff, String.eqb_neq in Hin.
    contradiction.
  - intros feedXml options now articles Hid Hxml. subst feed.
    destruct articles as [|a rest] eqn:Harticles.
    { now rewrite (getArticlesToDeliverFromXml_empty _ _ _ _ Hxml). }
    rewrite <- Harticles in *.
    assert (Hne : articles <> []) by (rewrite Harticles; discriminate).
    now rewrite (getArticlesToDeliverFromXml_seed _ _ _ _ _ Hxml Hne Hprior).
Qed.

End Forget.

(** ** The cache of parsed articles *)

Section Cache.

Context {env : Collaborators} {fetcher : FetchCollaborators}.

Lemma orUndefined_idem value : orUndefined (orUndefined value) = orUndefined value.
Proof.
  destruct value as [s|]; [|reflexivity]. simpl.
  destruct (truthy s) eqn:Hs; [|reflexivity]. simpl. now rewrite Hs.
Qed.

Lemma orUndefinedBool_idem value :
  orUndefinedBool (orUndefinedBool value) = orUndefinedBool value.
Proof. now destruct value as [[|]|]. Qed.

(** X12. The cache key of a URL and options is the key of their normal
    form. It does not depend on [findRssFromHtml] or [executeFetch], nor on
    the URL of the lookup details, of which only the key is serialised. A
    format option that is the empty string or [false] counts as absent, and
    so does an empty list of external feed properties. Every key begins
    with the prefix of the article cache. *)
Theorem calculateCacheKeyForArticles_normalises url options :
  (forall findRss exec,
      calculateCacheKeyForArticles url
        (mkFetchOptions (formatOptions options) (externalFeedProperties options)
           findRss exec (requestLookupDetails options))
      = calculateCacheKeyForArticles url options)
  /\ calculateCacheKeyForArticles url (withoutFlags options)
     = calculateCacheKeyForArticles url options
  /\ (forall details lookupUrl,
         calculateCacheKeyForArticles url
           (mkFetchOptions (formatOptions options) (externalFeedProperties options)
              (findRssFromHtml options) (executeFetch options)
              (Some (FeedRequestLookupDetails.mk
                       (FeedRequestLookupDetails.key details) lookupUrl)))
         = calculateCacheKeyForArticles url
             (mkFetchOptions (formatOptions options) (externalFeedProperties options)
                (findRssFromHtml options) (executeFetch options) (Some details)))
  /\ calculateCacheKeyForArticles url options
     = calculateCacheKeyForArticles url
         (mkFetchOptions
            (mkFormatOptions
               (orUndefined (dateFormat (formatOptions options)))
               (orUndefined (dateLocale (formatOptions options)))
               (orUndefined (dateTimezone (formatOptions options)))
               (orUndefinedBool (disableImageLinkPreviews (formatOptions options))))
            (match externalFeedProperties options with
             | Some [] => None
             | properties => properties
             end)
            None None (requestLookupDetails options))
  /\ (forall findRss exec,
         calculateCacheKeyForArticles url
           (mkFetchOptions (mkFormatOptions (Some "") (Some "") (Some "") (Some false))
              (Some []) findRss exec None)
         = calculateCacheKeyForArticles url
             (mkFetchOptions (mkFormatOptions None None None None) None None None None))
  /\ String.prefix "articles:com:" (calculateCacheKeyForArticles url options) = true.
Proof.
  split; [|split; [|split; [|split; [|split]]]].
  - reflexivity.
  - reflexivity.
  - reflexivity.
  - unfold calculateCacheKeyForArticles. cbn [formatOptions externalFeedProperties
      requestLookupDetails dateFormat dateLocale dateTimezone disableImageLinkPreviews].
    rewrite !orUndefined_idem, orUndefinedBool_idem.
    destruct (externalFeedProperties options) as [[|property properties]|]; reflexivity.
  - reflexivity.
  - apply prefix_true_iff. eexists. reflexivity.
Qed.

Lemma getFeedArticlesFromCache_entry url options w entry data :
  cache w !! calculateCacheKeyForArticles url options = Some entry ->
  entry_body entry <> ""%string ->
  inflateBase64 (entry_body entry) = Ok (stringifyOutput data) ->
  parseOutput (stringifyOutput data) = Ok data ->
  getFeedArticlesFromCache url options w = Some (Ok (Some data), w).
Proof.
  intros Hentry Hbody Hinflate Hparse.
  unfold getFeedArticlesFromCache, fetching_bind, CacheStorageService.get.
  rewrite Hentry. cbn [fmap option_fmap option_map].
  apply truthy_true in Hbody. rewrite Hbody. cbn [negb].
  unfold fetching_lift, fetching_ret. now rewrite Hinflate, Hparse.
Qed.

Lemma getFeedArticlesFromCache_absent url options w :
  cache w !! calculateCacheKeyForArticles url options = None ->
  getFeedArticlesFromCache url options w = Some (Ok None, w).
Proof.
  intros Hentry.
  unfold getFeedArticlesFromCache, fetching_bind, CacheStorageService.get.
  now rewrite Hentry.
Qed.

(** X13. What [setFeedArticlesInCache] writes, [getFeedArticlesFromCache]
    reads back, when the codecs invert each other on the data and the
    compressed text is not empty. The entry lives 300 seconds unless the old
    time to live is kept; no other key changes and no request is made. *)
Theorem setFeedArticlesInCache_then_get url options data useOldTTL w :
  inflateBase64 (deflateBase64 (stringifyOutput data)) = Ok (stringifyOutput data) ->
  parseOutput (stringifyOutput data) = Ok data ->
  deflateBase64 (stringifyOutput data) <> ""%string ->
  exists w',
    setFeedArticlesInCache url options data useOldTTL w = Some (Ok tt, w')
    /\ getFeedArticlesFromCache url options w' = Some (Ok (Some data), w')
    /\ doFeedArticlesExistInCache url options w' = Some (Ok true, w')
    /\ requests w' = requests w
    /\ (forall other, other <> calculateCacheKeyForArticles url options ->
                      cache w' !! other = cache w !! other)
    /\ (default false useOldTTL = false ->
        entry_ttl <$> cache w' !! calculateCacheKeyForArticles url options
        = Some (Some 300%Z))
    /\ (default false useOldTTL = true ->
        entry_ttl <$> cache w' !! calculateCacheKeyForArticles url options
        = Some (cache w !! calculateCacheKeyForArticles url options ≫= entry_ttl)).
Proof.
  intros Hinflate Hparse Hbody.
  unfold setFeedArticlesInCache, CacheStorageService.set.
  eexists. split; [reflexivity|].
  split; [|split; [|split; [|split; [|split]]]].
  - eapply getFeedArticlesFromCache_entry; cbn [cache]; [apply lookup_insert_eq|..];
      assumption.
  - unfold doFeedArticlesExistInCache, CacheStorageService.exists_. cbn [cache].
    rewrite lookup_insert_eq. rewrite bool_decide_eq_true_2; [reflexivity|]. eauto.
  - reflexivity.
  - intros other Hother. cbn [cache]. now rewrite lookup_insert_ne.
  - intros Hold. cbn [cache]. rewrite lookup_insert_eq, Hold. reflexivity.
  - intros Hold. cbn [cache]. rewrite lookup_insert_eq, Hold. reflexivity.
Qed.

(** X14. After [invalidateFeedArticlesCache] the articles of the URL and
    options are not in the cache: [getFeedArticlesFromCache] returns null
    and [doFeedArticlesExistInCache] false. The entries of other keys stay,
    and no request is made. *)
Theorem invalidateFeedArticlesCache_forgets url options w :
  exists w',
    invalidateFeedArticlesCache url options w = Some (Ok tt, w')
    /\ getFeedArticlesFromCache url options w' = Some (Ok None, w')
    /\ doFeedArticlesExistInCache url options w' = Some (Ok false, w')
    /\ requests w' = requests w
    /\ (forall other, other <> calculateCacheKeyForArticles url options ->
                      cache w' !! other = cache w !! other).
Proof.
  unfold invalidateFeedArticlesCache, CacheStorageService.del.
  eexists. split; [reflexivity|]. split; [|split; [|split]].
  - apply getFeedArticlesFromCache_absent. cbn [cache]. apply lookup_delete_eq.
  - unfold doFeedArticlesExistInCache, CacheStorageService.exists_. cbn [cache].
    rewrite lookup_delete_eq. rewrite bool_decide_eq_false_2; [reflexivity|].
    intros [entry Hentry]. discriminate.
  - reflexivity.
  - intros other Hother. cbn [cache]. now rewrite lookup_delete_ne.
Qed.

(** X15. [refreshFeedArticlesCacheExpiration] changes a time to live and
    nothing else: the entry of the key, when there is one, keeps its body
    and lives 300 seconds again; when there is none, none is made. What
    [getFeedArticlesFromCache] returns is the same before and after, for
    every URL and options. *)
Theorem refreshFeedArticlesCacheExpiration_keeps_bodies url options w :
  exists w',
    refreshFeedArticlesCacheExpiration url options w = Some (Ok tt, w')
    /\ requests w' = requests w
    /\ (forall key, entry_body <$> cache w' !! key = entry_body <$> cache w !! key)
    /\ entry_ttl <$> cache w' !! calculateCacheKeyForArticles url options
       = (fun _ => Some 300%Z) <$> cache w !! calculateCacheKeyForArticles url options
    /\ (forall other, other <> calculateCacheKeyForArticles url options ->
                      cache w' !! other = cache w !! other)
    /\ (forall url' options',
           fst <$> getFeedArticlesFromCache url' options' w'
           = fst <$> getFeedArticlesFromCache url' options' w).
Proof.
  unfold refreshFeedArticlesCacheExpiration, CacheStorageService.setExpire.
  eexists. split; [reflexivity|]. cbn [cache requests].
  assert (Hbodies : forall key,
             entry_body <$>
               alter (fun e => mkCacheEntry (entry_body e) (Some (60 * 5)%Z))
                 (calculateCacheKeyForArticles url options) (cache w) !! key
             = entry_body <$> cache w !! key).
  { intros key. rewrite lookup_alter.
    destruct (decide (calculateCacheKeyForArticles url options = key)) as [<-|_];
      [|reflexivity].
    now destruct (cache w !! calculateCacheKeyForArticles url options). }
  split; [reflexivity|]. split; [exact Hbodies|]. split; [|split].
  - rewrite lookup_alter_eq.
    now destruct (cache w !! calculateCacheKeyForArticles url options).
  - intros other Hother. now rewrite lookup_alter_ne.
  - intros url' options'.
    unfold getFeedArticlesFromCache, fetching_bind, CacheStorageService.get.
    cbn [cache]. rewrite Hbodies.
    destruct (entry_body <$> cache w !! calculateCacheKeyForArticles url' options')
      as [compressed|]; [|reflexivity].
    destruct (negb (truthy compressed)); [reflexivity|].
    unfold fetching_lift, fetching_ret.
    destruct (inflateBase64 compressed) as [jsonText|e]; [|reflexivity].
    destruct (parseOutput jsonText); reflexivity.
Qed.

End Cache.

(** The round trip of X13 on the output of the example feed. *)
Lemma setFeedArticlesInCache_then_get_witness :
  exists w',
    setFeedArticlesInCache (env := FetchScenario.parser) (fetcher := FetchScenario.web)
      "https://site.test/feed.xml" FetchScenario.plain FetchScenario.outputA None
      FetchScenario.emptyWorld = Some (Ok tt, w')
    /\ getFeedArticlesFromCache (env := FetchScenario.parser) (fetcher := FetchScenario.web)
         "https://site.test/feed.xml" FetchScenario.plain w'
       = Some (Ok (Some FetchScenario.outputA), w').
Proof.
  destruct (setFeedArticlesInCache_then_get
              (env := FetchScenario.parser) (fetcher := FetchScenario.web)
              "https://site.test/feed.xml" FetchScenario.plain FetchScenario.outputA None
              FetchScenario.emptyWorld)
    as [w' [Hset [Hget _]]]; [reflexivity|reflexivity|discriminate|].
  exists w'. split; [exact Hset|exact Hget].
Defined.

(** ** Fetching the articles of a URL *)

Section Fetch.

Context {env : Collaborators} {fetcher : FetchCollaborators}.

(** Reading the cache does not change the world, and needs no fuel. *)
Lemma getFeedArticlesFromCache_world url options w :
  exists r, getFeedArticlesFromCache url options w = Some (r, w).
Proof.
  unfold getFeedArticlesFromCache, fetching_bind, CacheStorageService.get.
  destruct (entry_body <$> cache w !! calculateCacheKeyForArticles url options)
    as [compressed|]; [|eexists; reflexivity].
  destruct (negb (truthy compressed)); [eexists; reflexivity|].
  unfold fetching_lift, fetching_ret.
  destruct (inflateBase64 compressed) as [jsonText|e]; [|eexists; reflexivity].
  destruct (parseOutput jsonText); eexists; reflexivity.
Qed.

Lemma fetchFeedArticles_cache_throws fuel url options w e w0 :
  getFeedArticlesFromCache url (withoutFlags options) w = Some (Throw e, w0) ->
  fetchFeedArticles (S fuel) url options w = Some (Throw e, w).
Proof.
  intros Hcache. destruct (getFeedArticlesFromCache_world url (withoutFlags options) w)
    as [r Hr]. rewrite Hr in Hcache. injection Hcache as Hresult _. subst r.
  cbn [fetchFeedArticles]. unfold fetching_bind at 1. now rewrite Hr.
Qed.

Lemma fetchFeedArticles_hit fuel url options w cached w0 :
  getFeedArticlesFromCache url (withoutFlags options) w = Some (Ok (Some cached), w0) ->
  fetchFeedArticles (S fuel) url options w =
  Some (Ok (mkFetchedArticles (Some cached) url),
        mkWorld
          (alter (fun e => mkCacheEntry (entry_body e) (Some 300%Z))
                 (calculateCacheKeyForArticles url options) (cache w))
          (requests w)).
Proof.
  intros Hcache. destruct (getFeedArticlesFromCache_world url (withoutFlags options) w)
    as [r Hr]. rewrite Hr in Hcache. injection Hcache as Hresult _. subst r.
  cbn [fetchFeedArticles]. unfold fetching_bind at 1. rewrite Hr.
  reflexivity.
Qed.

Lemma fetchFeedArticles_miss fuel url options w w0 :
  getFeedArticlesFromCache url (withoutFlags options) w = Some (Ok None, w0) ->
  fetchFeedArticles (S fuel) url options w =
  let w1 := afterRequest w (requestFor url options) in
  match fetch (requests w) (requestFor url options) with
  | Throw e => Some (Throw e, w1)
  | Ok response =>
      match orUndefined (response_body response) with
      | None => Some (Ok (mkFetchedArticles None url), w1)
      | Some body =>
          match getArticlesFromXml (env := parserAt url options) body with
          | Ok articles =>
              Some (Ok (mkFetchedArticles (Some (XmlParsedArticlesOutput.mk articles)) url),
                    afterCaching w1 url options (XmlParsedArticlesOutput.mk articles))
          | Throw err =>
              if isInvalidFeed err && default false (findRssFromHtml options)
              then
                match extractRssFromHtml body with
                | Some rssUrl =>
                    match linkedUrl url rssUrl with
                    | Some target => fetchFeedArticles fuel target (withoutFlags options) w1
                    | None => Some (Throw (Error "Invalid URL"), w1)
                    end
                | None => Some (Throw err, w1)
                end
              else Some (Throw err, w1)
          end
      end
  end.
Proof.
  intros Hcache. destruct (getFeedArticlesFromCache_world url (withoutFlags options) w)
    as [r Hr]. rewrite Hr in Hcache. injection Hcache as Hresult _. subst r.
  cbn [fetchFeedArticles]. unfold fetching_bind at 1. rewrite Hr.
  unfold fetching_bind at 1, feedFetcherService_fetch. cbv zeta.
  fold (requestFor url options). fold (afterRequest w (requestFor url options)).
  destruct (fetch (requests w) (requestFor url options)) as [response|e]; [|reflexivity].
  unfold orUndefined.
  destruct (response_body response) as [body|]; [|reflexivity].
  destruct (truthy body); cbn [negb]; [|reflexivity].
  unfold try_catch, fetching_bind, fetching_lift.
  destruct (getArticlesFromXml body) as [articles|err]; [reflexivity|].
  destruct err; cbn [isInvalidFeed andb]; try reflexivity.
  destruct (default false (findRssFromHtml options)); [|reflexivity].
  destruct (extractRssFromHtml body) as [rssUrl|]; [|reflexivity].
  unfold linkedUrl. destruct (String.prefix "/" rssUrl); [|reflexivity].
  destruct (newURL url); reflexivity.
Qed.

(** The three ways the cache answers, and on a miss every way the fetcher,
    the parser and the page answer. *)
Ltac cache_cases url options w Hcache :=
  let r := fresh "r" in
  destruct (getFeedArticlesFromCache_world url (withoutFlags options) w) as [r Hcache];
  destruct r as [[?cached|]|?e].

Ltac miss_cases :=
  cbv zeta in *;
  match goal with
  | |- context [fetch ?history ?request] =>
      destruct (fetch history request) as [?response|?e]
  | H : context [fetch ?history ?request] |- _ =>
      destruct (fetch history request) as [?response|?e]
  end;
  [match goal with
   | |- context [orUndefined (response_body ?response)] =>
       destruct (orUndefined (response_body response)) as [?body|] eqn:?Hbody
   | H : context [orUndefined (response_body ?response)] |- _ =>
       destruct (orUndefined (response_body response)) as [?body|] eqn:?Hbody
   end;
   [match goal with
    | |- context [getArticlesFromXml ?body] =>
        destruct (getArticlesFromXml body) as [?articles|?err] eqn:?Hxml
    | H : context [getArticlesFromXml ?body] |- _ =>
        destruct (getArticlesFromXml body) as [?articles|?err] eqn:?Hxml
    end;
    [|match goal with
      | |- context [isInvalidFeed ?err && ?flag] =>
          destruct (isInvalidFeed err && flag) eqn:?Hfollow
      | H : context [isInvalidFeed ?err && ?flag] |- _ =>
          destruct (isInvalidFeed err && flag) eqn:?Hfollow
      end;
      [match goal with
       | |- context [extractRssFromHtml ?body] =>
           destruct (extractRssFromHtml body) as [?rssUrl|] eqn:?Hrss
       | H : context [extractRssFromHtml ?body] |- _ =>
           destruct (extractRssFromHtml body) as [?rssUrl|] eqn:?Hrss
       end;
       [match goal with
        | |- context [linkedUrl ?url ?rssUrl] =>
            destruct (linkedUrl url rssUrl) as [?target|] eqn:?Hlink
        | H : context [linkedUrl ?url ?rssUrl] |- _ =>
            destruct (linkedUrl url rssUrl) as [?target|] eqn:?Hlink
        end|]|]]|]|].

(** Without [findRssFromHtml] one unit of fuel is enough. *)
Lemma fetchFeedArticles_unflagged fuel url options w :
  default false (findRssFromHtml options) = false ->
  exists r w',
    fetchFeedArticles (S fuel) url options w = Some (r, w')
    /\ fetchFeedArticles 1 url options w = Some (r, w').
Proof.
  intros Hflag. cache_cases url options w Hcache.
  - rewrite !(fetchFeedArticles_hit _ _ _ _ _ _ Hcache). eauto.
  - rewrite !(fetchFeedArticles_miss _ _ _ _ _ Hcache), Hflag.
    miss_cases; try rewrite andb_false_r in *; try discriminate; eauto.
  - rewrite !(fetchFeedArticles_cache_throws _ _ _ _ _ _ Hcache). eauto.
Qed.

(** Two units of fuel are enough, and more change nothing. *)
Lemma fetchFeedArticles_enough_fuel fuel url options w :
  exists r w',
    fetchFeedArticles (S (S fuel)) url options w = Some (r, w')
    /\ fetchFeedArticles 2 url options w = Some (r, w').
Proof.
  cache_cases url options w Hcache.
  - rewrite !(fetchFeedArticles_hit _ _ _ _ _ _ Hcache). eauto.
  - rewrite !(fetchFeedArticles_miss _ _ _ _ _ Hcache).
    miss_cases; try (solve [eauto]).
    destruct (fetchFeedArticles_unflagged fuel target (withoutFlags options)
                (afterRequest w (requestFor url options)) eq_refl)
      as [r [w' [Hmore Hone]]].
    exists r, w'. now rewrite Hmore, Hone.
  - rewrite !(fetchFeedArticles_cache_throws _ _ _ _ _ _ Hcache). eauto.
Qed.

(** X16. [fetchFeedArticles] terminates: it calls itself only to follow
    the RSS link of an HTML page, and only when [findRssFromHtml] is set,
    which the call that follows the link does not pass on. So two units of
    fuel give a result for every URL, options and world, more fuel gives the
    same result, and without [findRssFromHtml] one unit is enough. *)
Theorem fetchFeedArticles_terminates fuel url options w :
  exists r w',
    fetchFeedArticles (S (S fuel)) url options w = Some (r, w')
    /\ fetchFeedArticles 2 url options w = Some (r, w')
    /\ (default false (findRssFromHtml options) = false ->
        fetchFeedArticles 1 url options w = Some (r, w')).
Proof.
  destruct (fetchFeedArticles_enough_fuel fuel url options w) as [r [w' [Hmore Htwo]]].
  exists r, w'. split; [exact Hmore|]. split; [exact Htwo|].
  intros Hflag.
  destruct (fetchFeedArticles_unflagged 1 url options w Hflag) as [r1 [w1 [Htwo' Hone]]].
  congruence.
Qed.

Lemma alter_ttl_body (m : gmap string CacheEntry) (target key : string) (seconds : Z) :
  entry_body <$> alter (fun e => mkCacheEntry (entry_body e) (Some seconds)) target m !! key
  = entry_body <$> m !! key.
Proof.
  rewrite lookup_alter. destruct (decide (target = key)) as [<-|_]; [|reflexivity].
  now destruct (m !! target).
Qed.

(** What the cache returns depends on the bodies of its entries only. *)
Lemma getFeedArticlesFromCache_bodies url options w1 w2 :
  (forall key, entry_body <$> cache w1 !! key = entry_body <$> cache w2 !! key) ->
  fst <$> getFeedArticlesFromCache url options w1
  = fst <$> getFeedArticlesFromCache url options w2.
Proof.
  intros Hbodies.
  unfold getFeedArticlesFromCache, fetching_bind, CacheStorageService.get.
  rewrite Hbodies.
  destruct (entry_body <$> cache w2 !! calculateCacheKeyForArticles url options)
    as [compressed|]; [|reflexivity].
  destruct (negb (truthy compressed)); [reflexivity|].
  unfold fetching_lift, fetching_ret.
  destruct (inflateBase64 compressed) as [jsonText|e]; [|reflexivity].
  destruct (parseOutput jsonText); reflexivity.
Qed.

Lemma getFeedArticlesFromCache_hit_entry url options w cached w0 :
  getFeedArticlesFromCache url options w = Some (Ok (Some cached), w0) ->
  exists entry, cache w !! calculateCacheKeyForArticles url options = Some entry.
Proof.
  unfold getFeedArticlesFromCache, fetching_bind, CacheStorageService.get.
  destruct (cache w !! calculateCacheKeyForArticles url options) as [entry|]; [eauto|].
  discriminate.
Qed.

(** X17. A cache hit. When the cache has the articles of the URL,
    [fetchFeedArticles] returns them under the URL and makes no request to
    the fetcher; it leaves the body of every entry as it is and sets the
    time to live of the entry it has read to 300 seconds, so that the same
    call is a hit again. *)
Theorem fetchFeedArticles_cache_hit fuel url options w cached w0 :
  getFeedArticlesFromCache url (withoutFlags options) w = Some (Ok (Some cached), w0) ->
  exists w',
    fetchFeedArticles (S fuel) url options w
    = Some (Ok (mkFetchedArticles (Some cached) url), w')
    /\ requests w' = requests w
    /\ (forall key, entry_body <$> cache w' !! key = entry_body <$> cache w !! key)
    /\ entry_ttl <$> cache w' !! calculateCacheKeyForArticles url options
       = Some (Some 300%Z)
    /\ (forall other, other <> calculateCacheKeyForArticles url options ->
                      cache w' !! other = cache w !! other)
    /\ getFeedArticlesFromCache url (withoutFlags options) w'
       = Some (Ok (Some cached), w').
Proof.
  intros Hcache. rewrite (fetchFeedArticles_hit _ _ _ _ _ _ Hcache).
  eexists. split; [reflexivity|]. cbn [cache requests].
  split; [reflexivity|]. split; [intros key; apply alter_ttl_body|]. split; [|split].
  - destruct (getFeedArticlesFromCache_hit_entry _ _ _ _ _ Hcache) as [entry Hentry].
    change (calculateCacheKeyForArticles url (withoutFlags options))
      with (calculateCacheKeyForArticles url options) in Hentry.
    now rewrite lookup_alter_eq, Hentry.
  - intros other Hother. now rewrite lookup_alter_ne.
  - match goal with
    | |- getFeedArticlesFromCache _ _ ?w' = _ =>
        destruct (getFeedArticlesFromCache_world url (withoutFlags options) w') as [r Hr];
        destruct (getFeedArticlesFromCache_world url (withoutFlags options) w) as [r0 Hr0];
        pose proof (getFeedArticlesFromCache_bodies url (withoutFlags options) w' w
                      (fun key => alter_ttl_body _ _ key _)) as Hsame
    end.
    rewrite Hr, Hr0 in Hsame. cbn in Hsame. rewrite Hr0 in Hcache.
    rewrite Hr. congruence.
Qed.

(** X18. [fetchFeedArticles] writes to the cache what it returns, and
    nothing else. When it returns articles, the entry of the URL it returns
    them under lives 300 seconds, and the entry of every other key is what
    it was. When it returns no articles, because the request is still
    pending, or throws, the cache is what it was: nothing is cached for a
    page that is not a feed. *)
Theorem fetchFeedArticles_caches_what_it_returns fuel url options w r w' :
  fetchFeedArticles fuel url options w = Some (r, w') ->
  match r with
  | Ok fetched =>
      match output fetched with
      | Some data =>
          entry_ttl <$> cache w' !! calculateCacheKeyForArticles (fetched_url fetched) options
          = Some (Some 300%Z)
          /\ (forall other,
                 other <> calculateCacheKeyForArticles (fetched_url fetched) options ->
                 cache w' !! other = cache w !! other)
      | None => cache w' = cache w
      end
  | Throw _ => cache w' = cache w
  end.
Proof.
  revert url options w r w'.
  induction fuel as [|fuel IH]; intros url options w r w' Hrun; [discriminate|].
  cache_cases url options w Hcache.
  - destruct (getFeedArticlesFromCache_hit_entry _ _ _ _ _ Hcache) as [entry Hentry].
    change (calculateCacheKeyForArticles url (withoutFlags options))
      with (calculateCacheKeyForArticles url options) in Hentry.
    rewrite (fetchFeedArticles_hit _ _ _ _ _ _ Hcache) in Hrun.
    injection Hrun as <- <-. cbn [output fetched_url cache]. split.
    + now rewrite lookup_alter_eq, Hentry.
    + intros other Hother. now rewrite lookup_alter_ne.
  - rewrite (fetchFeedArticles_miss _ _ _ _ _ Hcache) in Hrun.
    miss_cases; try (injection Hrun as <- <-; cbn [output fetched_url cache afterRequest];
                     auto; fail).
    + injection Hrun as <- <-. cbn [output fetched_url]. unfold afterCaching.
      cbn [cache afterRequest]. split.
      * now rewrite lookup_insert_eq.
      * intros other Hother. now rewrite lookup_insert_ne.
    + apply IH in Hrun. exact Hrun.
  - rewrite (fetchFeedArticles_cache_throws _ _ _ _ _ _ Hcache) in Hrun.
    now injection Hrun as <- <-.
Qed.

(** The requests of a call that does not follow links. *)
Lemma fetchFeedArticles_unflagged_requests fuel url options w r w' :
  default false (findRssFromHtml options) = false ->
  fetchFeedArticles fuel url options w = Some (r, w') ->
  requests w' = requests w \/ requests w' = requests w ++ [requestFor url options].
Proof.
  intros Hflag Hrun. destruct fuel as [|fuel]; [discriminate|].
  cache_cases url options w Hcache.
  - rewrite (fetchFeedArticles_hit _ _ _ _ _ _ Hcache) in Hrun.
    injection Hrun as <- <-. now left.
  - rewrite (fetchFeedArticles_miss _ _ _ _ _ Hcache), Hflag in Hrun.
    miss_cases; try rewrite andb_false_r in *; try discriminate;
      injection Hrun as <- <-; now right.
  - rewrite (fetchFeedArticles_cache_throws _ _ _ _ _ _ Hcache) in Hrun.
    injection Hrun as <- <-. now left.
Qed.

(** X19. One call of [fetchFeedArticles] makes at most two requests to the
    fetcher: none on a cache hit, one for the URL, and one more for the URL
    that the page links to, when [findRssFromHtml] is set. The second
    request carries the lookup details of the first and no [executeFetch].
    Both go to the URL of the lookup details when these have one: the link
    then changes the cache key and the parser rules, not the page that is
    fetched. *)
Theorem fetchFeedArticles_makes_at_most_two_requests fuel url options w r w' :
  fetchFeedArticles fuel url options w = Some (r, w') ->
  (requests w' = requests w
   \/ requests w' = requests w ++ [requestFor url options]
   \/ exists rssUrl target,
        default false (findRssFromHtml options) = true
        /\ linkedUrl url rssUrl = Some target
        /\ requests w' = requests w ++ [requestFor url options;
                                        requestFor target (withoutFlags options)])
  /\ (forall target,
         executeFetchIfNotInCache (requestFor target (withoutFlags options)) = true
         /\ fetch_executeFetch (requestFor target (withoutFlags options)) = None
         /\ lookupDetails (requestFor target (withoutFlags options))
            = requestLookupDetails options)
  /\ (forall details target,
         requestLookupDetails options = Some details ->
         FeedRequestLookupDetails.url details <> ""%string ->
         fetch_url (requestFor target (withoutFlags options))
         = FeedRequestLookupDetails.url details
         /\ fetch_url (requestFor url options) = FeedRequestLookupDetails.url details).
Proof.
  intros Hrun. split; [|split].
  - destruct fuel as [|fuel]; [discriminate|].
    cache_cases url options w Hcache.
    + rewrite (fetchFeedArticles_hit _ _ _ _ _ _ Hcache) in Hrun.
      injection Hrun as <- <-. now left.
    + rewrite (fetchFeedArticles_miss _ _ _ _ _ Hcache) in Hrun.
      miss_cases; try (injection Hrun as <- <-; right; left; reflexivity).
      apply andb_true_iff in Hfollow as [_ Hflag].
      destruct (fetchFeedArticles_unflagged_requests
                  fuel target (withoutFlags options) _ r w' eq_refl Hrun)
        as [Hsame|Hmore].
      * right. left. exact Hsame.
      * right. right. exists rssUrl, target. split; [assumption|]. split; [assumption|].
        rewrite Hmore. cbn [afterRequest requests]. now rewrite <- app_assoc.
    + rewrite (fetchFeedArticles_cache_throws _ _ _ _ _ _ Hcache) in Hrun.
      injection Hrun as <- <-. now left.
  - intros target. now split.
  - intros details target Hdetails Hurl. unfold requestFor. cbn [fetch_url withoutFlags
      requestLookupDetails]. rewrite Hdetails. cbn [fmap option_fmap option_map or_else].
    apply truthy_true in Hurl. now rewrite Hurl.
Qed.

(** X20. Write-through. When the cache has nothing for the URL, the
    fetcher returns a body and the body parses, [fetchFeedArticles] makes
    one request, returns the articles and writes them to the cache; if the
    codecs invert each other on them, the next call for the same URL and
    options is a cache hit: it returns the same articles and makes no
    request. *)
Theorem fetchFeedArticles_second_call_is_a_hit
    fuel fuel' url options w w0 response body articles :
  getFeedArticlesFromCache url (withoutFlags options) w = Some (Ok None, w0) ->
  fetch (requests w) (requestFor url options) = Ok response ->
  orUndefined (response_body response) = Some body ->
  getArticlesFromXml (env := parserAt url options) body = Ok articles ->
  inflateBase64 (deflateBase64 (stringifyOutput (XmlParsedArticlesOutput.mk articles)))
  = Ok (stringifyOutput (XmlParsedArticlesOutput.mk articles)) ->
  parseOutput (stringifyOutput (XmlParsedArticlesOutput.mk articles))
  = Ok (XmlParsedArticlesOutput.mk articles) ->
  deflateBase64 (stringifyOutput (XmlParsedArticlesOutput.mk articles)) <> ""%string ->
  exists w1 w2,
    fetchFeedArticles (S fuel) url options w
    = Some (Ok (mkFetchedArticles (Some (XmlParsedArticlesOutput.mk articles)) url), w1)
    /\ requests w1 = requests w ++ [requestFor url options]
    /\ fetchFeedArticles (S fuel') url options w1
       = Some (Ok (mkFetchedArticles (Some (XmlParsedArticlesOutput.mk articles)) url), w2)
    /\ requests w2 = requests w1.
Proof.
  intros Hcache Hfetch Hbody Hxml Hinflate Hparse Hcompressed.
  rewrite (fetchFeedArticles_miss _ _ _ _ _ Hcache). cbv zeta.
  rewrite Hfetch, Hbody, Hxml.
  eexists. eexists. split; [reflexivity|]. split; [reflexivity|].
  assert (Hhit : getFeedArticlesFromCache url (withoutFlags options)
                   (afterCaching (afterRequest w (requestFor url options)) url options
                      (XmlParsedArticlesOutput.mk articles))
                 = Some (Ok (Some (XmlParsedArticlesOutput.mk articles)),
                         afterCaching (afterRequest w (requestFor url options)) url options
                           (XmlParsedArticlesOutput.mk articles))).
  { eapply getFeedArticlesFromCache_entry.
    - unfold afterCaching. cbn [cache]. apply lookup_insert_eq.
    - exact Hcompressed.
    - exact Hinflate.
    - exact Hparse. }
  rewrite (fetchFeedArticles_hit _ _ _ _ _ _ Hhit). split; reflexivity.
Qed.

End Fetch.

(** ** Trying the usual places of a feed, and picking one article *)

Lemma string_length_append (s t : string) :
  String.length (s ++ t) = (String.length s + String.length t)%nat.
Proof. induction s as [|c s IH]; simpl; [reflexivity|]. now rewrite IH. Qed.

Lemma substring_all (s : string) : substring 0 (String.length s) s = s.
Proof. induction s as [|c s IH]; simpl; [reflexivity|]. now rewrite IH. Qed.

Lemma substring_append_left (s t : string) :
  substring 0 (String.length s) (s ++ t) = s.
Proof.
  induction s as [|c s IH]; simpl; [now destruct t|]. now rewrite IH.
Qed.

Lemma substring_append_right (s t : string) :
  substring (String.length s) (String.length t) (s ++ t) = t.
Proof. induction s as [|c s IH]; simpl; [apply substring_all|]. exact IH. Qed.

Lemma endsWith_append (s suffix : string) : endsWith (s ++ suffix) suffix = true.
Proof.
  unfold endsWith. rewrite string_length_append.
  replace (String.length s + String.length suffix - String.length suffix)%nat
    with (String.length s) by lia.
  rewrite substring_append_right, String.eqb_refl, andb_true_r.
  apply Nat.leb_le. lia.
Qed.

Lemma sliceOffLast_append (s : string) (c : Ascii.ascii) :
  sliceOffLast (s ++ String c "") = s.
Proof.
  unfold sliceOffLast. rewrite string_length_append. simpl.
  replace (String.length s + 1 - 1)%nat with (String.length s) by lia.
  apply substring_append_left.
Qed.

Lemma find_first {A} (f : A -> bool) (l : list A) (a : A) :
  List.find f l = Some a <->
  exists before after,
    l = before ++ a :: after /\ f a = true /\ forall b, In b before -> f b = false.
Proof.
  induction l as [|x rest IH]; simpl.
  - split; [discriminate|]. intros [before [after [Hl _]]].
    destruct before; discriminate.
  - destruct (f x) eqn:Hx.
    + split.
      * intros Hfound. injection Hfound as <-. exists [], rest. now split.
      * intros [before [after [Hl [Ha Hbefore]]]].
        destruct before as [|b before].
        -- simpl in Hl. congruence.
        -- simpl in Hl. injection Hl as <- _.
           rewrite (Hbefore x (or_introl eq_refl)) in Hx. discriminate.
    + rewrite IH. split.
      * intros [before [after [-> [Ha Hbefore]]]]. exists (x :: before), after.
        split; [reflexivity|]. split; [assumption|].
        intros b [<-|Hb]; auto.
      * intros [before [after [Hl [Ha Hbefore]]]].
        destruct before as [|b before].
        -- simpl in Hl. injection Hl as -> _. congruence.
        -- simpl in Hl. injection Hl as <- ->. exists before, after.
           split; [reflexivity|]. split; [assumption|]. intros b' Hb'.
           apply Hbefore. now right.
Qed.

Lemma find_none_iff {A} (f : A -> bool) (l : list A) :
  List.find f l = None <-> forall a, In a l -> f a = false.
Proof.
  split; [apply find_none|].
  induction l as [|x rest IH]; intros Hall; simpl; [reflexivity|].
  rewrite (Hall x (or_introl eq_refl)). apply IH. intros a Ha. apply Hall. now right.
Qed.

Section Find.

Context {env : Collaborators} {fetcher : FetchCollaborators}.

(** X21. [findOrFetchFeedArticles] tries the original URL, and only when
    that is not a feed the URLs [base/feed] and [base/rss], in this order,
    where the base is the origin and path of the original URL without a
    final slash. What a later attempt throws is dropped: the function throws
    what the first attempt threw, unless the original URL does not parse.
    The first attempt that returns gives the result. *)
Theorem findOrFetchFeedArticles_rethrows_original fuel originalUrl options w :
  (forall r w1,
      fetchFeedArticles fuel originalUrl options w = Some (r, w1) ->
      (forall e, r = Throw e -> isInvalidFeed e = false) ->
      findOrFetchFeedArticles fuel originalUrl options w = Some (r, w1))
  /\ (forall e w',
         findOrFetchFeedArticles fuel originalUrl options w = Some (Throw e, w') ->
         exists e0 w1,
           fetchFeedArticles fuel originalUrl options w = Some (Throw e0, w1)
           /\ (e = e0
               \/ (e = Error "Invalid URL" /\ isInvalidFeed e0 = true
                   /\ newURL originalUrl = None)))
  /\ (forall message w1 url,
         fetchFeedArticles fuel originalUrl options w
         = Some (Throw (InvalidFeedException message), w1) ->
         newURL originalUrl = Some url ->
         findOrFetchFeedArticles fuel originalUrl options w =
         match fetchFeedArticles fuel (baseOf url ++ "/feed") options w1 with
         | Some (Throw _, w2) =>
             match fetchFeedArticles fuel (baseOf url ++ "/rss") options w2 with
             | Some (Throw _, w3) => Some (Throw (InvalidFeedException message), w3)
             | other => other
             end
         | other => other
         end)
  /\ (forall url base,
         (origin url ++ pathname url)%string = (base ++ "/")%string ->
         baseOf url = base)
  /\ (forall url,
         endsWith (origin url ++ pathname url) "/" = false ->
         baseOf url = (origin url ++ pathname url)%string).
Proof.
  split; [|split; [|split; [|split]]].
  - intros r w1 Hfirst Hvalid. unfold findOrFetchFeedArticles, try_catch.
    rewrite Hfirst. destruct r as [fetched|e]; [reflexivity|].
    specialize (Hvalid e eq_refl). destruct e; try reflexivity. discriminate.
  - intros e w'. unfold findOrFetchFeedArticles, try_catch.
    destruct (fetchFeedArticles fuel originalUrl options w) as [[[fetched|e0] w1]|];
      [discriminate| |discriminate].
    intros Hrun. exists e0, w1. split; [reflexivity|].
    destruct e0 as [|message|message|code];
      try (injection Hrun as <- _; now left).
    destruct (newURL originalUrl) as [url|].
    + cbn [tryNewUrls] in Hrun. unfold try_catch in Hrun.
      destruct (fetchFeedArticles fuel _ options w1) as [[[fetched|e1] w2]|];
        [discriminate| |discriminate].
      destruct (fetchFeedArticles fuel _ options w2) as [[[fetched|e2] w3]|];
        [discriminate| |discriminate].
      unfold fetching_throw in Hrun. injection Hrun as <- _. now left.
    + unfold fetching_throw in Hrun. injection Hrun as <- _. right. now split.
  - intros message w1 url Hfirst Hurl. unfold findOrFetchFeedArticles, try_catch.
    rewrite Hfirst, Hurl. cbn [tryNewUrls]. unfold try_catch. fold (baseOf url).
    destruct (fetchFeedArticles fuel _ options w1) as [[[fetched|e1] w2]|];
      try reflexivity.
  - intros url base Hbase. unfold baseOf. rewrite Hbase, endsWith_append.
    apply sliceOffLast_append.
  - intros url Hends. unfold baseOf. now rewrite Hends.
Qed.

(** X22. [fetchFeedArticle] on what [fetchFeedArticles] gives it. An
    exception is passed on; a request that is still pending is an error.
    Otherwise it returns null iff there are no articles, an article iff it
    is the first one that has the id, and it throws
    [FeedArticleNotFoundException] iff there are articles and none has the
    id. The world is the one that [fetchFeedArticles] leaves. *)
Theorem fetchFeedArticle_returns_first_with_id fuel url articleId options w :
  (forall e w',
      fetchFeedArticles fuel url (withoutFlags options) w = Some (Throw e, w') ->
      fetchFeedArticle fuel url articleId options w = Some (inr (Thrown e), w'))
  /\ (forall fetched w',
         fetchFeedArticles fuel url (withoutFlags options) w = Some (Ok fetched, w') ->
         output fetched = None ->
         fetchFeedArticle fuel url articleId options w
         = Some (inr (Thrown (Error ("Request for " ++ url ++ " is still pending"))), w'))
  /\ (forall fetched w' result,
         fetchFeedArticles fuel url (withoutFlags options) w = Some (Ok fetched, w') ->
         output fetched = Some result ->
         exists outcome,
           fetchFeedArticle fuel url articleId options w = Some (outcome, w')
           /\ (outcome = inl None <-> XmlParsedArticlesOutput.articles result = [])
           /\ (forall article,
                  outcome = inl (Some article) <->
                  exists before after,
                    XmlParsedArticlesOutput.articles result = before ++ article :: after
                    /\ id (flattened article) = articleId
                    /\ forall b, In b before -> id (flattened b) <> articleId)
           /\ ((exists message, outcome = inr (FeedArticleNotFoundException message)) <->
               XmlParsedArticlesOutput.articles result <> []
               /\ forall a, In a (XmlParsedArticlesOutput.articles result) ->
                            id (flattened a) <> articleId)
           /\ (forall e, outcome <> inr (Thrown e))).
Proof.
  split; [|split].
  - intros e w' Hrun. unfold fetchFeedArticle. now rewrite Hrun.
  - intros fetched w' Hrun Hpending. unfold fetchFeedArticle. now rewrite Hrun, Hpending.
  - intros fetched w' result Hrun Hresult. unfold fetchFeedArticle.
    rewrite Hrun, Hresult.
    set (articles := XmlParsedArticlesOutput.articles result).
    set (hasId := fun article : Article => (id (flattened article) =? articleId)%string).
    assert (Hfirst : forall article,
               List.find hasId articles = Some article <->
               exists before after,
                 articles = before ++ article :: after
                 /\ id (flattened article) = articleId
                 /\ forall b, In b before -> id (flattened b) <> articleId).
    { intros article. rewrite find_first. unfold hasId.
      split; intros [before [after [Hl [Ha Hbefore]]]]; exists before, after;
        (split; [assumption|]); (split; [now apply String.eqb_eq|]);
        intros b Hb; apply String.eqb_neq; auto. }
    assert (Hnone : List.find hasId articles = None <->
                    forall a, In a articles -> id (flattened a) <> articleId).
    { rewrite find_none_iff. unfold hasId.
      split; intros Hall a Ha; apply String.eqb_neq; auto. }
    destruct (length articles =? 0)%nat eqn:Hlen.
    { apply length_eqb_0 in Hlen. eexists. split; [reflexivity|].
      split; [tauto|]. split; [|split].
      + intros article. split; [discriminate|].
        intros [before [after [Hl _]]]. rewrite Hlen in Hl.
        destruct before; discriminate.
      + split; [intros [message Hmessage]; discriminate|]. intros [Hne _]. contradiction.
      + discriminate. }
    apply length_eqb_0_false in Hlen.
    destruct (List.find hasId articles) as [found|] eqn:Hfind.
    + eexists. split; [reflexivity|]. split; [|split; [|split]].
      * split; [discriminate|contradiction].
      * intros article. rewrite <- Hfirst. split; congruence.
      * split; [intros [message Hmessage]; discriminate|].
        intros [_ Hall]. apply Hnone in Hall. congruence.
      * discriminate.
    + eexists. split; [reflexivity|]. split; [|split; [|split]].
      * split; [discriminate|contradiction].
      * intros article. rewrite <- Hfirst. split; [discriminate|congruence].
      * split; [|eauto]. intros _. split; [assumption|]. now apply Hnone.
      * discriminate.
Qed.

(** X26. [extractRssFromHtml] returns the address of the RSS link of a
    page: a link is returned iff the page is valid HTML, has an RSS link,
    and the link has an address that is not empty. It never returns an
    empty address, so the test of its result in [fetchFeedArticles] is a
    test for null. *)
Theorem extractRssFromHtml_returns_the_link html :
  (forall rssUrl,
      extractRssFromHtml html = Some rssUrl <->
      valid html = true /\ rssLinkHref html = Some (Some rssUrl) /\ rssUrl <> ""%string)
  /\ (extractRssFromHtml html = None <->
      valid html = false
      \/ rssLinkHref html = None
      \/ rssLinkHref html = Some None
      \/ rssLinkHref html = Some (Some ""%string)).
Proof.
  unfold extractRssFromHtml, orUndefined, truthy.
  destruct (valid html); cbn [negb].
  - destruct (rssLinkHref html) as [[href|]|].
    + destruct (String.eqb_spec href ""); cbn [negb].
      * subst href. split.
        -- intros rssUrl. split; [discriminate|].
           intros [_ [Hlink Hne]]. congruence.
        -- split; [intros _; right; right; right; reflexivity|reflexivity].
      * split.
        -- intros rssUrl. split.
           ++ intros Hsome. injection Hsome as <-. now split.
           ++ intros [_ [Hlink _]]. congruence.
        -- split; [discriminate|].
           intros [Hvalid|[Hnone|[Hnone|Hempty]]]; congruence.
    + split.
      * intros rssUrl. split; [discriminate|]. intros [_ [Hlink _]]. discriminate.
      * split; [intros _; right; right; left; reflexivity|reflexivity].
    + split.
      * intros rssUrl. split; [discriminate|]. intros [_ [Hlink _]]. discriminate.
      * split; [intros _; right; left; reflexivity|reflexivity].
  - split.
    + intros rssUrl. split; [discriminate|]. intros [Hvalid _]. discriminate.
    + split; [intros _; left; reflexivity|reflexivity].
Qed.

(** X27. [findOrFetchFeedArticles] terminates: its three attempts are calls
    of [fetchFeedArticles], each of which two units of fuel are enough
    for. *)
Theorem findOrFetchFeedArticles_terminates fuel originalUrl options w :
  exists r w',
    findOrFetchFeedArticles (S (S fuel)) originalUrl options w = Some (r, w')
    /\ findOrFetchFeedArticles 2 originalUrl options w = Some (r, w').
Proof.
  unfold findOrFetchFeedArticles, try_catch.
  destruct (fetchFeedArticles_enough_fuel fuel originalUrl options w)
    as [r [w1 [Hmore Htwo]]].
  rewrite Hmore, Htwo. destruct r as [fetched|e]; [eauto|].
  destruct e as [|message|message|code]; try (unfold fetching_throw; eauto; fail).
  destruct (newURL originalUrl) as [url|]; [|unfold fetching_throw; eauto].
  cbn [tryNewUrls]. unfold try_catch.
  match goal with
  | |- context [fetchFeedArticles 2 ?feedUrl options w1] =>
      destruct (fetchFeedArticles_enough_fuel fuel feedUrl options w1)
        as [r2 [w2 [Hmore2 Htwo2]]]
  end.
  rewrite Hmore2, Htwo2. destruct r2 as [fetched|e2]; [eauto|].
  match goal with
  | |- context [fetchFeedArticles 2 ?rssUrl options w2] =>
      destruct (fetchFeedArticles_enough_fuel fuel rssUrl options w2)
        as [r3 [w3 [Hmore3 Htwo3]]]
  end.
  rewrite Hmore3, Htwo3. destruct r3 as [fetched|e3]; [eauto|].
  unfold fetching_throw. eauto.
Qed.

End Find.

(** ** The properties above on the scenarios *)

(** X1 on the registry of [Scenario.dbSeenA]: description is reported as
    stored, title is not. *)
Lemma areComparisonsStored_reports_registry_witness :
  map field (areComparisonsStored Scenario.dbSeenA "feed" ["title"; "description"]%string)
  = ["title"; "description"]%string
  /\ comparisonRegistered Scenario.dbSeenA "feed" "description".
Proof.
  destruct (areComparisonsStored_reports_registry Scenario.dbSeenA "feed"
              ["title"; "description"]%string) as [Hfields [Hstatus _]].
  split; [exact Hfields|].
  apply (Hstatus (mkComparisonStatus "description" true)).
  - vm_compute. right. left. reflexivity.
  - reflexivity.
Defined.

(** X2: an article without description passes the passing comparison on
    description. *)
Lemma checkPassingComparisons_passes_unseen_values_witness :
  In (Scenario.bareArticle "b" "B")
     (checkPassingComparisons (env := Scenario.doubles []) Scenario.dbSeenA "feed"
        ["description"%string]
        [Scenario.article "a" "A" "new text"; Scenario.bareArticle "b" "B"]
        ["description"%string]).
Proof.
  pose proof (checkPassingComparisons_passes_unseen_values
                (env := Scenario.doubles []) Scenario.dbSeenA "feed"
                ["description"%string]
                [Scenario.article "a" "A" "new text"; Scenario.bareArticle "b" "B"]
                ["description"%string]) as Hpass.
  cbv zeta in Hpass. destruct Hpass as [_ [_ [_ Hkept]]].
  apply Hkept.
  - right. left. reflexivity.
  - exists "description"%string. split; left; reflexivity.
  - exists "description"%string. split; [left; reflexivity|].
    exists (mkComparison "feed" "description"). split; [left; reflexivity|now split].
  - intros key [<-|[]] [value [Hvalue _]]. vm_compute in Hvalue. discriminate.
Defined.

(** X3: of a and c, only c is new to [Scenario.dbSeenA], and its id hash is
    not stored. *)
Lemma filterForNewArticles_one_per_unstored_hash_witness :
  FieldStore.has_row Scenario.dbSeenA "feed" "id"
    (idHash (flattened (Scenario.article "c" "C" "text of c"))) = false.
Proof.
  pose proof (filterForNewArticles_one_per_unstored_hash Scenario.dbSeenA "feed"
                [Scenario.article "a" "A" "new text";
                 Scenario.article "c" "C" "text of c"]) as Hnew.
  cbv zeta in Hnew. destruct Hnew as [Horigin _].
  apply (Horigin (Scenario.article "c" "C" "text of c")).
  vm_compute. left. reflexivity.
Defined.

(** X4: a is a seen article of that pass. *)
Lemma seenArticles_are_the_stored_ones_witness :
  In (Scenario.article "a" "A" "new text")
     (Pass.seenArticles Scenario.dbSeenA Scenario.passingDescription
        [Scenario.article "a" "A" "new text"; Scenario.article "c" "C" "text of c"]).
Proof.
  apply (proj1 (proj2 (seenArticles_are_the_stored_ones Scenario.dbSeenA
                         Scenario.passingDescription
                         [Scenario.article "a" "A" "new text";
                          Scenario.article "c" "C" "text of c"]))).
  split; [left; reflexivity|vm_compute; reflexivity].
Defined.

(** X5: a first call that commits on the empty database. *)
Lemma storeArticles_commit_is_visible_witness :
  let db' :=
    snd (storeArticles (env := Scenario.doubles []) "feed"
           [Scenario.article "c" "C" "text of c"]
           (Some (mkStoreOptions (Some ["title"%string]) None)) 5 Scenario.emptyDb) in
  filterForNewArticles db' "feed" [Scenario.article "c" "C" "text of c"] = []
  /\ comparisonRegistered db' "feed" "title"
  /\ hasPriorArticlesStored db' "feed" = true.
Proof.
  pose proof (storeArticles_commit_is_visible (env := Scenario.doubles []) "feed"
                [Scenario.article "c" "C" "text of c"] ["title"%string] None 5
                Scenario.emptyDb eq_refl) as Hvisible.
  cbv zeta in *. destruct Hvisible as [Hnew [Hregistered [_ [Hprior _]]]].
  split; [exact Hnew|]. split; [apply Hregistered; left; reflexivity|].
  apply Hprior. discriminate.
Defined.

(** X6: the poll after the seed pass of a feed of one article delivers
    nothing. *)
Lemma second_poll_after_seed_witness :
  let C : Collaborators :=
    Scenario.doubles (Scenario.feed [Scenario.item "a" "A" "text of a"]) in
  fst (getArticlesToDeliverFromXml "xml" Scenario.passingDescription 3
         (snd (getArticlesToDeliverFromXml "xml" Scenario.passingDescription 2
                 Scenario.emptyDb)))
  = Ok (mkDeliveryResult [] [Scenario.article "a" "A" "text of a"]).
Proof.
  cbv zeta.
  destruct (second_poll_after_seed
              (env := Scenario.doubles (Scenario.feed [Scenario.item "a" "A" "text of a"]))
              "xml" Scenario.passingDescription 2 3 Scenario.emptyDb
              [Scenario.article "a" "A" "text of a"])
    as [delivered [Hresult [_ [_ [_ [_ Hall]]]]]].
  - vm_compute; reflexivity.
  - discriminate.
  - reflexivity.
  - vm_compute; reflexivity.
  - rewrite Hresult, Hall; [reflexivity|].
    intros a [<-|[]]. exists "description"%string. split; [left; reflexivity|].
    exists "text of a"%string. split; [vm_compute; reflexivity|discriminate].
Defined.

(** X7: the rows of another feed do not change what a poll returns. *)
Lemma getArticlesToDeliverFromXml_reads_own_rows_witness :
  let C : Collaborators := Scenario.doubles Scenario.feedAC in
  fst (getArticlesToDeliverFromXml "xml" Scenario.passingDescription 2 Scenario.dbSeenA)
  = fst (getArticlesToDeliverFromXml "xml" Scenario.passingDescription 2
           FetchScenario.dbSeenAAmongOthers).
Proof.
  cbv zeta.
  apply (getArticlesToDeliverFromXml_reads_own_rows
           (env := Scenario.doubles Scenario.feedAC)
           "xml" Scenario.passingDescription 2 Scenario.dbSeenA
           FetchScenario.dbSeenAAmongOthers).
  reflexivity.
Defined.



(** X11: once the feed is forgotten, its next poll delivers nothing. *)
Lemma deleteInfoForFeed_forgets_feed_witness :
  let C : Collaborators := Scenario.doubles Scenario.feedAC in
  fst (getArticlesToDeliverFromXml "xml" Scenario.passingDescription 2
         (snd (deleteInfoForFeed "feed" Scenario.dbSeenA)))
  = Ok (mkDeliveryResult []
          [Scenario.article "a" "A" "new text"; Scenario.article "c" "C" "text of c"]).
Proof.
  cbv zeta.
  pose proof (deleteInfoForFeed_forgets_feed (env := Scenario.doubles Scenario.feedAC)
                "feed" Scenario.dbSeenA) as Hforgotten.
  cbv zeta in Hforgotten.
  destruct Hforgotten as [_ [_ [_ [_ [_ [_ Hseed]]]]]].
  apply Hseed; [reflexivity|vm_compute; reflexivity].
Defined.

(** X14: the feed is gone from the warm cache. *)
Lemma invalidateFeedArticlesCache_forgets_witness :
  exists w',
    invalidateFeedArticlesCache (env := FetchScenario.parser) (fetcher := FetchScenario.web)
      "https://site.test/feed.xml" FetchScenario.plain FetchScenario.warmWorld
    = Some (Ok tt, w')
    /\ getFeedArticlesFromCache (env := FetchScenario.parser) (fetcher := FetchScenario.web)
         "https://site.test/feed.xml" FetchScenario.plain w' = Some (Ok None, w').
Proof.
  destruct (invalidateFeedArticlesCache_forgets
              (env := FetchScenario.parser) (fetcher := FetchScenario.web)
              "https://site.test/feed.xml" FetchScenario.plain FetchScenario.warmWorld)
    as [w' [Hdel [Hget _]]].
  exists w'. now split.
Defined.

(** X15: the entry of the warm cache lives 300 seconds again. *)
Lemma refreshFeedArticlesCacheExpiration_keeps_bodies_witness :
  exists w',
    refreshFeedArticlesCacheExpiration
      (env := FetchScenario.parser) (fetcher := FetchScenario.web)
      "https://site.test/feed.xml" FetchScenario.plain FetchScenario.warmWorld
    = Some (Ok tt, w')
    /\ cache w' !! FetchScenario.feedKey
       = Some (mkCacheEntry "z:{articles:[a]}" (Some 300%Z)).
Proof.
  destruct (refreshFeedArticlesCacheExpiration_keeps_bodies
              (env := FetchScenario.parser) (fetcher := FetchScenario.web)
              "https://site.test/feed.xml" FetchScenario.plain FetchScenario.warmWorld)
    as [w' [Hrefresh _]].
  exists w'. split; [exact Hrefresh|].
  vm_compute in Hrefresh. injection Hrefresh as <-. vm_compute. reflexivity.
Defined.

(** X16: the front page of the site, with links followed. *)
Lemma fetchFeedArticles_terminates_witness :
  exists r w',
    fetchFeedArticles (env := FetchScenario.parser) (fetcher := FetchScenario.web)
      5 "https://site.test/" FetchScenario.followingLinks FetchScenario.emptyWorld
    = Some (r, w')
    /\ fetchFeedArticles (env := FetchScenario.parser) (fetcher := FetchScenario.web)
         2 "https://site.test/" FetchScenario.followingLinks FetchScenario.emptyWorld
       = Some (r, w').
Proof.
  destruct (fetchFeedArticles_terminates
              (env := FetchScenario.parser) (fetcher := FetchScenario.web)
              3 "https://site.test/" FetchScenario.followingLinks FetchScenario.emptyWorld)
    as [r [w' [Hmore [Htwo _]]]].
  exists r, w'. split; [exact Hmore|exact Htwo].
Defined.

(** X17: a hit in the warm cache. *)
Lemma fetchFeedArticles_cache_hit_witness :
  exists w',
    fetchFeedArticles (env := FetchScenario.parser) (fetcher := FetchScenario.web)
      1 "https://site.test/feed.xml" FetchScenario.plain FetchScenario.warmWorld
    = Some (Ok (mkFetchedArticles (Some FetchScenario.outputA)
                  "https://site.test/feed.xml"), w')
    /\ requests w' = []
    /\ entry_ttl <$> cache w' !! FetchScenario.feedKey = Some (Some 300%Z).
Proof.
  destruct (fetchFeedArticles_cache_hit
              (env := FetchScenario.parser) (fetcher := FetchScenario.web)
              0 "https://site.test/feed.xml" FetchScenario.plain FetchScenario.warmWorld
              FetchScenario.outputA FetchScenario.warmWorld)
    as [w' [Hrun [Hrequests [_ [Httl _]]]]]; [vm_compute; reflexivity|].
  exists w'. split; [exact Hrun|]. split; [exact Hrequests|exact Httl].
Defined.

(** X18: the feed that the front page links to is cached under its own
    URL, and nothing is cached for the front page. *)
Lemma fetchFeedArticles_caches_what_it_returns_witness :
  exists w',
    fetchFeedArticles (env := FetchScenario.parser) (fetcher := FetchScenario.web)
      2 "https://site.test/" FetchScenario.followingLinks FetchScenario.emptyWorld
    = Some (Ok (mkFetchedArticles (Some FetchScenario.outputA)
                  "https://site.test/feed.xml"), w')
    /\ entry_ttl <$> cache w' !! FetchScenario.feedKey = Some (Some 300%Z)
    /\ cache w' !! "articles:com:sha1:https://site.test/|"%string = None.
Proof.
  destruct (fetchFeedArticles (env := FetchScenario.parser) (fetcher := FetchScenario.web)
              2 "https://site.test/" FetchScenario.followingLinks FetchScenario.emptyWorld)
    as [[r w']|] eqn:Hrun; [|vm_compute in Hrun; discriminate].
  pose proof (fetchFeedArticles_caches_what_it_returns
                (env := FetchScenario.parser) (fetcher := FetchScenario.web)
                2 "https://site.test/" FetchScenario.followingLinks
                FetchScenario.emptyWorld r w' Hrun) as Hcached.
  vm_compute in Hrun. injection Hrun as <- <-.
  cbn [output fetched_url] in Hcached. destruct Hcached as [Httl Hother].
  eexists. split; [reflexivity|]. split; [exact Httl|].
  rewrite Hother; [reflexivity|discriminate].
Defined.

(** X19: the front page and the feed it links to are the two requests. *)
Lemma fetchFeedArticles_makes_at_most_two_requests_witness :
  exists r w',
    fetchFeedArticles (env := FetchScenario.parser) (fetcher := FetchScenario.web)
      2 "https://site.test/" FetchScenario.followingLinks FetchScenario.emptyWorld
    = Some (r, w')
    /\ (requests w' = []
        \/ requests w' = [FetchScenario.requestOf "https://site.test/"]
        \/ exists target,
             requests w' = [FetchScenario.requestOf "https://site.test/";
                            FetchScenario.requestOf target]).
Proof.
  destruct (fetchFeedArticles (env := FetchScenario.parser) (fetcher := FetchScenario.web)
              2 "https://site.test/" FetchScenario.followingLinks FetchScenario.emptyWorld)
    as [[r w']|] eqn:Hrun; [|vm_compute in Hrun; discriminate].
  exists r, w'. split; [reflexivity|].
  destruct (proj1 (fetchFeedArticles_makes_at_most_two_requests
                     (env := FetchScenario.parser) (fetcher := FetchScenario.web)
                     2 "https://site.test/" FetchScenario.followingLinks
                     FetchScenario.emptyWorld r w' Hrun))
    as [Hnone|[Hone|[rssUrl [target [_ [_ Htwo]]]]]].
  - left. exact Hnone.
  - right. left. exact Hone.
  - right. right. exists target. exact Htwo.
Defined.

(** X20: the feed is fetched once and then served from the cache. *)
Lemma fetchFeedArticles_second_call_is_a_hit_witness :
  exists w1 w2,
    fetchFeedArticles (env := FetchScenario.parser) (fetcher := FetchScenario.web)
      1 "https://site.test/feed.xml" FetchScenario.plain FetchScenario.emptyWorld
    = Some (Ok (mkFetchedArticles (Some FetchScenario.outputA)
                  "https://site.test/feed.xml"), w1)
    /\ fetchFeedArticles (env := FetchScenario.parser) (fetcher := FetchScenario.web)
         1 "https://site.test/feed.xml" FetchScenario.plain w1
       = Some (Ok (mkFetchedArticles (Some FetchScenario.outputA)
                     "https://site.test/feed.xml"), w2)
    /\ requests w2 = [FetchScenario.requestOf "https://site.test/feed.xml"].
Proof.
  destruct (fetchFeedArticles_second_call_is_a_hit
              (env := FetchScenario.parser) (fetcher := FetchScenario.web)
              0 0 "https://site.test/feed.xml" FetchScenario.plain
              FetchScenario.emptyWorld FetchScenario.emptyWorld
              (mkFetchResponse (Some "<rss>a</rss>"%string)) "<rss>a</rss>"
              [FetchScenario.articleA])
    as [w1 [w2 [Hfirst [Hrequests [Hsecond Hsame]]]]];
    try (vm_compute; reflexivity); [discriminate|].
  exists w1, w2. split; [exact Hfirst|]. split; [exact Hsecond|].
  rewrite Hsame, Hrequests. reflexivity.
Defined.

(** X21: the blog's page is not a feed, and its feed is found at
    [base/feed]. *)
Lemma findOrFetchFeedArticles_rethrows_original_witness :
  fst <$> findOrFetchFeedArticles
            (env := FetchScenario.parser) (fetcher := FetchScenario.web)
            2 "https://site.test/blog/" FetchScenario.plain FetchScenario.emptyWorld
  = Some (Ok (mkFetchedArticles (Some FetchScenario.outputA)
                "https://site.test/blog/feed"))
  /\ baseOf (mkURL "https://site.test" "/blog/") = "https://site.test/blog"%string.
Proof.
  pose proof (findOrFetchFeedArticles_rethrows_original
                (env := FetchScenario.parser) (fetcher := FetchScenario.web)
                2 "https://site.test/blog/" FetchScenario.plain FetchScenario.emptyWorld)
    as [_ [_ [Hprobes [Hbase _]]]].
  split.
  - rewrite (Hprobes "Invalid feed"%string
               (mkWorld ∅ [FetchScenario.requestOf "https://site.test/blog/"])
               (mkURL "https://site.test" "/blog/"));
      vm_compute; reflexivity.
  - apply Hbase. reflexivity.
Defined.

(** X22: the article with id a is found in the feed. *)
Lemma fetchFeedArticle_returns_first_with_id_witness :
  exists outcome,
    fetchFeedArticle (env := FetchScenario.parser) (fetcher := FetchScenario.web)
      2 "https://site.test/feed.xml" "a" FetchScenario.plain FetchScenario.emptyWorld
    = Some (outcome, FetchScenario.fetchedWorld)
    /\ outcome = inl (Some FetchScenario.articleA).
Proof.
  destruct (proj2 (proj2 (fetchFeedArticle_returns_first_with_id
                            (env := FetchScenario.parser) (fetcher := FetchScenario.web)
                            2 "https://site.test/feed.xml" "a" FetchScenario.plain
                            FetchScenario.emptyWorld))
              (mkFetchedArticles (Some FetchScenario.outputA) "https://site.test/feed.xml")
              FetchScenario.fetchedWorld FetchScenario.outputA)
    as [outcome [Hrun [_ [Hfirst _]]]]; [vm_compute; reflexivity|reflexivity|].
  exists outcome. split; [exact Hrun|].
  apply Hfirst. exists [], []. split; [reflexivity|]. split; [reflexivity|].
  intros b [].
Defined.

(** X23: the pass on a and c delivers at most two articles, all of them
    parsed. *)
Lemma getArticlesToDeliverFromXml_delivers_parsed_articles_witness :
  let C : Collaborators := Scenario.doubles Scenario.feedAC in
  let articles :=
    [Scenario.article "a" "A" "new text"; Scenario.article "c" "C" "text of c"] in
  exists deliver,
    fst (getArticlesToDeliverFromXml "xml" Scenario.passingDescription 2 Scenario.dbSeenA)
    = Ok (mkDeliveryResult deliver articles)
    /\ (length deliver <= 2)%nat
    /\ forall a, In a deliver -> In a articles.
Proof.
  cbv zeta.
  destruct (proj2 (getArticlesToDeliverFromXml_delivers_parsed_articles
                     (env := Scenario.doubles Scenario.feedAC)
                     "xml" Scenario.passingDescription 2 Scenario.dbSeenA)
              [Scenario.article "a" "A" "new text"; Scenario.article "c" "C" "text of c"])
    as [deliver [Hresult [Hin [Hlength _]]]]; [vm_compute; reflexivity|].
  exists deliver. split; [exact Hresult|]. split; [exact Hlength|exact Hin].
Defined.

(** X24: article a is stored in [Scenario.dbSeenA]; a call that brings it
    again, with a new description to store, changes nothing. *)
Lemma storeArticles_never_stores_an_article_twice_witness :
  storeArticles (env := Scenario.doubles []) "feed"
    [Scenario.article "a" "A" "new text"]
    (Some (mkStoreOptions (Some ["description"%string]) (Some true))) 2 Scenario.dbSeenA
  = (Ok tt, Scenario.dbSeenA).
Proof.
  apply (storeArticles_never_stores_an_article_twice (env := Scenario.doubles [])).
  exists (Scenario.article "a" "A" "new text").
  split; [left; reflexivity|vm_compute; reflexivity].
Defined.

(** X25: in the pass on a and c, a is a seen article, and the pass persists
    what the call for the new article c persists. *)
Lemma pass_persists_the_new_articles_only_witness :
  let C : Collaborators := Scenario.doubles Scenario.feedAC in
  let articles :=
    [Scenario.article "a" "A" "new text"; Scenario.article "c" "C" "text of c"] in
  Pass.persisted Scenario.dbSeenA Scenario.blockingTitlePassingDescription articles 2
  = snd (Pass.storeNewArticles Scenario.dbSeenA Scenario.blockingTitlePassingDescription
           articles 2 Scenario.dbSeenA)
  /\ ~ comparisonRegistered
        (Pass.persisted Scenario.dbSeenA Scenario.blockingTitlePassingDescription articles 2)
        "feed" "title".
Proof.
  cbv zeta.
  pose proof (pass_persists_the_new_articles_only
                (env := Scenario.doubles Scenario.feedAC) Scenario.dbSeenA
                Scenario.blockingTitlePassingDescription
                [Scenario.article "a" "A" "new text"; Scenario.article "c" "C" "text of c"]
                2) as Hpass.
  cbv zeta in Hpass. destruct Hpass as [_ Hseen].
  destruct Hseen as [Hall Hunregistered]; [vm_compute; discriminate|].
  split; [exact Hall|]. apply Hunregistered. vm_compute. left. reflexivity.
Defined.

(** X26: the link of the front page. *)
Lemma extractRssFromHtml_returns_the_link_witness :
  extractRssFromHtml (fetcher := FetchScenario.web) "<html>front</html>"
  = Some "/feed.xml"%string.
Proof.
  apply (proj1 (extractRssFromHtml_returns_the_link (fetcher := FetchScenario.web)
                  "<html>front</html>")).
  split; [reflexivity|]. split; [reflexivity|discriminate].
Defined.
